(** * rosserial_python: the host side of the rosserial wire protocol

    A shallow embedding of [SerialClient.py]: the frame writer ([_send],
    [processWriteQueue]), the frame reader ([tryRead], [run]), topic
    negotiation ([requestTopics], the [setup*] handlers) and the session
    state they share.  Python objects become records, the session's mutable
    attributes and its environment (serial port, clock, log) become one
    state threaded through a small state-and-exception monad. *)

From Stdlib Require Import ZArith Lia List.
From Stdlib.Strings Require Import Ascii String Byte.
From stdpp Require Import gmap strings list.

Open Scope Z_scope.

(** ** Bytes *)

(** Python [bytes] are sequences of integers 0..255: [list byte]. *)

#[global] Instance byte_eq_dec : EqDecision byte := Byte.byte_eq_dec.

#[global] Instance byte_countable : Countable byte :=
  inj_countable Byte.to_N Byte.of_N Byte.of_to_N.

Definition byte_val (b : byte) : Z := Z.of_N (Byte.to_N b).

(** The byte whose value is [z mod 256]. *)
Definition byte_of_Z (z : Z) : byte :=
  match Byte.of_N (Z.to_N (z mod 256)) with
  | Some b => b
  | None => x00
  end.

(** [sum(array.array('B', bs))] *)
Definition sum_bytes (bs : list byte) : Z :=
  fold_right (fun b acc => byte_val b + acc) 0 bs.

(** ** Exceptions *)

Inductive exn : Type :=
| StructError                          (* struct.error: argument out of range *)
| NameError (name : string)            (* name is not defined *)
| IOError (expected received : Z)      (* raised by tryRead on a short read *)
| SerialTimeoutException               (* pyserial write timeout *)
| RuntimeError
| KeyError
| IndexError
| ValueError                           (* unpacking the wrong number of values *)
| AttributeError (name : string)
| Exception (text : string).

#[global] Instance exn_eq_dec : EqDecision exn.
Proof. solve_decision. Defined.

Inductive res (A : Type) : Type :=
| Ok (a : A)
| Raise (e : exn).
Arguments Ok {A} a.
Arguments Raise {A} e.

(** ** The struct module, for the three formats the file uses *)

Module struct.

(** [struct.pack('<h', n)]: signed 16-bit, little endian. *)
Definition pack_h (n : Z) : res (list byte) :=
  if (-32768 <=? n) && (n <=? 32767)
  then Ok [byte_of_Z n; byte_of_Z (n / 256)]
  else Raise StructError.

(** [struct.pack('B', n)]: one unsigned byte. *)
Definition pack_B (n : Z) : res (list byte) :=
  if (0 <=? n) && (n <=? 255) then Ok [byte_of_Z n] else Raise StructError.

(** [struct.unpack('<H', bs)]: unsigned 16-bit, little endian. *)
Definition unpack_H (bs : list byte) : res Z :=
  match bs with
  | [lo; hi] => Ok (byte_val lo + 256 * byte_val hi)
  | _ => Raise StructError
  end.

Definition signed16 (u : Z) : Z := if u <? 32768 then u else u - 65536.

(** [struct.unpack('<hB', bs)]: a signed 16-bit value, then a byte. *)
Definition unpack_hB (bs : list byte) : res (Z * Z) :=
  match bs with
  | [lo; hi; b] => Ok (signed16 (byte_val lo + 256 * byte_val hi), byte_val b)
  | _ => Raise StructError
  end.

End struct.

(** ** Messages and endpoints *)

(** A message class as the bridge uses it: its [_md5sum] and [_type]. *)
Record MessageClass : Type := {
  _md5sum : string;
  _type : string;
}.

#[global] Instance MessageClass_eq_dec : EqDecision MessageClass.
Proof. solve_decision. Defined.

(** Modelled from the spec: [rosserial_msgs.msg.TopicInfo], which this file
    imports; fields [topic_id: u16], [topic_name], [message_type], [md5sum]
    and [buffer_size: u32]. *)
Record TopicInfo : Type := {
  topic_id : N;
  topic_name : string;
  message_type : string;
  md5sum : string;
  buffer_size : N;
}.

Record Publisher : Type := {
  pub_topic : string;
  pub_message : MessageClass;
}.

Record Subscriber : Type := {
  sub_topic : string;
  sub_id : Z;
  sub_message : MessageClass;
}.

Inductive ServiceKind : Type := IsServiceServer | IsServiceClient.

(** [ServiceServer] and [ServiceClient] objects; [srv_id] is the attribute
    [id], absent until the subscriber half is set up, [srv_response] the
    attribute [response] of a server. *)
Record Service : Type := {
  srv_kind : ServiceKind;
  srv_topic : string;
  mreq : MessageClass;
  mres : MessageClass;
  srv_id : option Z;
  srv_response : option (list byte);
}.

(** What a [callbacks] entry is bound to.  A service handler is a bound
    method of the object stored in [services] under the topic name; the
    entry keeps that name, so it sees later updates of the object. *)
Inductive Handler : Type :=
| H_setupPublisher
| H_setupSubscriber
| H_setupServiceServerPublisher
| H_setupServiceServerSubscriber
| H_setupServiceClientPublisher
| H_setupServiceClientSubscriber
| H_handleParameterRequest
| H_handleLoggingRequest
| H_handleTimeRequest
| H_Publisher_handlePacket (pub : Publisher)
| H_Service_handlePacket (name : string).

(** Items of [write_queue]: a [(topic, msg)] tuple, ready-made [bytes], or
    anything else. *)
Inductive QueueItem : Type :=
| QTuple (topic : Z) (msg : list byte)
| QBytes (data : list byte)
| QOther (type_name : string).

(** ** Log and middleware events *)

Inductive Arg : Type :=
| AInt (n : Z)
| AStr (s : string)
| ARepr (bs : list byte)
| AExn (e : exn).

Inductive Level : Type := DEBUG | INFO | WARN | ERROR | FATAL.

Inductive ReadStep : Type :=
| step_syncflag | step_protocol | step_message_length
| step_topic_id | step_data | step_data_checksum.

Inductive Event : Type :=
| Log (lvl : Level) (fmt : string) (args : list Arg)
    (* rospy.log<lvl>(fmt % args) *)
| LogStep (lvl : Level) (fmt : string) (step : option ReadStep)
| Diagnostics (level : Level) (text : string)
    (last_sync : option Z) (last_sync_lost : Z)
    (* pub_diagnostics.publish; last sync is "never" while lastsync is 0 *)
| Dispatched (id : Z) (msg : list byte)
    (* self.callbacks[id](msg) found a handler and calls it *)
| RosPublisher (topic : string) (ty : MessageClass)
| RosPublish (topic : string) (data : list byte)
| RosSubscriber (topic : string) (ty : MessageClass)
| RosUnregister (topic : string)
| RosService (topic : string)
| RosServiceProxy (topic : string).

(** ** The session state *)

Record Times : Type := {
  lastsync : Z;
  lastsync_lost : Z;
  lastsync_success : Z;
  last_read : Z;
  last_write : Z;
}.

(** What [flushInput] of the port is: none, so that the call raises
    [AttributeError]; one that does nothing, as [RosSerialServer]'s; or
    one that empties the input buffer, as a serial port's and as
    [RosSerialUDPServer]'s, which empties [recv_buffer]. *)
Inductive FlushInput : Type :=
| flushInput_missing
| flushInput_pass
| flushInput_empties.

(** The port: a serial port, one of the socket servers of this file, or
    another object with these methods.  [buffered] is what [inWaiting]
    counts; [inflight] are bytes the device has sent that reach the
    buffer while a read waits for them.  [written] lists what the
    [write] calls put on the wire, oldest first.  [write_faults] scripts
    the next [write] calls: [Some e] raises [e], [None] (and an
    exhausted script) succeeds.  A write that times out has put nothing
    on the wire; a write that raises anything else (the socket servers
    raise [RuntimeError] when the connection breaks, after the pieces
    they have sent) has by then put the first [sent_before_fault] bytes
    of its data on the wire.  [inWaiting_faults] scripts the next
    [inWaiting] calls in the same way: the socket servers raise
    [RuntimeError] there on a closed connection. *)
Record Port : Type := {
  buffered : list byte;
  inflight : list byte;
  written : list (list byte);
  write_faults : list (option exn);
  sent_before_fault : nat;
  inWaiting_faults : list (option exn);
  flushInput : FlushInput;
}.

(** Times are integers in one unit (nanoseconds, say); [timeout] is in the
    same unit.  [clock] is what successive [rospy.Time.now()] calls return,
    [ticks] counts the calls made.  [read_step] is the local of [run]. *)
Record SerialClient : Type := {
  times : Times;
  timeout : Z;
  synced : bool;
  fix_pyserial_for_test : bool;
  publishers : gmap Z Publisher;
  subscribers : gmap string Subscriber;
  services : gmap string Service;
  buffer_out : Z;
  buffer_in : Z;
  callbacks : gmap Z Handler;
  write_queue : list QueueItem;
  port : Port;
  clock : nat -> Z;
  ticks : nat;
  trace : list Event;
  read_step : option ReadStep;
}.

(** Attribute assignment. *)

Definition set_times (f : Times -> Times) (s : SerialClient) : SerialClient :=
  {| times := f (times s); timeout := timeout s; synced := synced s;
     fix_pyserial_for_test := fix_pyserial_for_test s;
     publishers := publishers s; subscribers := subscribers s;
     services := services s; buffer_out := buffer_out s;
     buffer_in := buffer_in s; callbacks := callbacks s;
     write_queue := write_queue s; port := port s; clock := clock s;
     ticks := ticks s; trace := trace s; read_step := read_step s |}.

Definition set_lastsync (t : Z) : SerialClient -> SerialClient :=
  set_times (fun x =>
    {| lastsync := t; lastsync_lost := lastsync_lost x;
       lastsync_success := lastsync_success x; last_read := last_read x;
       last_write := last_write x |}).

Definition set_lastsync_lost (t : Z) : SerialClient -> SerialClient :=
  set_times (fun x =>
    {| lastsync := lastsync x; lastsync_lost := t;
       lastsync_success := lastsync_success x; last_read := last_read x;
       last_write := last_write x |}).

Definition set_lastsync_success (t : Z) : SerialClient -> SerialClient :=
  set_times (fun x =>
    {| lastsync := lastsync x; lastsync_lost := lastsync_lost x;
       lastsync_success := t; last_read := last_read x;
       last_write := last_write x |}).

Definition set_last_read (t : Z) : SerialClient -> SerialClient :=
  set_times (fun x =>
    {| lastsync := lastsync x; lastsync_lost := lastsync_lost x;
       lastsync_success := lastsync_success x; last_read := t;
       last_write := last_write x |}).

Definition set_last_write (t : Z) : SerialClient -> SerialClient :=
  set_times (fun x =>
    {| lastsync := lastsync x; lastsync_lost := lastsync_lost x;
       lastsync_success := lastsync_success x; last_read := last_read x;
       last_write := t |}).

Definition set_synced (b : bool) (s : SerialClient) : SerialClient :=
  {| times := times s; timeout := timeout s; synced := b;
     fix_pyserial_for_test := fix_pyserial_for_test s;
     publishers := publishers s; subscribers := subscribers s;
     services := services s; buffer_out := buffer_out s;
     buffer_in := buffer_in s; callbacks := callbacks s;
     write_queue := write_queue s; port := port s; clock := clock s;
     ticks := ticks s; trace := trace s; read_step := read_step s |}.

Definition set_publishers (m : gmap Z Publisher) (s : SerialClient) : SerialClient :=
  {| times := times s; timeout := timeout s; synced := synced s;
     fix_pyserial_for_test := fix_pyserial_for_test s;
     publishers := m; subscribers := subscribers s;
     services := services s; buffer_out := buffer_out s;
     buffer_in := buffer_in s; callbacks := callbacks s;
     write_queue := write_queue s; port := port s; clock := clock s;
     ticks := ticks s; trace := trace s; read_step := read_step s |}.

Definition set_subscribers (m : gmap string Subscriber) (s : SerialClient) : SerialClient :=
  {| times := times s; timeout := timeout s; synced := synced s;
     fix_pyserial_for_test := fix_pyserial_for_test s;
     publishers := publishers s; subscribers := m;
     services := services s; buffer_out := buffer_out s;
     buffer_in := buffer_in s; callbacks := callbacks s;
     write_queue := write_queue s; port := port s; clock := clock s;
     ticks := ticks s; trace := trace s; read_step := read_step s |}.

Definition set_services (m : gmap string Service) (s : SerialClient) : SerialClient :=
  {| times := times s; timeout := timeout s; synced := synced s;
     fix_pyserial_for_test := fix_pyserial_for_test s;
     publishers := publishers s; subscribers := subscribers s;
     services := m; buffer_out := buffer_out s;
     buffer_in := buffer_in s; callbacks := callbacks s;
     write_queue := write_queue s; port := port s; clock := clock s;
     ticks := ticks s; trace := trace s; read_step := read_step s |}.

Definition set_buffer_out (n : Z) (s : SerialClient) : SerialClient :=
  {| times := times s; timeout := timeout s; synced := synced s;
     fix_pyserial_for_test := fix_pyserial_for_test s;
     publishers := publishers s; subscribers := subscribers s;
     services := services s; buffer_out := n;
     buffer_in := buffer_in s; callbacks := callbacks s;
     write_queue := write_queue s; port := port s; clock := clock s;
     ticks := ticks s; trace := trace s; read_step := read_step s |}.

Definition set_buffer_in (n : Z) (s : SerialClient) : SerialClient :=
  {| times := times s; timeout := timeout s; synced := synced s;
     fix_pyserial_for_test := fix_pyserial_for_test s;
     publishers := publishers s; subscribers := subscribers s;
     services := services s; buffer_out := buffer_out s;
     buffer_in := n; callbacks := callbacks s;
     write_queue := write_queue s; port := port s; clock := clock s;
     ticks := ticks s; trace := trace s; read_step := read_step s |}.

Definition set_callbacks (m : gmap Z Handler) (s : SerialClient) : SerialClient :=
  {| times := times s; timeout := timeout s; synced := synced s;
     fix_pyserial_for_test := fix_pyserial_for_test s;
     publishers := publishers s; subscribers := subscribers s;
     services := services s; buffer_out := buffer_out s;
     buffer_in := buffer_in s; callbacks := m;
     write_queue := write_queue s; port := port s; clock := clock s;
     ticks := ticks s; trace := trace s; read_step := read_step s |}.

Definition set_write_queue (q : list QueueItem) (s : SerialClient) : SerialClient :=
  {| times := times s; timeout := timeout s; synced := synced s;
     fix_pyserial_for_test := fix_pyserial_for_test s;
     publishers := publishers s; subscribers := subscribers s;
     services := services s; buffer_out := buffer_out s;
     buffer_in := buffer_in s; callbacks := callbacks s;
     write_queue := q; port := port s; clock := clock s;
     ticks := ticks s; trace := trace s; read_step := read_step s |}.

Definition set_port (p : Port) (s : SerialClient) : SerialClient :=
  {| times := times s; timeout := timeout s; synced := synced s;
     fix_pyserial_for_test := fix_pyserial_for_test s;
     publishers := publishers s; subscribers := subscribers s;
     services := services s; buffer_out := buffer_out s;
     buffer_in := buffer_in s; callbacks := callbacks s;
     write_queue := write_queue s; port := p; clock := clock s;
     ticks := ticks s; trace := trace s; read_step := read_step s |}.

Definition set_ticks (n : nat) (s : SerialClient) : SerialClient :=
  {| times := times s; timeout := timeout s; synced := synced s;
     fix_pyserial_for_test := fix_pyserial_for_test s;
     publishers := publishers s; subscribers := subscribers s;
     services := services s; buffer_out := buffer_out s;
     buffer_in := buffer_in s; callbacks := callbacks s;
     write_queue := write_queue s; port := port s; clock := clock s;
     ticks := n; trace := trace s; read_step := read_step s |}.

Definition set_trace (t : list Event) (s : SerialClient) : SerialClient :=
  {| times := times s; timeout := timeout s; synced := synced s;
     fix_pyserial_for_test := fix_pyserial_for_test s;
     publishers := publishers s; subscribers := subscribers s;
     services := services s; buffer_out := buffer_out s;
     buffer_in := buffer_in s; callbacks := callbacks s;
     write_queue := write_queue s; port := port s; clock := clock s;
     ticks := ticks s; trace := t; read_step := read_step s |}.

Definition set_read_step (r : option ReadStep) (s : SerialClient) : SerialClient :=
  {| times := times s; timeout := timeout s; synced := synced s;
     fix_pyserial_for_test := fix_pyserial_for_test s;
     publishers := publishers s; subscribers := subscribers s;
     services := services s; buffer_out := buffer_out s;
     buffer_in := buffer_in s; callbacks := callbacks s;
     write_queue := write_queue s; port := port s; clock := clock s;
     ticks := ticks s; trace := trace s; read_step := r |}.

(** ** The monad: state, and exceptions that keep the state reached *)

Definition M (A : Type) : Type := SerialClient -> res A * SerialClient.

Definition ret {A : Type} (a : A) : M A := fun s => (Ok a, s).

Definition bind {A B : Type} (m : M A) (k : A -> M B) : M B :=
  fun s =>
    match m s with
    | (Ok a, s') => k a s'
    | (Raise e, s') => (Raise e, s')
    end.

Definition raise {A : Type} (e : exn) : M A := fun s => (Raise e, s).

Definition gets {A : Type} (f : SerialClient -> A) : M A := fun s => (Ok (f s), s).

Definition modify (f : SerialClient -> SerialClient) : M unit := fun s => (Ok tt, f s).

Definition lift {A : Type} (r : res A) : M A := fun s => (r, s).

(** [try: m  except <those e with h e = Some k>: k] *)
Definition try_except {A : Type} (m : M A) (h : exn -> option (M A)) : M A :=
  fun s =>
    match m s with
    | (Ok a, s') => (Ok a, s')
    | (Raise e, s') =>
        match h e with
        | Some k => k s'
        | None => (Raise e, s')
        end
    end.

Declare Scope py_scope.
Delimit Scope py_scope with py.
Notation "'let*' x ':=' m 'in' k" := (bind m (fun x => k))
  (at level 10, x name, m at level 200, k at level 200, only parsing) : py_scope.
Notation "m ;;; k" := (bind m (fun _ => k))
  (at level 100, k at level 200, right associativity, only parsing) : py_scope.
Open Scope py_scope.

Definition emit (e : Event) : M unit :=
  modify (fun s => set_trace (trace s ++ [e]) s).

Definition loginfo (fmt : string) (args : list Arg) : M unit := emit (Log INFO fmt args).
Definition logwarn (fmt : string) (args : list Arg) : M unit := emit (Log WARN fmt args).
Definition logerr (fmt : string) (args : list Arg) : M unit := emit (Log ERROR fmt args).

(** [rospy.Time.now()] *)
Definition Time_now : M Z :=
  let* t := gets (fun s => clock s (ticks s)) in
  modify (fun s => set_ticks (S (ticks s)) s) ;;;
  ret t.

(** ** Class attributes and module constants *)

Definition header : list byte := [xff].
Definition protocol_ver1 : list byte := [xff].
Definition protocol_ver2 : list byte := [xfe].
Definition protocol_ver : list byte := protocol_ver2.

Definition ERROR_MISMATCHED_PROTOCOL : string :=
  "Mismatched protocol version in packet: lost sync or rosserial_python is from different ros release than the rosserial client".
Definition ERROR_NO_SYNC : string := "no sync with device".
Definition ERROR_PACKET_FAILED : string := "Packet Failed : Failed to read msg data".

Definition len (bs : list byte) : Z := Z.of_nat (List.length bs).

(** ** The port *)

Definition set_buffered (bs : list byte) (p : Port) : Port :=
  {| buffered := bs; inflight := inflight p; written := written p;
     write_faults := write_faults p; sent_before_fault := sent_before_fault p;
     inWaiting_faults := inWaiting_faults p; flushInput := flushInput p |}.

Definition set_inflight (bs : list byte) (p : Port) : Port :=
  {| buffered := buffered p; inflight := bs; written := written p;
     write_faults := write_faults p; sent_before_fault := sent_before_fault p;
     inWaiting_faults := inWaiting_faults p; flushInput := flushInput p |}.

Definition set_written (w : list (list byte)) (p : Port) : Port :=
  {| buffered := buffered p; inflight := inflight p; written := w;
     write_faults := write_faults p; sent_before_fault := sent_before_fault p;
     inWaiting_faults := inWaiting_faults p; flushInput := flushInput p |}.

Definition set_write_faults (fs : list (option exn)) (p : Port) : Port :=
  {| buffered := buffered p; inflight := inflight p; written := written p;
     write_faults := fs; sent_before_fault := sent_before_fault p;
     inWaiting_faults := inWaiting_faults p; flushInput := flushInput p |}.

Definition set_inWaiting_faults (fs : list (option exn)) (p : Port) : Port :=
  {| buffered := buffered p; inflight := inflight p; written := written p;
     write_faults := write_faults p; sent_before_fault := sent_before_fault p;
     inWaiting_faults := fs; flushInput := flushInput p |}.

Definition modify_port (f : Port -> Port) : M unit :=
  modify (fun s => set_port (f (port s)) s).

(** [self.port.flushInput()] *)
Definition port_flushInput : M unit :=
  let* p := gets port in
  match flushInput p with
  | flushInput_missing => raise (AttributeError "flushInput")
  | flushInput_pass => ret tt
  | flushInput_empties => modify_port (set_buffered [])
  end.

(** [self.port.inWaiting()] *)
Definition port_inWaiting : M Z :=
  let* p := gets port in
  match inWaiting_faults p with
  | Some e :: fs => modify_port (set_inWaiting_faults fs) ;;; raise e
  | None :: fs => modify_port (set_inWaiting_faults fs) ;;; ret (len (buffered p))
  | [] => ret (len (buffered p))
  end.

(** [self.port.read(n)] for [n > 0]: up to [n] of the bytes that are
    buffered or arrive before the port's read timeout. *)
Definition port_read (n : nat) : M (list byte) :=
  let* p := gets port in
  modify_port (fun p =>
    set_inflight (drop (n - List.length (buffered p)) (inflight p))
      (set_buffered (drop n (buffered p)) p)) ;;;
  ret (take n (buffered p ++ inflight p)).

(** What a write of [data] that raises [e] has put on the wire, which is
    nothing where that is no byte. *)
Definition sent_before (e : exn) (k : nat) (data : list byte) : list (list byte) :=
  match e with
  | SerialTimeoutException => []
  | _ => match take k data with
         | [] => []
         | part => [part]
         end
  end.

(** [self.port.write(data)] *)
Definition port_write (data : list byte) : M unit :=
  let* p := gets port in
  match write_faults p with
  | Some e :: fs =>
      modify_port (fun p =>
        set_write_faults fs
          (set_written (written p ++ sent_before e (sent_before_fault p) data) p)) ;;;
      raise e
  | None :: fs =>
      modify_port (fun p => set_write_faults fs (set_written (written p ++ [data]) p))
  | [] => modify_port (fun p => set_written (written p ++ [data]) p)
  end.

(** The device's bytes reaching the input buffer: [k] more of them. *)
Definition port_arrive (k : nat) : M unit :=
  modify_port (fun p =>
    set_inflight (drop k (inflight p))
      (set_buffered (buffered p ++ take k (inflight p)) p)).

(** ** Requests built by the session itself *)

Definition queue_put (item : QueueItem) : M unit :=
  modify (fun s => set_write_queue (write_queue s ++ [item]) s).

Definition flush_unless_test : M unit :=
  let* fx := gets fix_pyserial_for_test in
  if negb fx
  then try_except port_flushInput
         (fun e => match e with
                   | AttributeError _ => Some (ret tt)
                   | _ => None
                   end)
  else ret tt.

Definition requestTopics : M unit :=
  loginfo "Requesting topics..." [] ;;;
  flush_unless_test ;;;
  queue_put (QBytes (header ++ protocol_ver ++ [x00; x00; xff; x00; x00; xff])).

Definition txStopRequest : M unit :=
  flush_unless_test ;;;
  queue_put (QBytes (header ++ protocol_ver ++ [x00; x00; xff; x0b; x00; xf4])) ;;;
  loginfo "Sending tx stop request" [].

Definition sendDiagnostics (level : Level) (msg_text : string) : M unit :=
  let* _stamp := Time_now in
  let* ls := gets (fun s => lastsync (times s)) in
  let* ll := gets (fun s => lastsync_lost (times s)) in
  emit (Diagnostics level msg_text (if 0 <? ls then Some ls else None) ll).

(** ** Reading *)

(** [tryRead]: [length] bytes or [IOError].  The loop runs while bytes are
    missing and the timeout has not passed; with [length = 0] it is not
    entered, and with a timeout that is not positive no read is made.
    One [read] returns all the bytes that come in time, so that the
    reads of the loop are one read here.  The branch of a negative
    [length], which a frame announces with a length field of 0x8000 and
    above, is that of a serial port and of the TCP server, whose [read]
    of a negative size returns nothing and takes nothing
    ([bytes_remaining] never reaches 0); it does not describe the
    datagram server as port, whose [read] of a negative size slices its
    buffer. *)
Definition tryRead (length : Z) : M (list byte) :=
  let* tmo := gets timeout in
  if length =? 0 then ret []
  else if negb (0 <? tmo) || (length <? 0) then raise (IOError length 0)
  else
    let* received := port_read (Z.to_nat length) in
    (if negb (len received =? 0)
     then (let* t := Time_now in modify (set_last_read t))
     else ret tt) ;;;
    if len received <? length
    then raise (IOError length (len received))
    else ret received.

(** ** Writing *)

Definition send (topic : Z) (msg : list byte) : M unit :=
  queue_put (QTuple topic msg).

Definition _write (data : list byte) : M unit :=
  port_write data ;;;
  let* t := Time_now in
  modify (set_last_write t).

(** Evaluating a name that is bound neither in the function nor in the
    module. *)
Definition unbound_name (name : string) : M Arg := raise (NameError name).

(** [_send].  In the oversize branch the log text is formatted with [msg];
    the parameter is called [msg_bytes] and the module has no global
    [msg]. *)
Definition _send (topic : Z) (msg_bytes : list byte) : M Z :=
  let length := len msg_bytes in
  let* bi := gets buffer_in in
  if (0 <? bi) && (bi <? length)
  then
    let* msg := unbound_name "msg" in
    logerr "Message from ROS network dropped: message larger than buffer.\n%s" [msg] ;;;
    ret (-1)
  else
    let* length_bytes := lift (struct.pack_h length) in
    let length_checksum := 255 - (sum_bytes length_bytes mod 256) in
    let* length_checksum_bytes := lift (struct.pack_B length_checksum) in
    let* topic_bytes := lift (struct.pack_h topic) in
    let msg_checksum := 255 - (sum_bytes (topic_bytes ++ msg_bytes) mod 256) in
    let* msg_checksum_bytes := lift (struct.pack_B msg_checksum) in
    _write (header ++ protocol_ver ++ length_bytes ++ length_checksum_bytes
              ++ topic_bytes ++ msg_bytes ++ msg_checksum_bytes) ;;;
    ret length.

(** One pass of the [try] in [processWriteQueue]. *)
Definition write_item (data : QueueItem) : M unit :=
  match data with
  | QTuple topic msg => _send topic msg ;;; ret tt
  | QBytes d => _write d
  | QOther ty => logerr "Trying to write invalid data type: %s" [AStr ty]
  end.

(** The [while True] around it: [true] when the loop is left by [break],
    [false] when [fuel] retries were not enough. *)
Fixpoint write_retry (fuel : nat) (data : QueueItem) : M bool :=
  try_except (write_item data ;;; ret true)
    (fun e =>
       match e with
       | SerialTimeoutException =>
           Some (logerr "Write timeout: %s" [AExn e] ;;;
                 match fuel with
                 | O => ret false
                 | S fuel' => write_retry fuel' data
                 end)
       | RuntimeError =>
           Some (logerr "Write thread exception: %s" [AExn e] ;;; ret true)
       | _ => None
       end).

(** One turn of the outer loop, [rospy.is_shutdown()] having been false.
    Every scripted fault costs one retry at most. *)
Definition processWriteQueue_body : M bool :=
  let* q := gets write_queue in
  match q with
  | [] => ret true
  | data :: rest =>
      modify (set_write_queue rest) ;;;
      let* fuel := gets (fun s => List.length (write_faults (port s))) in
      write_retry fuel data
  end.

Inductive LoopStatus : Type :=
| LoopEnded      (* the loop condition was false *)
| Returned       (* a [return] inside the loop *)
| StillRunning.  (* the observations ran out *)

(** [processWriteQueue], on the successive values of [rospy.is_shutdown()].
    A raised exception ends the writer thread. *)
Fixpoint processWriteQueue (shutdowns : list bool) : M LoopStatus :=
  match shutdowns with
  | [] => ret StillRunning
  | true :: _ => ret LoopEnded
  | false :: rest =>
      let* ok := processWriteQueue_body in
      if ok : bool then processWriteQueue rest else ret StillRunning
  end.

(** ** Parameters of the ROS parameter server *)

Inductive PyType : Type :=
| T_int | T_bool | T_float | T_str | T_list | T_dict | T_NoneType.

#[global] Instance PyType_eq_dec : EqDecision PyType.
Proof. solve_decision. Defined.

(** A value of the parameter server: what [type] and [isinstance] tell
    of it, and its content where it is a scalar. *)
Inductive Param : Type :=
| PInt (n : Z)
| PBool (b : bool)
| PFloat (written : string)
| PStr (s : string)
| PNested          (* a list inside a list *)
| PDict
| PNone.

Definition type_of (p : Param) : PyType :=
  match p with
  | PInt _ => T_int
  | PBool _ => T_bool
  | PFloat _ => T_float
  | PStr _ => T_str
  | PNested => T_list
  | PDict => T_dict
  | PNone => T_NoneType
  end.

(** What [rospy.get_param] returns: one value or a list of them. *)
Inductive ParamValue : Type :=
| One (p : Param)
| Many (items : list Param).

Record RequestParamResponse : Type := {
  ints : list Param;
  floats : list Param;
  strings : list Param;
}.

(** [s.split('/')] *)
Fixpoint split_slash (s : string) : list string :=
  match s with
  | EmptyString => [EmptyString]
  | String c rest =>
      if Ascii.eqb c "/"%char
      then EmptyString :: split_slash rest
      else match split_slash rest with
           | w :: ws => String c w :: ws
           | [] => [String c EmptyString]
           end
  end.

(** [a, b = l] *)
Definition unpack2 {A : Type} (l : list A) : res (A * A) :=
  match l with
  | [a; b] => Ok (a, b)
  | _ => Raise ValueError
  end.

(** [for p in param: if t != type(p): ... break], true when the loop
    breaks. *)
Definition mixed_types (t : PyType) (param : list Param) : bool :=
  existsb (fun p => negb (bool_decide (t = type_of p))) param.

(** What the bridge takes from outside this file: the message library,
    the middleware, the parameter server, and the constants of the message
    classes it imports ([TopicInfo.ID_*], [Log.*]).  A loader or a
    deserializer that fails raises. *)
Class External : Type := {
  load_message : string -> string -> res MessageClass;
  load_service : string -> string -> res (MessageClass * MessageClass);
  deserialize : MessageClass -> list byte -> option exn;
  TopicInfo_deserialize : list byte -> res TopicInfo;
  Log_deserialize : list byte -> res (Z * string);
  RequestParamRequest_deserialize : list byte -> res string;
  RequestParamResponse_serialize : RequestParamResponse -> res (list byte);
  Time_serialize : Z -> list byte;
  get_param : string -> res ParamValue;
  call_service : string -> list byte -> res (list byte);
  ID_PUBLISHER : Z;
  ID_SUBSCRIBER : Z;
  ID_SERVICE_SERVER : Z;
  ID_SERVICE_CLIENT : Z;
  ID_PARAMETER_REQUEST : Z;
  ID_LOG : Z;
  ID_TIME : Z;
  Log_ROSDEBUG : Z;
  Log_INFO : Z;
  Log_WARN : Z;
  Log_ERROR : Z;
  Log_FATAL : Z;
}.

Section Session.

Context {ext : External}.

(** [except Exception as e: rospy.logerr(fmt, e)] *)
Definition except_log {A : Type} (fmt : string) (m : M A) : M unit :=
  try_except (m ;;; ret tt) (fun e => Some (logerr fmt [AExn e])).

(** *** Publisher *)

Definition Publisher_init (topic_info : TopicInfo) : M Publisher :=
  let* pm := lift (unpack2 (split_slash (message_type topic_info))) in
  let* message := lift (load_message pm.1 pm.2) in
  if String.eqb (_md5sum message) (md5sum topic_info)
  then
    emit (RosPublisher (topic_name topic_info) message) ;;;
    ret {| pub_topic := topic_name topic_info; pub_message := message |}
  else
    raise (Exception ("Checksum does not match: " +:+ _md5sum message
                        +:+ "," +:+ md5sum topic_info)).

Definition Publisher_handlePacket (self : Publisher) (data : list byte) : M unit :=
  except_log "Publisher handling packet failed: %s"
    (match deserialize (pub_message self) data with
     | Some e => raise e
     | None => emit (RosPublish (pub_topic self) data)
     end).

(** *** Subscriber *)

Definition Subscriber_init (topic_info : TopicInfo) : M Subscriber :=
  let* pm := lift (unpack2 (split_slash (message_type topic_info))) in
  let* message := lift (load_message pm.1 pm.2) in
  if String.eqb (_md5sum message) (md5sum topic_info)
  then
    emit (RosSubscriber (topic_name topic_info) message) ;;;
    ret {| sub_topic := topic_name topic_info;
           sub_id := Z.of_N (topic_id topic_info);
           sub_message := message |}
  else
    raise (Exception ("Checksum does not match: " +:+ _md5sum message
                        +:+ "," +:+ md5sum topic_info)).

(** The middleware delivers a message, serialized as [data]. *)
Definition Subscriber_callback (self : Subscriber) (data : list byte) : M unit :=
  send (sub_id self) data.

Definition Subscriber_unregister (self : Subscriber) : M unit :=
  loginfo "Removing subscriber: %s" [AStr (sub_topic self)] ;;;
  emit (RosUnregister (sub_topic self)).

(** *** ServiceServer and ServiceClient *)

Definition ServiceServer_init (topic_info : TopicInfo) : M Service :=
  let* pm := lift (unpack2 (split_slash (message_type topic_info))) in
  let* rr := lift (load_service pm.1 pm.2) in
  emit (RosService (topic_name topic_info)) ;;;
  ret {| srv_kind := IsServiceServer; srv_topic := topic_name topic_info;
         mreq := rr.1; mres := rr.2; srv_id := None; srv_response := None |}.

Definition ServiceClient_init (topic_info : TopicInfo) : M Service :=
  let* pm := lift (unpack2 (split_slash (message_type topic_info))) in
  let* rr := lift (load_service pm.1 pm.2) in
  loginfo ("Starting service client, waiting for service '"
             +:+ topic_name topic_info +:+ "'") [] ;;;
  emit (RosServiceProxy (topic_name topic_info)) ;;;
  ret {| srv_kind := IsServiceClient; srv_topic := topic_name topic_info;
         mreq := rr.1; mres := rr.2; srv_id := None; srv_response := None |}.

Definition service_put (name : string) (srv : Service) : M unit :=
  modify (fun s => set_services (<[name := srv]> (services s)) s).

Definition ServiceServer_handlePacket (name : string) (self : Service)
    (data : list byte) : M unit :=
  except_log "Service server handling packet failed: %s"
    (match deserialize (mres self) data with
     | Some e => raise e
     | None =>
         service_put name
           {| srv_kind := srv_kind self; srv_topic := srv_topic self;
              mreq := mreq self; mres := mres self; srv_id := srv_id self;
              srv_response := Some data |}
     end).

Definition ServiceClient_handlePacket (self : Service) (data : list byte) : M unit :=
  except_log "Service client handling packet failed: %s"
    (match deserialize (mreq self) data with
     | Some e => raise e
     | None =>
         let* resp := lift (call_service (srv_topic self) data) in
         match srv_id self with
         | Some id => send id resp
         | None => raise (AttributeError "id")
         end
     end).

(** The middleware calls the service; the wait for the response is not
    part of the model. *)
Definition ServiceServer_callback (name : string) (self : Service)
    (data : list byte) : M unit :=
  service_put name
    {| srv_kind := srv_kind self; srv_topic := srv_topic self;
       mreq := mreq self; mres := mres self; srv_id := srv_id self;
       srv_response := None |} ;;;
  match srv_id self with
  | Some id => send id data
  | None => raise (AttributeError "id")
  end.

(** *** Buffer sizes *)

Definition setPublishSize (size : Z) : M unit :=
  let* bo := gets buffer_out in
  if bo <? 0
  then
    modify (set_buffer_out size) ;;;
    let* bo' := gets buffer_out in
    loginfo "Note: publish buffer size is %d bytes" [AInt bo']
  else ret tt.

Definition setSubscribeSize (size : Z) : M unit :=
  let* bi := gets buffer_in in
  if bi <? 0
  then
    modify (set_buffer_in size) ;;;
    let* bi' := gets buffer_in in
    loginfo "Note: subscribe buffer size is %d bytes" [AInt bi']
  else ret tt.

(** *** Topic negotiation *)

Definition callback_put (id : Z) (h : Handler) : M unit :=
  modify (fun s => set_callbacks (<[id := h]> (callbacks s)) s).

Definition setupPublisher (data : list byte) : M unit :=
  except_log "Creation of publisher failed: %s"
    (let* msg := lift (TopicInfo_deserialize data) in
     let* pub := Publisher_init msg in
     let id := Z.of_N (topic_id msg) in
     let* pubs := gets publishers in
     (match pubs !! id with
      | None => loginfo "Setup publisher on %s [%s]"
                  [AStr (topic_name msg); AStr (message_type msg)]
      | Some _ => ret tt
      end) ;;;
     modify (fun s => set_publishers (<[id := pub]> (publishers s)) s) ;;;
     callback_put id (H_Publisher_handlePacket pub) ;;;
     setPublishSize (Z.of_N (buffer_size msg))).

Definition setupSubscriber (data : list byte) : M unit :=
  except_log "Creation of subscriber failed: %s"
    (let* msg := lift (TopicInfo_deserialize data) in
     let* subs := gets subscribers in
     match subs !! topic_name msg with
     | None =>
         let* sub := Subscriber_init msg in
         modify (fun s => set_subscribers (<[topic_name msg := sub]> (subscribers s)) s) ;;;
         setSubscribeSize (Z.of_N (buffer_size msg)) ;;;
         loginfo "Setup subscriber on %s [%s]"
           [AStr (topic_name msg); AStr (message_type msg)]
     | Some old =>
         if negb (String.eqb (message_type msg) (_type (sub_message old)))
         then
           let old_message_type := _type (sub_message old) in
           Subscriber_unregister old ;;;
           let* sub := Subscriber_init msg in
           modify (fun s => set_subscribers (<[topic_name msg := sub]> (subscribers s)) s) ;;;
           setSubscribeSize (Z.of_N (buffer_size msg)) ;;;
           loginfo "Change the message type of subscriber on %s from [%s] to [%s]"
             [AStr (topic_name msg); AStr old_message_type; AStr (message_type msg)]
         else ret tt
     end).

(** [try: srv = self.services[name]  except KeyError: srv = new; ...] *)
Definition service_get_or_create (init : TopicInfo -> M Service)
    (what : string) (msg : TopicInfo) : M Service :=
  let* srvs := gets services in
  match srvs !! topic_name msg with
  | Some srv => ret srv
  | None =>
      let* srv := init msg in
      loginfo what [AStr (topic_name msg); AStr (message_type msg)] ;;;
      service_put (topic_name msg) srv ;;;
      ret srv
  end.

Definition checksum_mismatch (have want : string) : exn :=
  Exception ("Checksum does not match: " +:+ have +:+ "," +:+ want).

Definition setupServiceServerPublisher (data : list byte) : M unit :=
  except_log "Creation of service server failed: %s"
    (let* msg := lift (TopicInfo_deserialize data) in
     setPublishSize (Z.of_N (buffer_size msg)) ;;;
     let* srv := service_get_or_create ServiceServer_init
                   "Setup service server on %s [%s]" msg in
     if String.eqb (_md5sum (mres srv)) (md5sum msg)
     then callback_put (Z.of_N (topic_id msg)) (H_Service_handlePacket (topic_name msg))
     else raise (checksum_mismatch (_md5sum (mres srv)) (md5sum msg))).

Definition service_set_id (msg : TopicInfo) (srv : Service) : M unit :=
  service_put (topic_name msg)
    {| srv_kind := srv_kind srv; srv_topic := srv_topic srv;
       mreq := mreq srv; mres := mres srv;
       srv_id := Some (Z.of_N (topic_id msg));
       srv_response := srv_response srv |}.

Definition setupServiceServerSubscriber (data : list byte) : M unit :=
  except_log "Creation of service server failed: %s"
    (let* msg := lift (TopicInfo_deserialize data) in
     setSubscribeSize (Z.of_N (buffer_size msg)) ;;;
     let* srv := service_get_or_create ServiceServer_init
                   "Setup service server on %s [%s]" msg in
     if String.eqb (_md5sum (mreq srv)) (md5sum msg)
     then service_set_id msg srv
     else raise (checksum_mismatch (_md5sum (mreq srv)) (md5sum msg))).

Definition setupServiceClientPublisher (data : list byte) : M unit :=
  except_log "Creation of service client failed: %s"
    (let* msg := lift (TopicInfo_deserialize data) in
     setPublishSize (Z.of_N (buffer_size msg)) ;;;
     let* srv := service_get_or_create ServiceClient_init
                   "Setup service client on %s [%s]" msg in
     if String.eqb (_md5sum (mreq srv)) (md5sum msg)
     then callback_put (Z.of_N (topic_id msg)) (H_Service_handlePacket (topic_name msg))
     else raise (checksum_mismatch (_md5sum (mreq srv)) (md5sum msg))).

Definition setupServiceClientSubscriber (data : list byte) : M unit :=
  except_log "Creation of service client failed: %s"
    (let* msg := lift (TopicInfo_deserialize data) in
     setSubscribeSize (Z.of_N (buffer_size msg)) ;;;
     let* srv := service_get_or_create ServiceClient_init
                   "Setup service client on %s [%s]" msg in
     if String.eqb (_md5sum (mres srv)) (md5sum msg)
     then service_set_id msg srv
     else raise (checksum_mismatch (_md5sum (mres srv)) (md5sum msg))).

(** *** The custom endpoints *)

Definition handleTimeRequest (data : list byte) : M unit :=
  let* t := Time_now in
  send ID_TIME (Time_serialize t) ;;;
  let* t' := Time_now in
  modify (set_lastsync t').

(** The value fetched, or [None] where [param_exists] stays false. *)
Definition fetch_param (name : string) : M (option ParamValue) :=
  try_except
    (let* param := lift (get_param name) in
     match param with
     | One PNone => ret None
     | _ => ret (Some param)
     end)
    (fun e => match e with
              | KeyError => Some (ret None)
              | _ => None
              end).

Definition empty_response : RequestParamResponse :=
  {| ints := []; floats := []; strings := [] |}.

Definition fill_response (t : PyType) (param : list Param) : RequestParamResponse :=
  {| ints := if bool_decide (t = T_int) || bool_decide (t = T_bool) then param else [];
     floats := if bool_decide (t = T_float) then param else [];
     strings := if bool_decide (t = T_str) then param else [] |}.

Definition handleParameterRequest (data : list byte) : M unit :=
  match RequestParamRequest_deserialize data with
  | Raise e => logerr "Handle Parameter Request failed: %s" [AExn e]
  | Ok name =>
      let* found := fetch_param name in
      let* resp :=
        match found with
        | Some (One PDict) =>
            logerr "Cannot send param %s because it is a dictionary" [AStr name] ;;;
            ret empty_response
        | Some value =>
            let param := match value with One p => [p] | Many l => l end in
            match param with
            | [] => raise IndexError
            | p0 :: _ =>
                let t := type_of p0 in
                if mixed_types t param
                then
                  logerr "All Parameters in the list %s must be of the same type"
                    [AStr name] ;;;
                  ret empty_response
                else
                  loginfo "Requesting param %s" [AStr name] ;;;
                  ret (fill_response t param)
            end
        | None =>
            logerr "Parameter %s does not exist" [AStr name] ;;;
            ret empty_response
        end in
      let* bytes := lift (RequestParamResponse_serialize resp) in
      send ID_PARAMETER_REQUEST bytes
  end.

Definition handleLoggingRequest (data : list byte) : M unit :=
  except_log "Handling Logging Request failed: %s"
    (let* msg := lift (Log_deserialize data) in
     let level := msg.1 in
     if level =? Log_ROSDEBUG then emit (Log DEBUG msg.2 [])
     else if level =? Log_INFO then emit (Log INFO msg.2 [])
     else if level =? Log_WARN then emit (Log WARN msg.2 [])
     else if level =? Log_ERROR then emit (Log ERROR msg.2 [])
     else if level =? Log_FATAL then emit (Log FATAL msg.2 [])
     else ret tt).

(** Calling what a [callbacks] entry holds. *)
Definition call_handler (h : Handler) (msg : list byte) : M unit :=
  match h with
  | H_setupPublisher => setupPublisher msg
  | H_setupSubscriber => setupSubscriber msg
  | H_setupServiceServerPublisher => setupServiceServerPublisher msg
  | H_setupServiceServerSubscriber => setupServiceServerSubscriber msg
  | H_setupServiceClientPublisher => setupServiceClientPublisher msg
  | H_setupServiceClientSubscriber => setupServiceClientSubscriber msg
  | H_handleParameterRequest => handleParameterRequest msg
  | H_handleLoggingRequest => handleLoggingRequest msg
  | H_handleTimeRequest => handleTimeRequest msg
  | H_Publisher_handlePacket pub => Publisher_handlePacket pub msg
  | H_Service_handlePacket name =>
      let* srvs := gets services in
      match srvs !! name with
      | Some srv =>
          match srv_kind srv with
          | IsServiceServer => ServiceServer_handlePacket name srv msg
          | IsServiceClient => ServiceClient_handlePacket srv msg
          end
      | None => ret tt
      end
  end.

(** *** The reader *)

(** [protocol_ver_msgs], the table of the mismatch report. *)
Definition protocol_ver_msgs : gmap (list byte) string :=
  <[ [xfd] := "Some future rosserial version" ]>
    (<[ protocol_ver2 := "Rev 1 (rosserial 0.5+)" ]>
       (<[ protocol_ver1 := "Rev 0 (rosserial 0.4 and earlier)" ]> ∅)).

(** [d[k]] *)
Definition getitem {K V : Type} `{Countable K} (d : gmap K V) (k : K) : M V :=
  match d !! k with
  | Some v => ret v
  | None => raise KeyError
  end.

Definition found_ver_msg (flag1 : list byte) : string :=
  match protocol_ver_msgs !! flag1 with
  | Some text => "Protocol version of client is " +:+ text
  | None => "Protocol version of client is unrecognized"
  end.

(** The report of a version byte that is not [protocol_ver]. *)
Definition report_mismatch (flag1 : list byte) : M unit :=
  sendDiagnostics ERROR ERROR_MISMATCHED_PROTOCOL ;;;
  logerr "Mismatched protocol version in packet (%s): lost sync or rosserial_python is from different ros release than the rosserial client"
    [ARepr flag1] ;;;
  let* expected := getitem protocol_ver_msgs protocol_ver in
  loginfo "%s, expected %s" [AStr (found_ver_msg flag1); AStr expected].

Inductive Ctl : Type :=
| Continue     (* on to the next turn of the loop *)
| Return.      (* [return] *)

(** What one turn of the loop meets outside the session: the writer
    thread, the shutdown flag, whether the read lock was got within its
    second, and how many more bytes have reached the input buffer. *)
Record Obs : Type := {
  writer_alive : bool;
  is_shutdown : bool;
  lock_acquired : bool;
  arrived : nat;
}.

Definition step (r : ReadStep) : M unit := modify (set_read_step (Some r)).

(** [self.callbacks[topic_id](msg)] with its [except KeyError]. *)
Definition dispatch (topic_id : Z) (msg : list byte) : M unit :=
  try_except
    (let* cbs := gets callbacks in
     let* h := getitem cbs topic_id in
     emit (Dispatched topic_id msg) ;;;
     call_handler h msg)
    (fun e =>
       match e with
       | KeyError =>
           Some (logerr "Tried to publish before configured, topic id %d" [AInt topic_id] ;;;
                 requestTopics)
       | _ => None
       end).

(** The body of the [try] of [run] from the sync flag to the checksum
    test: the frame read, or [None] where the source does [continue]
    or drops the frame. *)
Definition read_frame : M (option (Z * list byte)) :=
  step step_syncflag ;;;
  let* flag0 := tryRead 1 in
  if negb (bool_decide (flag0 = header)) then ret None else
  step step_protocol ;;;
  let* flag1 := tryRead 1 in
  if negb (bool_decide (flag1 = protocol_ver))
  then report_mismatch flag1 ;;; ret None
  else
  step step_message_length ;;;
  let* msg_len_bytes := tryRead 3 in
  let* lb := lift (struct.unpack_hB msg_len_bytes) in
  let msg_length := lb.1 in
  if negb (sum_bytes msg_len_bytes mod 256 =? 255)
  then
    loginfo "Wrong checksum for msg length, length %d, dropping message." [AInt msg_length] ;;;
    ret None
  else
  step step_topic_id ;;;
  let* topic_id_header := tryRead 2 in
  let* topic_id := lift (struct.unpack_H topic_id_header) in
  step step_data ;;;
  let* msg :=
    try_except (tryRead msg_length)
      (fun e =>
         match e with
         | IOError _ _ =>
             Some (sendDiagnostics ERROR ERROR_PACKET_FAILED ;;;
                   loginfo "Packet Failed :  Failed to read msg data" [] ;;;
                   loginfo "expected msg length is %d" [AInt msg_length] ;;;
                   loginfo "%s" [AExn e] ;;;
                   raise e)
         | _ => None
         end) in
  step step_data_checksum ;;;
  let* chk := tryRead 1 in
  let checksum := sum_bytes (topic_id_header ++ msg ++ chk) in
  if checksum mod 256 =? 255
  then ret (Some (topic_id, msg))
  else
    loginfo "wrong checksum for topic id and msg" [] ;;;
    ret None.

(** The rest of it: what is done with a frame whose checksum holds. *)
Definition read_message : M Ctl :=
  let* frame := read_frame in
  match frame with
  | Some (topic_id, msg) =>
      modify (set_synced true) ;;;
      let* t := Time_now in
      modify (set_lastsync_success t) ;;;
      dispatch topic_id msg ;;;
      ret Continue
  | None => ret Continue
  end.

(** The whole [try]: the lock and the emptiness test first. *)
Definition run_try (o : Obs) : M Ctl :=
  if lock_acquired o
  then
    let* n := port_inWaiting in
    if n <? 1 then ret Continue else read_message
  else ret Continue.

(** The test of the sync budget at the head of the loop body. *)
Definition check_sync : M Ctl :=
  let* now := Time_now in
  let* ls := gets (fun s => lastsync (times s)) in
  let* tmo := gets timeout in
  if now - ls >? tmo * 3
  then
    let* sy := gets synced in
    if sy : bool
    then
      logerr "Lost sync with device, restarting NOW..." [] ;;;
      ret Return
    else
      logerr "Unable to sync with device; possible link problem or link software version mismatch such as hydro rosserial_python with groovy Arduino" [] ;;;
      let* t := Time_now in
      modify (set_lastsync_lost t) ;;;
      sendDiagnostics ERROR ERROR_NO_SYNC ;;;
      requestTopics ;;;
      let* t' := Time_now in
      modify (set_lastsync t') ;;;
      ret Continue
  else ret Continue.

(** [except IOError as exc] of [run]. *)
Definition on_IOError (e : exn) : option (M Ctl) :=
  match e with
  | IOError _ _ =>
      Some (let* rs := gets read_step in
            emit (LogStep WARN "Last read step: %s" rs) ;;;
            logwarn "Run loop error: %s" [AExn e] ;;;
            ret Return)
  | _ => None
  end.

(** One turn of the [while] of [run], its condition having held. *)
Definition run_body (o : Obs) : M Ctl :=
  port_arrive (arrived o) ;;;
  let* c := check_sync in
  match c with
  | Return => ret Return
  | Continue => try_except (run_try o) on_IOError
  end.

(** The [while] of [run], one observation a turn.  The writer thread it
    starts first runs beside it and is [processWriteQueue]. *)
Fixpoint run (obs : list Obs) : M LoopStatus :=
  match obs with
  | [] => ret StillRunning
  | o :: rest =>
      if writer_alive o && negb (is_shutdown o)
      then
        let* c := run_body o in
        match c with
        | Return => ret Returned
        | Continue => run rest
        end
      else ret LoopEnded
  end.

(** *** Construction *)

Definition initial_callbacks : gmap Z Handler :=
  <[ ID_TIME := H_handleTimeRequest ]>
  (<[ ID_LOG := H_handleLoggingRequest ]>
  (<[ ID_PARAMETER_REQUEST := H_handleParameterRequest ]>
  (<[ ID_SERVICE_CLIENT + ID_SUBSCRIBER := H_setupServiceClientSubscriber ]>
  (<[ ID_SERVICE_CLIENT + ID_PUBLISHER := H_setupServiceClientPublisher ]>
  (<[ ID_SERVICE_SERVER + ID_SUBSCRIBER := H_setupServiceServerSubscriber ]>
  (<[ ID_SERVICE_SERVER + ID_PUBLISHER := H_setupServiceServerPublisher ]>
  (<[ ID_SUBSCRIBER := H_setupSubscriber ]>
  (<[ ID_PUBLISHER := H_setupPublisher ]> ∅)))))))).

(** The attributes [__init__] sets before it sends anything. *)
Definition fresh (p : Port) (tmo : Z) (fix_test : bool) (clk : nat -> Z) : SerialClient :=
  {| times := {| lastsync := 0; lastsync_lost := 0; lastsync_success := 0;
                 last_read := 0; last_write := 0 |};
     timeout := tmo;
     synced := false;
     fix_pyserial_for_test := fix_test;
     publishers := ∅; subscribers := ∅; services := ∅;
     buffer_out := -1; buffer_in := -1;
     callbacks := initial_callbacks;
     write_queue := [];
     port := p; clock := clk; ticks := O; trace := []; read_step := None |}.

(** [__init__] for a port that is already open.  With [shutdown] true
    the constructor returns before the session is set up: [None]. *)
Definition SerialClient_init (p : Port) (tmo : Z) (fix_test : bool)
    (clk : nat -> Z) (shutdown : bool) : option SerialClient :=
  if shutdown then None
  else Some ((requestTopics ;;;
              let* t := Time_now in
              modify (set_lastsync t)) (fresh p tmo fix_test clk)).2.

End Session.

(** * What the properties are stated with *)

(** The device's bytes still to be read, buffered or not. *)
Definition stream (s : SerialClient) : list byte :=
  buffered (port s) ++ inflight (port s).

(** The events a computation added to the log. *)
Definition new_events (s s' : SerialClient) : list Event :=
  drop (List.length (trace s)) (trace s').

(** The request-topics frame, as [requestTopics] spells it. *)
Definition request_topics_frame : list byte :=
  [xff; xfe; x00; x00; xff; x00; x00; xff].

(** The two checksum conditions of a frame, on the bytes as they are on
    the wire. *)
Definition length_checksum_ok (l_lo l_hi cl : byte) : Prop :=
  (byte_val l_lo + byte_val l_hi + byte_val cl) mod 256 = 255.

Definition payload_checksum_ok (t_lo t_hi : byte) (payload : list byte) (cp : byte) : Prop :=
  (byte_val t_lo + byte_val t_hi + sum_bytes payload + byte_val cp) mod 256 = 255.

(** [(topic_id, payload)] is carried by a frame of [input] whose two
    checksums hold. *)
Definition framed (topic_id : Z) (payload : list byte) (input : list byte) : Prop :=
  exists pre l_lo l_hi cl t_lo t_hi cp post,
    input = pre ++ [xff; xfe; l_lo; l_hi; cl; t_lo; t_hi] ++ payload ++ [cp] ++ post
    /\ length_checksum_ok l_lo l_hi cl
    /\ payload_checksum_ok t_lo t_hi payload cp
    /\ topic_id = byte_val t_lo + 256 * byte_val t_hi
    /\ len payload = struct.signed16 (byte_val l_lo + 256 * byte_val l_hi).

(** The port takes the next [write]. *)
Definition next_write_ok (p : Port) : bool :=
  match write_faults p with
  | Some _ :: _ => false
  | _ => true
  end.

(** [_send]'s test of the subscribe buffer lets [msg] through. *)
Definition fits_buffer (s : SerialClient) (msg : list byte) : bool :=
  negb ((0 <? buffer_in s) && (buffer_in s <? len msg)).

(** The sync budget is used up at the next reading of the clock. *)
Definition budget_exhausted (s : SerialClient) : Prop :=
  clock s (ticks s) - lastsync (times s) > timeout s * 3.

(** How the mismatch report words a version byte other than [0xFE]. *)
Definition version_text (v : byte) : string :=
  if bool_decide (v = xff)
  then "Protocol version of client is Rev 0 (rosserial 0.4 and earlier)"
  else if bool_decide (v = xfd)
  then "Protocol version of client is Some future rosserial version"
  else "Protocol version of client is unrecognized".

(** [stable R m]: whatever [m] returns or raises, the state it leaves is
    [R]-related to the one it started from. *)
Definition stable (R : relation SerialClient) {A : Type} (m : M A) : Prop :=
  forall s, R s (m s).2.

(** The flag [synced] is not reset. *)
Definition keeps_synced : relation SerialClient :=
  fun s s' => synced s = true -> synced s' = true.

(** A buffer size changes at most once, from a negative value to one
    that is not. *)
Definition write_once (old new : Z) : Prop :=
  new = old \/ (old < 0 /\ 0 <= new).

Definition buffers_write_once : relation SerialClient :=
  fun s s' => write_once (buffer_out s) (buffer_out s')
              /\ write_once (buffer_in s) (buffer_in s').

(** The input is only consumed from the front, the log only grows, and
    the handler calls logged on the way satisfy [P]. *)
Definition reads_on (P : Z -> list byte -> Prop) : relation SerialClient :=
  fun s s' =>
    (exists pre, stream s = pre ++ stream s')
    /\ exists evs, trace s' = trace s ++ evs
                  /\ forall id msg, In (Dispatched id msg) evs -> P id msg.

(** The operations on a session: the reader and the writer loops, the
    requests the session queues itself, what the middleware calls, and
    the handlers of the frames. *)
Inductive Op {ext : External} : Type :=
| op_run (obs : list Obs)
| op_processWriteQueue (shutdowns : list bool)
| op_requestTopics
| op_txStopRequest
| op_send (topic : Z) (msg : list byte)
| op_sendDiagnostics (level : Level) (text : string)
| op_handler (h : Handler) (msg : list byte)
| op_Subscriber_callback (sub : Subscriber) (data : list byte)
| op_ServiceServer_callback (name : string) (srv : Service) (data : list byte).

Definition exec {ext : External} (op : Op) : M unit :=
  match op with
  | op_run obs => run obs ;;; ret tt
  | op_processWriteQueue shutdowns => processWriteQueue shutdowns ;;; ret tt
  | op_requestTopics => requestTopics
  | op_txStopRequest => txStopRequest
  | op_send topic msg => send topic msg
  | op_sendDiagnostics level text => sendDiagnostics level text
  | op_handler h msg => call_handler h msg
  | op_Subscriber_callback sub data => Subscriber_callback sub data
  | op_ServiceServer_callback name srv data => ServiceServer_callback name srv data
  end.

(** Reading changes the input, [last_read], the clock's count and
    [read_step], and nothing of what follows. *)
Definition untouched : relation SerialClient :=
  fun s s' =>
    timeout s' = timeout s /\ trace s' = trace s /\ synced s' = synced s
    /\ write_queue s' = write_queue s
    /\ lastsync (times s') = lastsync (times s)
    /\ lastsync_lost (times s') = lastsync_lost (times s)
    /\ written (port s') = written (port s).

(** The frame of [(topic_id, payload)] in the words of the wire format:
    sync marker, version, length (little endian), its checksum, topic id
    (little endian), payload, and the checksum of topic id and payload;
    a checksum is [255 - (sum mod 256)]. *)
Definition spec_frame (topic_id : Z) (payload : list byte) : list byte :=
  let l_lo := byte_of_Z (len payload) in
  let l_hi := byte_of_Z (len payload / 256) in
  let t_lo := byte_of_Z topic_id in
  let t_hi := byte_of_Z (topic_id / 256) in
  [xff; xfe; l_lo; l_hi;
   byte_of_Z (255 - (byte_val l_lo + byte_val l_hi) mod 256);
   t_lo; t_hi]
  ++ payload
  ++ [byte_of_Z (255 - (byte_val t_lo + byte_val t_hi + sum_bytes payload) mod 256)].

(** A frame the wire format allows: both the topic id and the length are
    2-byte fields. *)
Definition valid_frame (topic_id : Z) (payload : list byte) : Prop :=
  0 <= topic_id < 65536 /\ len payload < 65536.

(** ** Sessions to try things on *)

(** A bridge with no message library, parameter or service behind it. *)
Definition no_ros : External :=
  {| load_message := fun _ _ => Raise (AttributeError "msg");
     load_service := fun _ _ => Raise (AttributeError "srv");
     deserialize := fun _ _ => None;
     TopicInfo_deserialize := fun _ => Raise (Exception "buffer underflow");
     Log_deserialize := fun _ => Raise (Exception "buffer underflow");
     RequestParamRequest_deserialize := fun _ => Raise (Exception "buffer underflow");
     RequestParamResponse_serialize := fun _ => Ok [];
     Time_serialize := fun _ => [];
     get_param := fun _ => Raise KeyError;
     call_service := fun _ _ => Raise (Exception "service unavailable");
     ID_PUBLISHER := 0; ID_SUBSCRIBER := 1;
     ID_SERVICE_SERVER := 2; ID_SERVICE_CLIENT := 4;
     ID_PARAMETER_REQUEST := 6; ID_LOG := 7; ID_TIME := 10;
     Log_ROSDEBUG := 0; Log_INFO := 1; Log_WARN := 2; Log_ERROR := 3;
     Log_FATAL := 4 |}.

(** A serial port with [rx] in its input buffer and no write fault. *)
Definition port_with (rx : list byte) : Port :=
  {| buffered := rx; inflight := []; written := []; write_faults := [];
     sent_before_fault := 0; inWaiting_faults := [];
     flushInput := flushInput_empties |}.

(** A session as [__init__] sets it up, before its first request: a
    timeout of 5 time units, a clock that reads 0, 1, 2, ... *)
Definition session_on (rx : list byte) : SerialClient :=
  @fresh no_ros (port_with rx) 5 false Z.of_nat.

(** One turn of the reader's loop with the writer alive, no shutdown, the
    read lock got and no new bytes. *)
Definition a_turn : Obs :=
  {| writer_alive := true; is_shutdown := false; lock_acquired := true;
     arrived := O |}.







(** A session on a connection that has broken: the next [inWaiting]
    raises [RuntimeError], as the socket servers' does. *)
Definition broken_session : SerialClient :=
  set_port (set_inWaiting_faults [Some RuntimeError] (port_with [])) (session_on []).

(** What [Subscriber(msg, parent)] builds where it does not raise: the
    message type resolves and its md5 sum is the one of [msg]. *)
Definition subscriber_for {ext : External} (msg : TopicInfo) : option Subscriber :=
  match unpack2 (split_slash (message_type msg)) with
  | Ok pm =>
      match load_message pm.1 pm.2 with
      | Ok message =>
          if String.eqb (_md5sum message) (md5sum msg)
          then Some {| sub_topic := topic_name msg;
                       sub_id := Z.of_N (topic_id msg);
                       sub_message := message |}
          else None
      | Raise _ => None
      end
  | Raise _ => None
  end.

(** A bridge whose message library knows every type under one md5 sum,
    and whose device announces the topic chatter: with the right md5 sum,
    or, in an empty payload, with a wrong one. *)
Definition chatter_info (data : list byte) : TopicInfo :=
  {| topic_id := 125;
     topic_name := "chatter";
     message_type := "std_msgs/String";
     md5sum := match data with
               | [] => "00000000000000000000000000000000"
               | _ => "992ce8a1687cec8c8bd883ec73ca41d1"
               end;
     buffer_size := 512 |}.

Definition chatter_ros : External :=
  {| load_message := fun package message =>
       Ok {| _md5sum := "992ce8a1687cec8c8bd883ec73ca41d1";
             _type := package +:+ "/" +:+ message |};
     load_service := fun _ _ => Raise (AttributeError "srv");
     deserialize := fun _ _ => None;
     TopicInfo_deserialize := fun data => Ok (chatter_info data);
     Log_deserialize := fun _ => Raise (Exception "buffer underflow");
     RequestParamRequest_deserialize := fun _ => Raise (Exception "buffer underflow");
     RequestParamResponse_serialize := fun _ => Ok [];
     Time_serialize := fun _ => [];
     get_param := fun _ => Raise KeyError;
     call_service := fun _ _ => Raise (Exception "service unavailable");
     ID_PUBLISHER := 0; ID_SUBSCRIBER := 1;
     ID_SERVICE_SERVER := 2; ID_SERVICE_CLIENT := 4;
     ID_PARAMETER_REQUEST := 6; ID_LOG := 7; ID_TIME := 10;
     Log_ROSDEBUG := 0; Log_INFO := 1; Log_WARN := 2; Log_ERROR := 3;
     Log_FATAL := 4 |}.

Definition chatter_session : SerialClient :=
  @fresh chatter_ros (port_with []) 5 false Z.of_nat.

(** The flag [synced] is as it was. *)
Definition synced_unchanged : relation SerialClient :=
  fun s s' => synced s' = synced s.

(** A sequence of operations on the session, one after the other, an
    exception ending the operation that raised it and not the session. *)
Fixpoint exec_all {ext : External} (ops : list Op) : M unit :=
  match ops with
  | [] => ret tt
  | op :: rest => fun s => exec_all rest (exec op s).2
  end.


(** What the writer puts on the wire for a queue item. *)
Definition wire_of (item : QueueItem) : list (list byte) :=
  match item with
  | QTuple topic msg => [spec_frame topic msg]
  | QBytes data => [data]
  | QOther _ => []
  end.

(** An item [_send] can encode in the session [s]. *)
Definition sendable (s : SerialClient) (item : QueueItem) : Prop :=
  match item with
  | QTuple topic msg =>
      0 <= topic <= 32767 /\ len msg <= 32767 /\ fits_buffer s msg = true
  | _ => True
  end.

(** The stop-tx frame, as [txStopRequest] spells it. *)
Definition tx_stop_frame : list byte :=
  [xff; xfe; x00; x00; xff; x0b; x00; xf4].

(** Whether the port has a [flushInput] that empties its buffer. *)
Definition flush_empties (p : Port) : bool :=
  match flushInput p with
  | flushInput_empties => true
  | _ => false
  end.

(** What the input buffer holds after [requestTopics] and
    [txStopRequest]: nothing where the port is flushed and its
    [flushInput] empties it, and all it held otherwise. *)
Definition after_flush (s : SerialClient) : list byte :=
  if negb (fix_pyserial_for_test s) && flush_empties (port s)
  then []
  else buffered (port s).

(** The reader's test of the payload checksum, on the bytes of a frame. *)
Definition payload_checksum_holds (t_lo t_hi : byte) (payload : list byte) (cp : byte) : bool :=
  (byte_val t_lo + byte_val t_hi + sum_bytes payload + byte_val cp) mod 256 =? 255.

(** What a turn of the reader leaves of the session besides the input,
    the log, the clock's count and the times of the reads. *)
Definition session_kept : relation SerialClient :=
  fun s s' =>
    timeout s' = timeout s /\ synced s' = synced s
    /\ write_queue s' = write_queue s
    /\ callbacks s' = callbacks s
    /\ fix_pyserial_for_test s' = fix_pyserial_for_test s
    /\ flushInput (port s') = flushInput (port s)
    /\ written (port s') = written (port s).

(** What [Publisher(msg)] builds where it does not raise: the message
    type resolves and its md5 sum is the one of [msg]. *)
Definition publisher_for {ext : External} (msg : TopicInfo) : option Publisher :=
  match unpack2 (split_slash (message_type msg)) with
  | Ok pm =>
      match load_message pm.1 pm.2 with
      | Ok message =>
          if String.eqb (_md5sum message) (md5sum msg)
          then Some {| pub_topic := topic_name msg; pub_message := message |}
          else None
      | Raise _ => None
      end
  | Raise _ => None
  end.

(** What an install that reports the buffer size of [msg] does to the
    publish-buffer size: it takes the size where none was fixed, and
    leaves the subscribe-buffer size. *)
Definition fixes_publish_size (msg : TopicInfo) (s s' : SerialClient) : Prop :=
  buffer_out s' = (if buffer_out s <? 0 then Z.of_N (buffer_size msg) else buffer_out s)
  /\ buffer_in s' = buffer_in s.

(** The same of the subscribe-buffer size. *)
Definition fixes_subscribe_size (msg : TopicInfo) (s s' : SerialClient) : Prop :=
  buffer_in s' = (if buffer_in s <? 0 then Z.of_N (buffer_size msg) else buffer_in s)
  /\ buffer_out s' = buffer_out s.

(** Both buffer sizes are the same in [s'] as in [s]. *)
Definition buffer_sizes_kept (s s' : SerialClient) : Prop :=
  buffer_out s' = buffer_out s /\ buffer_in s' = buffer_in s.

(** The note [setPublishSize] logs where it sets the size. *)
Definition publish_size_note (s : SerialClient) (size : Z) : list Event :=
  if buffer_out s <? 0
  then [Log INFO "Note: publish buffer size is %d bytes" [AInt size]]
  else [].

(** The note [setSubscribeSize] logs where it sets the size. *)
Definition subscribe_size_note (s : SerialClient) (size : Z) : list Event :=
  if buffer_in s <? 0
  then [Log INFO "Note: subscribe buffer size is %d bytes" [AInt size]]
  else [].

(** The service server object [ServiceServer(msg, parent)] builds from
    the classes [rr] of the service type, with the id the subscriber
    half gives it. *)
Definition service_server (name : string) (rr : MessageClass * MessageClass)
    (id : option Z) : Service :=
  {| srv_kind := IsServiceServer; srv_topic := name;
     mreq := rr.1; mres := rr.2; srv_id := id; srv_response := None |}.

(** A bridge that knows the service type of one service, and a device
    that announces the two halves of a server of it: the half that
    publishes the responses in a payload that starts with 0, the half
    that subscribes to the requests in any other. *)
Definition add_two_ints_info (data : list byte) : TopicInfo :=
  match data with
  | x00 :: _ =>
      {| topic_id := 101; topic_name := "add_two_ints";
         message_type := "rospy_tutorials/AddTwoInts";
         md5sum := "6a2e34150c00229791cc89ff309fff21";
         buffer_size := 280 |}
  | _ =>
      {| topic_id := 100; topic_name := "add_two_ints";
         message_type := "rospy_tutorials/AddTwoInts";
         md5sum := "36d09b846be0b371c5f190354dd3153e";
         buffer_size := 512 |}
  end.

Definition add_two_ints_ros : External :=
  {| load_message := fun _ _ => Raise (AttributeError "msg");
     load_service := fun package service =>
       Ok ({| _md5sum := "36d09b846be0b371c5f190354dd3153e";
              _type := package +:+ "/" +:+ service +:+ "Request" |},
           {| _md5sum := "6a2e34150c00229791cc89ff309fff21";
              _type := package +:+ "/" +:+ service +:+ "Response" |});
     deserialize := fun _ _ => None;
     TopicInfo_deserialize := fun data => Ok (add_two_ints_info data);
     Log_deserialize := fun _ => Raise (Exception "buffer underflow");
     RequestParamRequest_deserialize := fun _ => Raise (Exception "buffer underflow");
     RequestParamResponse_serialize := fun _ => Ok [];
     Time_serialize := fun _ => [];
     get_param := fun _ => Raise KeyError;
     call_service := fun _ _ => Raise (Exception "service unavailable");
     ID_PUBLISHER := 0; ID_SUBSCRIBER := 1;
     ID_SERVICE_SERVER := 2; ID_SERVICE_CLIENT := 4;
     ID_PARAMETER_REQUEST := 6; ID_LOG := 7; ID_TIME := 10;
     Log_ROSDEBUG := 0; Log_INFO := 1; Log_WARN := 2; Log_ERROR := 3;
     Log_FATAL := 4 |}.

Definition add_two_ints_session : SerialClient :=
  @fresh add_two_ints_ros (port_with []) 5 false Z.of_nat.

(** The clock is the same and has been read no fewer times. *)
Definition clock_runs : relation SerialClient :=
  fun s s' => clock s' = clock s /\ (ticks s <= ticks s')%nat.

(** The session after the reader has taken a frame for good: [synced]
    set and [lastsync_success] read off the clock. *)
Definition after_sync (s : SerialClient) : SerialClient :=
  set_lastsync_success (clock s (ticks s)) (set_ticks (S (ticks s)) (set_synced true s)).

(** The times of the last sync and of the last frame taken are as they
    were, and a session that was synced still is. *)
Definition lastsync_kept : relation SerialClient :=
  fun s s' =>
    lastsync (times s') = lastsync (times s)
    /\ lastsync_success (times s') = lastsync_success (times s)
    /\ (synced s = true -> synced s' = true).

(** A bridge with three parameters behind it, the request naming one in
    its first byte: an empty list, a list of one integer, and a
    dictionary. *)
Definition param_ros : External :=
  {| load_message := fun _ _ => Raise (AttributeError "msg");
     load_service := fun _ _ => Raise (AttributeError "srv");
     deserialize := fun _ _ => None;
     TopicInfo_deserialize := fun _ => Raise (Exception "buffer underflow");
     Log_deserialize := fun _ => Raise (Exception "buffer underflow");
     RequestParamRequest_deserialize := fun data =>
       match data with
       | x00 :: _ => Ok "empty"
       | x01 :: _ => Ok "gains"
       | _ => Ok "limits"
       end;
     RequestParamResponse_serialize := fun _ => Ok [];
     Time_serialize := fun _ => [];
     get_param := fun name =>
       if String.eqb name "empty" then Ok (Many [])
       else if String.eqb name "gains" then Ok (Many [PInt 3])
       else Ok (One PDict);
     call_service := fun _ _ => Raise (Exception "service unavailable");
     ID_PUBLISHER := 0; ID_SUBSCRIBER := 1;
     ID_SERVICE_SERVER := 2; ID_SERVICE_CLIENT := 4;
     ID_PARAMETER_REQUEST := 6; ID_LOG := 7; ID_TIME := 10;
     Log_ROSDEBUG := 0; Log_INFO := 1; Log_WARN := 2; Log_ERROR := 3;
     Log_FATAL := 4 |}.

Definition param_session (rx : list byte) : SerialClient :=
  @fresh param_ros (port_with rx) 5 false Z.of_nat.

(** * The socket servers

    [RosSerialServer] and [RosSerialUDPServer] stand in for the serial
    port: the session calls their [read], [write], [inWaiting] and
    [flushInput]. *)

Module sockets.

(** [(host, port)] *)
Definition Address : Type := string * Z.

(** The exceptions met in the two classes; [timeout] is [socket.timeout]. *)
Inductive sock_exn : Type :=
| RuntimeError (text : string)
| BrokenPipeError
| BlockingIOError
| timeout
| TypeError (text : string)
| OSError (text : string).

(** How a call ends.  [Running] is a loop that has not ended within the
    turns it was given. *)
Inductive outcome (A : Type) : Type :=
| Returns (a : A)
| Raises (e : sock_exn)
| Running.

Arguments Returns {A} a.
Arguments Raises {A} e.
Arguments Running {A}.

Section Monad.

Context {S : Type}.

Definition M (A : Type) : Type := S -> outcome A * S.

Definition ret {A : Type} (a : A) : M A := fun s => (Returns a, s).

Definition bind {A B : Type} (m : M A) (k : A -> M B) : M B :=
  fun s =>
    match m s with
    | (Returns a, s') => k a s'
    | (Raises e, s') => (Raises e, s')
    | (Running, s') => (Running, s')
    end.

Definition raise {A : Type} (e : sock_exn) : M A := fun s => (Raises e, s).

Definition running {A : Type} : M A := fun s => (Running, s).

Definition gets {A : Type} (f : S -> A) : M A := fun s => (Returns (f s), s).

Definition modify (f : S -> S) : M unit := fun s => (Returns tt, f s).

(** [try: m  except <those e with h e = Some k>: k] *)
Definition try_except {A : Type} (m : M A) (h : sock_exn -> option (M A)) : M A :=
  fun s =>
    match m s with
    | (Raises e, s') =>
        match h e with
        | Some k => k s'
        | None => (Raises e, s')
        end
    | r => r
    end.

End Monad.

Arguments M S A : clear implicits.

(** [l[:k]] and [l[k:]], a negative [k] counting from the end. *)
Definition slice_to {A : Type} (k : Z) (l : list A) : list A :=
  if k <? 0 then take (List.length l - Z.to_nat (- k)) l else take (Z.to_nat k) l.

Definition slice_from {A : Type} (k : Z) (l : list A) : list A :=
  if k <? 0 then drop (List.length l - Z.to_nat (- k)) l else drop (Z.to_nat k) l.

(** [b is None] *)
Definition is_None {A : Type} (o : option A) : bool :=
  match o with None => true | Some _ => false end.

(** [b == b''] *)
Definition is_empty {A : Type} (l : list A) : bool :=
  match l with [] => true | _ => false end.

End sockets.

Declare Scope sock_scope.
Delimit Scope sock_scope with sock.
Notation "'let+' x ':=' m 'in' k" := (sockets.bind m (fun x => k))
  (at level 10, x name, m at level 200, k at level 200, only parsing) : sock_scope.
Notation "m >>> k" := (sockets.bind m (fun _ => k))
  (at level 100, k at level 200, right associativity, only parsing) : sock_scope.

(** ** RosSerialServer, over a TCP connection *)

Module RosSerialServer.

Import sockets.
Local Open Scope sock_scope.

(** What the next [send] does: it takes some of the bytes, or raises.
    A blocking [send] of a non-empty string takes one byte at least:
    [Takes k] takes up to [k + 1]. *)
Inductive SendStep : Type :=
| Takes (k : nat)
| Fails (e : sock_exn).

(** The server and its connected socket.  [incoming] holds the bytes the
    peer has sent, cut where one [recv] ends at the latest; an empty
    piece is the end of the stream, the peer having closed.  [sent]
    lists what the [send] calls took, oldest first; [send_script] says
    what the next [send] calls do, and a [send] beyond the script takes
    all it is given. *)
Record Server : Type := {
  isConnected : bool;
  msg : list byte;
  incoming : list (list byte);
  sent : list (list byte);
  send_script : list SendStep;
}.

Definition set_msg (m : list byte) (s : Server) : Server :=
  {| isConnected := isConnected s; msg := m; incoming := incoming s;
     sent := sent s; send_script := send_script s |}.

Definition set_incoming (i : list (list byte)) (s : Server) : Server :=
  {| isConnected := isConnected s; msg := msg s; incoming := i;
     sent := sent s; send_script := send_script s |}.

Definition set_sent (w : list (list byte)) (s : Server) : Server :=
  {| isConnected := isConnected s; msg := msg s; incoming := incoming s;
     sent := w; send_script := send_script s |}.

Definition set_send_script (sc : list SendStep) (s : Server) : Server :=
  {| isConnected := isConnected s; msg := msg s; incoming := incoming s;
     sent := sent s; send_script := sc |}.

(** [socket.recv(bufsize)], and with [peek] and [dontwait]
    [socket.recv(bufsize, MSG_DONTWAIT|MSG_PEEK)]. *)
Definition recv (bufsize : nat) (peek dontwait : bool) : M Server (list byte) :=
  fun s =>
    match incoming s with
    | [] => (Raises (if dontwait then BlockingIOError else timeout), s)
    | [] :: _ => (Returns [], s)
    | piece :: rest =>
        (Returns (take bufsize piece),
         if peek then s
         else set_incoming (if is_empty (drop bufsize piece) then rest
                            else drop bufsize piece :: rest) s)
    end.

(** [socket.send(data)], the number of bytes taken. *)
Definition send (data : list byte) : M Server nat :=
  fun s =>
    match send_script s with
    | Fails e :: sc => (Raises e, set_send_script sc s)
    | Takes k :: sc =>
        (Returns (List.length (take (S k) data)),
         set_sent (sent s ++ [take (S k) data]) (set_send_script sc s))
    | [] => (Returns (List.length data), set_sent (sent s ++ [data]) s)
    end.

Definition flushInput : M Server unit := ret tt.

(** The [while] of [write]. *)
Fixpoint write_loop (fuel : nat) (data : list byte) (totalsent : nat) : M Server unit :=
  if (totalsent <? List.length data)%nat
  then
    match fuel with
    | O => running
    | S fuel =>
        let+ n :=
          try_except (send (drop totalsent data))
            (fun e =>
               match e with
               | BrokenPipeError =>
                   Some (raise (RuntimeError
                                  "RosSerialServer.write() socket connection broken"))
               | _ => None
               end) in
        write_loop fuel data (totalsent + n)
    end
  else ret tt.

(** One turn of the loop for every byte is enough turns. *)
Definition write (data : list byte) : M Server unit :=
  let+ connected := gets isConnected in
  if negb connected then ret tt
  else write_loop (List.length data) data 0.

(** The [while] of [read]. *)
Fixpoint read_loop (fuel : nat) (rqsted_length : Z) : M Server unit :=
  let+ m := gets msg in
  if len m <? rqsted_length
  then
    match fuel with
    | O => running
    | S fuel =>
        let+ chunk := recv (Z.to_nat (rqsted_length - len m)) false false in
        if is_empty chunk
        then raise (RuntimeError "RosSerialServer.read() socket connection broken")
        else
          modify (fun s => set_msg (msg s ++ chunk) s) >>>
          read_loop fuel rqsted_length
    end
  else ret tt.

(** One turn of the loop for every byte asked for is enough turns. *)
Definition read (rqsted_length : Z) : M Server (list byte) :=
  modify (set_msg []) >>>
  let+ connected := gets isConnected in
  if negb connected then gets msg
  else
    read_loop (Z.to_nat rqsted_length) rqsted_length >>>
    gets msg.

Definition inWaiting : M Server Z :=
  try_except
    (let+ chunk := recv 1 true true in
     if is_empty chunk
     then raise (RuntimeError "RosSerialServer.inWaiting() socket connection broken")
     else ret (len chunk))
    (fun e =>
       match e with
       | BlockingIOError => Some (ret 0)
       | _ => None
       end).

(** The bytes [read] has to come: those sent before the peer closed. *)
Fixpoint pending (pieces : list (list byte)) : list byte :=
  match pieces with
  | [] => []
  | [] :: _ => []
  | piece :: rest => piece ++ pending rest
  end.

(** Whether the peer has closed after the bytes to come. *)
Fixpoint closing (pieces : list (list byte)) : bool :=
  match pieces with
  | [] => false
  | [] :: _ => true
  | _ :: rest => closing rest
  end.

End RosSerialServer.

(** ** RosSerialUDPServer *)

Module RosSerialUDPServer.

Import sockets.
Local Open Scope sock_scope.

Definition MAX_UDP_PACKET_SIZE : nat := 508.

Inductive LogEvent : Type :=
| Updating (old new : Address)
    (* logwarn "Updating client address from {old} to {new}" *)
| Ignoring (address : Address).
    (* loginfo "Ignoring packet from unauthorized address {address}" *)

(** The server and its socket.  [incoming] are the datagrams waiting at
    the socket with their senders, oldest first; [sent] lists the
    [sendto] calls; [send_faults] says which of the next [sendto] calls
    raise, a call beyond it succeeding. *)
Record Server : Type := {
  isConnected : bool;
  client_address : option Address;
  recv_buffer : list byte;
  msg : list byte;
  incoming : list (list byte * Address);
  sent : list (list byte * Address);
  send_faults : list (option sock_exn);
  log : list LogEvent;
}.

Definition set_client_address (a : option Address) (s : Server) : Server :=
  {| isConnected := isConnected s; client_address := a;
     recv_buffer := recv_buffer s; msg := msg s; incoming := incoming s;
     sent := sent s; send_faults := send_faults s; log := log s |}.

Definition set_recv_buffer (b : list byte) (s : Server) : Server :=
  {| isConnected := isConnected s; client_address := client_address s;
     recv_buffer := b; msg := msg s; incoming := incoming s;
     sent := sent s; send_faults := send_faults s; log := log s |}.

Definition set_msg (m : list byte) (s : Server) : Server :=
  {| isConnected := isConnected s; client_address := client_address s;
     recv_buffer := recv_buffer s; msg := m; incoming := incoming s;
     sent := sent s; send_faults := send_faults s; log := log s |}.

Definition set_incoming (i : list (list byte * Address)) (s : Server) : Server :=
  {| isConnected := isConnected s; client_address := client_address s;
     recv_buffer := recv_buffer s; msg := msg s; incoming := i;
     sent := sent s; send_faults := send_faults s; log := log s |}.

Definition set_sent (w : list (list byte * Address)) (s : Server) : Server :=
  {| isConnected := isConnected s; client_address := client_address s;
     recv_buffer := recv_buffer s; msg := msg s; incoming := incoming s;
     sent := w; send_faults := send_faults s; log := log s |}.

Definition set_send_faults (fs : list (option sock_exn)) (s : Server) : Server :=
  {| isConnected := isConnected s; client_address := client_address s;
     recv_buffer := recv_buffer s; msg := msg s; incoming := incoming s;
     sent := sent s; send_faults := fs; log := log s |}.

Definition set_log (l : list LogEvent) (s : Server) : Server :=
  {| isConnected := isConnected s; client_address := client_address s;
     recv_buffer := recv_buffer s; msg := msg s; incoming := incoming s;
     sent := sent s; send_faults := send_faults s; log := l |}.

Definition emit (e : LogEvent) : M Server unit :=
  modify (fun s => set_log (log s ++ [e]) s).

(** [serversocket.recvfrom(bufsize)], and with [dontwait]
    [serversocket.recvfrom(bufsize, MSG_DONTWAIT)]: the next datagram,
    cut to [bufsize] bytes, the rest of it being lost.  The socket has a
    timeout, which a blocking call with no datagram waiting runs into. *)
Definition recvfrom (bufsize : nat) (dontwait : bool) : M Server (list byte * Address) :=
  fun s =>
    match incoming s with
    | [] => (Raises (if dontwait then BlockingIOError else timeout), s)
    | (chunk, address) :: rest => (Returns (take bufsize chunk, address), set_incoming rest s)
    end.

(** [serversocket.sendto(chunk, address)] *)
Definition sendto (chunk : list byte) (address : option Address) : M Server unit :=
  match address with
  | None => raise (TypeError "sendto(): address must be a tuple")
  | Some a =>
      fun s =>
        match send_faults s with
        | Some e :: fs => (Raises e, set_send_faults fs s)
        | None :: fs =>
            (Returns tt, set_sent (sent s ++ [(chunk, a)]) (set_send_faults fs s))
        | [] => (Returns tt, set_sent (sent s ++ [(chunk, a)]) s)
        end
  end.

Definition flushInput : M Server unit := modify (set_recv_buffer []).

(** The [while] of [write]. *)
Fixpoint write_loop (fuel : nat) (data : list byte) (offset : nat) : M Server unit :=
  if (offset <? List.length data)%nat
  then
    match fuel with
    | O => running
    | S fuel =>
        let chunk_size := Nat.min MAX_UDP_PACKET_SIZE (List.length data - offset) in
        let chunk := take chunk_size (drop offset data) in
        let+ address := gets client_address in
        try_except (sendto chunk address)
          (fun e =>
             match e with
             | BrokenPipeError =>
                 Some (raise (RuntimeError
                                "RosSerialServerUDP.write() socket connection broken"))
             | _ => None
             end) >>>
        write_loop fuel data (offset + chunk_size)
    end
  else ret tt.

(** One turn of the loop for every byte is enough turns. *)
Definition write (data : list byte) : M Server unit :=
  let+ connected := gets isConnected in
  let+ address := gets client_address in
  if negb connected || is_None address then ret tt
  else write_loop (List.length data) data 0.

(** The test of the sender of a datagram, in [read] and in [inWaiting]:
    whether the datagram is from the client, a sender on the client's
    host at another port becoming the client. *)
Definition check_address (address : Address) : M Server bool :=
  let+ client := gets client_address in
  if negb (bool_decide (Some address = client))
  then
    match client with
    | None => raise (TypeError "'NoneType' object is not subscriptable")
    | Some c =>
        if bool_decide (address.1 = c.1)
        then
          emit (Updating c address) >>>
          modify (set_client_address (Some address)) >>>
          ret true
        else
          emit (Ignoring address) >>>
          ret false
    end
  else ret true.

(** The [while] of [read]. *)
Fixpoint read_loop (fuel : nat) (rqsted_length : Z) : M Server unit :=
  let+ m := gets msg in
  if len m <? rqsted_length
  then
    match fuel with
    | O => running
    | S fuel =>
        let+ ca := recvfrom 4096 false in
        if is_empty ca.1
        then raise (RuntimeError "RosSerialServer.read() socket connection broken")
        else
          let+ from_client := check_address ca.2 in
          if from_client : bool
          then
            let+ m := gets msg in
            let to_add := rqsted_length - len m in
            modify (set_msg (m ++ slice_to to_add ca.1)) >>>
            (if len ca.1 >? to_add
             then modify (fun s => set_recv_buffer (recv_buffer s ++ slice_from to_add ca.1) s)
             else ret tt) >>>
            read_loop fuel rqsted_length
          else read_loop fuel rqsted_length
    end
  else ret tt.

(** A turn of the loop takes a datagram or raises: one turn more than
    there are datagrams is enough turns. *)
Definition read (rqsted_length : Z) : M Server (list byte) :=
  modify (set_msg []) >>>
  let+ connected := gets isConnected in
  let+ address := gets client_address in
  if negb connected || is_None address then gets msg
  else
    let+ buffer := gets recv_buffer in
    (if negb (is_empty buffer)
     then
       let to_read := Z.min (len buffer) rqsted_length in
       modify (fun s => set_msg (msg s ++ slice_to to_read (recv_buffer s)) s) >>>
       modify (fun s => set_recv_buffer (slice_from to_read (recv_buffer s)) s)
     else ret tt) >>>
    let+ waiting := gets (fun s => List.length (incoming s)) in
    read_loop (S waiting) rqsted_length >>>
    gets msg.

Definition inWaiting : M Server Z :=
  try_except
    (let+ ca := recvfrom 4096 true in
     if is_empty ca.1
     then raise (RuntimeError "RosSerialServerUDP.inWaiting() socket connection broken")
     else
       check_address ca.2 >>>
       modify (fun s => set_recv_buffer (recv_buffer s ++ ca.1) s))
    (fun e =>
       match e with
       | BlockingIOError => Some (ret tt)
       | _ => None
       end) >>>
  gets (fun s => len (recv_buffer s)).

(** The bytes [read] has to come: those of the datagrams waiting that
    are from the host [host], each cut to the 4096 bytes [recvfrom] is
    given room for. *)
Fixpoint pending (host : string) (waiting : list (list byte * Address)) : list byte :=
  match waiting with
  | [] => []
  | (chunk, address) :: rest =>
      if bool_decide (address.1 = host)
      then take 4096 chunk ++ pending host rest
      else pending host rest
  end.

(** What [read] and [inWaiting] leave of the server besides the input,
    the message being put together, the log and the client's port. *)
Definition server_kept (s s' : Server) : Prop :=
  isConnected s' = isConnected s
  /\ option_map fst (client_address s') = option_map fst (client_address s)
  /\ sent s' = sent s /\ send_faults s' = send_faults s.

End RosSerialUDPServer.

(** ** Servers to try things on *)

(** A UDP server whose client is at 10.0.0.7, port 5000. *)
Definition udp_server (buffer : list byte)
    (waiting : list (list byte * sockets.Address)) : RosSerialUDPServer.Server :=
  {| RosSerialUDPServer.isConnected := true;
     RosSerialUDPServer.client_address := Some ("10.0.0.7", 5000);
     RosSerialUDPServer.recv_buffer := buffer;
     RosSerialUDPServer.msg := [];
     RosSerialUDPServer.incoming := waiting;
     RosSerialUDPServer.sent := [];
     RosSerialUDPServer.send_faults := [];
     RosSerialUDPServer.log := [] |}.

(** A connected TCP server. *)
Definition tcp_server (pieces : list (list byte))
    (script : list RosSerialServer.SendStep) : RosSerialServer.Server :=
  {| RosSerialServer.isConnected := true;
     RosSerialServer.msg := [];
     RosSerialServer.incoming := pieces;
     RosSerialServer.sent := [];
     RosSerialServer.send_script := script |}.

(** * Reasoning *)

(** ** Bytes and checksums *)

Lemma byte_val_range (b : byte) : 0 <= byte_val b < 256.
Proof.
  unfold byte_val. pose proof (Byte.to_N_bounded b). lia.
Qed.

Lemma byte_val_of_Z (z : Z) : byte_val (byte_of_Z z) = z mod 256.
Proof.
  unfold byte_val, byte_of_Z.
  assert (Hr : 0 <= z mod 256 < 256) by (apply Z.mod_pos_bound; lia).
  destruct (Byte.of_N (Z.to_N (z mod 256))) as [b|] eqn:E.
  - apply Byte.to_of_N in E. rewrite E. lia.
  - apply Byte.of_N_None_iff in E. lia.
Qed.

Lemma byte_of_Z_val (b : byte) : byte_of_Z (byte_val b) = b.
Proof.
  unfold byte_of_Z. pose proof (byte_val_range b) as Hr.
  rewrite Z.mod_small by lia. unfold byte_val.
  rewrite N2Z.id, Byte.of_to_N. reflexivity.
Qed.

Lemma sum_bytes_app (a b : list byte) :
  sum_bytes (a ++ b) = sum_bytes a + sum_bytes b.
Proof.
  induction a as [|x a IH]; simpl; [reflexivity|]. rewrite IH. lia.
Qed.

(** The checksum byte [255 - (sum mod 256)] completes any sum to 255
    modulo 256. *)
Lemma checksum_completes (sum : Z) :
  (sum + (255 - sum mod 256) mod 256) mod 256 = 255.
Proof.
  assert (Hr : 0 <= sum mod 256 < 256) by (apply Z.mod_pos_bound; lia).
  rewrite (Z.mod_small (255 - sum mod 256)) by lia.
  rewrite (Z.div_mod sum 256) at 1 by lia.
  replace (256 * (sum / 256) + sum mod 256 + (255 - sum mod 256))
    with (255 + (sum / 256) * 256) by lia.
  rewrite Z.mod_add by lia. reflexivity.
Qed.

Lemma pack_h_ok (n : Z) :
  0 <= n <= 32767 ->
  struct.pack_h n = Ok [byte_of_Z n; byte_of_Z (n / 256)].
Proof.
  intros Hn. unfold struct.pack_h.
  replace (-32768 <=? n) with true by (symmetry; apply Z.leb_le; lia).
  replace (n <=? 32767) with true by (symmetry; apply Z.leb_le; lia).
  reflexivity.
Qed.

Lemma pack_B_checksum (sum : Z) :
  struct.pack_B (255 - sum mod 256) = Ok [byte_of_Z (255 - sum mod 256)].
Proof.
  assert (Hr : 0 <= sum mod 256 < 256) by (apply Z.mod_pos_bound; lia).
  unfold struct.pack_B.
  replace (0 <=? 255 - sum mod 256) with true by (symmetry; apply Z.leb_le; lia).
  replace (255 - sum mod 256 <=? 255) with true by (symmetry; apply Z.leb_le; lia).
  reflexivity.
Qed.

(** The two bytes [pack_h] writes for [n] read back as [n], signed or
    not. *)
Lemma le16_value (n : Z) :
  0 <= n <= 32767 ->
  byte_val (byte_of_Z n) + 256 * byte_val (byte_of_Z (n / 256)) = n.
Proof.
  intros Hn. rewrite !byte_val_of_Z.
  rewrite (Z.mod_small (n / 256)).
  - rewrite (Z.div_mod n 256) at 3 by lia. lia.
  - split; [apply Z.div_pos; lia|].
    apply Z.div_lt_upper_bound; lia.
Qed.

Lemma signed16_small (n : Z) : 0 <= n <= 32767 -> struct.signed16 n = n.
Proof.
  intros Hn. unfold struct.signed16.
  replace (n <? 32768) with true by (symmetry; apply Z.ltb_lt; lia).
  reflexivity.
Qed.
Section Stable.

Context (R : relation SerialClient) `{!PreOrder R}.

Lemma stable_ret {A : Type} (a : A) : stable R (ret a).
Proof. intros s. reflexivity. Qed.

Lemma stable_raise {A : Type} (e : exn) : stable R (@raise A e).
Proof. intros s. reflexivity. Qed.

Lemma stable_gets {A : Type} (f : SerialClient -> A) : stable R (gets f).
Proof. intros s. reflexivity. Qed.

Lemma stable_lift {A : Type} (r : res A) : stable R (lift r).
Proof. intros s. reflexivity. Qed.

Lemma stable_modify (f : SerialClient -> SerialClient) :
  (forall s, R s (f s)) -> stable R (modify f).
Proof. intros Hf s. apply Hf. Qed.

Lemma stable_bind {A B : Type} (m : M A) (k : A -> M B) :
  stable R m -> (forall a, stable R (k a)) -> stable R (bind m k).
Proof.
  intros Hm Hk s. unfold bind. specialize (Hm s).
  destruct (m s) as [[a|e] s1]; simpl in *; [|assumption].
  etransitivity; [exact Hm | apply Hk].
Qed.

Lemma stable_try {A : Type} (m : M A) (h : exn -> option (M A)) :
  stable R m ->
  (forall e, match h e with Some k => stable R k | None => True end) ->
  stable R (try_except m h).
Proof.
  intros Hm Hh s. unfold try_except. specialize (Hm s).
  destruct (m s) as [[a|e] s1]; simpl in *; [assumption|].
  specialize (Hh e). destruct (h e) as [k|]; simpl; [|assumption].
  etransitivity; [exact Hm | apply Hh].
Qed.

End Stable.

Create HintDb stable_db discriminated.

Ltac head_of t :=
  lazymatch t with
  | ?f _ => head_of f
  | _ => t
  end.

(** Follows the program text; [leaf] proves [R s (f s)] for the state
    updates met on the way. *)
Ltac stable_step leaf :=
  lazymatch goal with
  | |- stable _ (ret _) => apply stable_ret; try typeclasses eauto
  | |- stable _ (raise _) => apply stable_raise; try typeclasses eauto
  | |- stable _ (gets _) => apply stable_gets; try typeclasses eauto
  | |- stable _ (lift _) => apply stable_lift; try typeclasses eauto
  | |- stable _ (modify _) => apply stable_modify; intros; leaf
  | |- stable _ (bind _ _) =>
      apply stable_bind; [try typeclasses eauto | | intros ]
  | |- stable _ (try_except _ _) =>
      apply stable_try;
      [ try typeclasses eauto
      | 
      | let e := fresh "e" in intros e; destruct e; simpl; try exact I ]
  | |- stable _ (match ?x with _ => _ end) => destruct x
  | |- stable _ ?m => let h := head_of m in unfold h
  end.

Ltac stable_go leaf :=
  repeat first [ assumption
               | solve [auto 1 with stable_db nocore]
               | stable_step leaf ].

#[global] Instance untouched_preorder : PreOrder untouched.
Proof.
  split; unfold untouched.
  - intros s. repeat split.
  - intros a b c Hab Hbc.
    destruct Hab as (?&?&?&?&?&?&?), Hbc as (?&?&?&?&?&?&?).
    repeat split; congruence.
Qed.

Ltac untouched_leaf := unfold untouched; simpl; repeat split.

Lemma tryRead_untouched (n : Z) : stable untouched (tryRead n).
Proof. stable_go untouched_leaf. Qed.

Lemma take_drop_stream (n : nat) (b i : list byte) :
  take n (b ++ i) ++ (drop n b ++ drop (n - List.length b) i) = b ++ i.
Proof.
  rewrite <- skipn_app. apply take_drop.
Qed.

Lemma tryRead_value (n : Z) (s s' : SerialClient) (bs : list byte) :
  tryRead n s = (Ok bs, s') ->
  len bs = n /\ stream s = bs ++ stream s'.
Proof.
  unfold tryRead, bind, gets, port_read, modify_port, modify, ret, raise, Time_now, stream.
  simpl.
  destruct (n =? 0) eqn:E0.
  - intros [= <- <-]. apply Z.eqb_eq in E0. split; [symmetry; exact E0 | reflexivity].
  - destruct (negb (0 <? timeout s) || (n <? 0)) eqn:E1; [discriminate|].
    set (got := take (Z.to_nat n) (buffered (port s) ++ inflight (port s))).
    destruct (negb (len got =? 0)); simpl;
      (destruct (len got <? n) eqn:E2; [discriminate|]);
      intros [= <- <-]; simpl;
      (split; [| subst got; symmetry; apply take_drop_stream]);
      apply Z.ltb_ge in E2; apply orb_false_elim in E1 as [_ E1];
      apply Z.ltb_ge in E1; subst got; unfold len in *;
      rewrite length_take in *; lia.
Qed.

Lemma tryRead_ok (s : SerialClient) (bs rest : list byte) :
  0 < timeout s -> stream s = bs ++ rest ->
  exists s', tryRead (len bs) s = (Ok bs, s').
Proof.
  intros Ht Hs.
  unfold tryRead, bind, gets, port_read, modify_port, modify, ret, raise, Time_now.
  simpl. unfold stream in Hs.
  destruct (len bs =? 0) eqn:E0.
  - apply Z.eqb_eq in E0. destruct bs; [|discriminate]. eauto.
  - assert (Htake : take (Z.to_nat (len bs)) (buffered (port s) ++ inflight (port s)) = bs).
    { unfold len. rewrite Nat2Z.id, Hs. apply take_app_length. }
    replace (0 <? timeout s) with true by (symmetry; apply Z.ltb_lt; lia).
    replace (len bs <? 0) with false by (symmetry; apply Z.ltb_ge; unfold len; lia).
    simpl. rewrite Htake, E0, Z.ltb_irrefl. simpl. eauto.
Qed.

(** Reading the bytes that are there: they are returned, the rest of the
    input stays, and the session is otherwise as it was. *)
Lemma tryRead_next (s : SerialClient) (bs rest : list byte) :
  0 < timeout s -> stream s = bs ++ rest ->
  exists s', tryRead (len bs) s = (Ok bs, s')
             /\ stream s' = rest /\ untouched s s'.
Proof.
  intros Ht Hs. destruct (tryRead_ok s bs rest Ht Hs) as [s' E].
  exists s'. split; [exact E|]. split.
  - apply tryRead_value in E as [_ E]. rewrite Hs in E.
    apply app_inv_head in E. symmetry. exact E.
  - pose proof (tryRead_untouched (len bs) s) as H. rewrite E in H. exact H.
Qed.

(** ** Running a computation step by step *)

Lemma bind_ok {A B : Type} (m : M A) (k : A -> M B) s a s' :
  m s = (Ok a, s') -> bind m k s = k a s'.
Proof. intros E. unfold bind. rewrite E. reflexivity. Qed.

Lemma bind_raise {A B : Type} (m : M A) (k : A -> M B) s e s' :
  m s = (Raise e, s') -> bind m k s = (Raise e, s').
Proof. intros E. unfold bind. rewrite E. reflexivity. Qed.

Lemma try_except_ok {A : Type} (m : M A) h s a s' :
  m s = (Ok a, s') -> try_except m h s = (Ok a, s').
Proof. intros E. unfold try_except. rewrite E. reflexivity. Qed.

(** ** The writer's frame *)

Lemma _send_ok (s : SerialClient) (topic : Z) (msg : list byte) :
  0 <= topic <= 32767 -> len msg <= 32767 ->
  fits_buffer s msg = true -> next_write_ok (port s) = true ->
  exists s', _send topic msg s = (Ok (len msg), s')
             /\ written (port s') = written (port s) ++ [spec_frame topic msg].
Proof.
  intros Ht Hl Hfit Hw.
  assert (Hl0 : 0 <= len msg <= 32767) by (unfold len in *; lia).
  unfold _send, fits_buffer in *. apply negb_true_iff in Hfit.
  unfold bind at 1, gets at 1. simpl. rewrite Hfit.
  rewrite (pack_h_ok _ Hl0), (pack_h_ok _ Ht).
  unfold bind at 1, lift at 1. 
  rewrite pack_B_checksum.
  unfold bind at 1, lift at 1.
  unfold bind at 1, lift at 1.
  rewrite pack_B_checksum.
  unfold bind at 1, lift at 1.
  assert (Hsum : sum_bytes ([byte_of_Z topic; byte_of_Z (topic / 256)] ++ msg)
                 = byte_val (byte_of_Z topic) + byte_val (byte_of_Z (topic / 256)) + sum_bytes msg).
  { rewrite sum_bytes_app. simpl. lia. }
  rewrite Hsum.
  replace (sum_bytes [byte_of_Z (len msg); byte_of_Z (len msg / 256)])
    with (byte_val (byte_of_Z (len msg)) + byte_val (byte_of_Z (len msg / 256)))
    by (simpl; lia).
  unfold _write, port_write, modify_port, Time_now, bind, gets, modify, ret, next_write_ok in *.
  destruct (write_faults (port s)) as [|[e|] fs]; [| discriminate |];
    simpl; eexists; (split; [reflexivity|]); simpl; reflexivity.
Qed.

(** ** The reader on a frame *)

Section Reader.

Context {ext : External}.

Lemma bind_step {B : Type} (r : ReadStep) (k : unit -> M B) s :
  bind (step r) k s = k tt (set_read_step (Some r) s).
Proof. reflexivity. Qed.

Lemma bind_lift_ok {A B : Type} (a : A) (k : A -> M B) s :
  bind (lift (Ok a)) k s = k a s.
Proof. reflexivity. Qed.

Lemma untouched_timeout s s' : untouched s s' -> timeout s' = timeout s.
Proof. intros H. apply H. Qed.

(** The reader, given the frame of [(topic, msg)], yields the pair and
    leaves what follows the frame. *)
Lemma read_frame_ok (s : SerialClient) (topic : Z) (msg rest : list byte) :
  0 <= topic <= 32767 -> len msg <= 32767 ->
  0 < timeout s ->
  stream s = spec_frame topic msg ++ rest ->
  exists s', read_frame s = (Ok (Some (topic, msg)), s')
             /\ stream s' = rest /\ untouched s s'.
Proof.
  intros Ht Hl Htmo Hs.
  assert (Hl0 : 0 <= len msg <= 32767) by (unfold len in *; lia).
  unfold spec_frame in Hs. cbv zeta in Hs.
  set (l_lo := byte_of_Z (len msg)) in *.
  set (l_hi := byte_of_Z (len msg / 256)) in *.
  set (t_lo := byte_of_Z topic) in *.
  set (t_hi := byte_of_Z (topic / 256)) in *.
  set (cl := byte_of_Z (255 - (byte_val l_lo + byte_val l_hi) mod 256)) in *.
  set (cp := byte_of_Z (255 - (byte_val t_lo + byte_val t_hi + sum_bytes msg) mod 256)) in *.
  unfold read_frame.
  (* sync flag *)
  rewrite bind_step.
  destruct (tryRead_next (set_read_step (Some step_syncflag) s) [xff]
              ([xfe; l_lo; l_hi; cl; t_lo; t_hi] ++ msg ++ [cp] ++ rest))
    as (s1 & E1 & S1 & U1); [exact Htmo | rewrite <- !app_assoc in Hs; exact Hs |].
  change (len [xff]) with 1 in E1. rewrite (bind_ok _ _ _ _ _ E1).
  rewrite bool_decide_eq_true_2 by reflexivity. cbv beta iota delta [negb].
  (* protocol version *)
  rewrite bind_step.
  destruct (tryRead_next (set_read_step (Some step_protocol) s1) [xfe]
              ([l_lo; l_hi; cl; t_lo; t_hi] ++ msg ++ [cp] ++ rest))
    as (s2 & E2 & S2 & U2);
    [ simpl; rewrite (untouched_timeout _ _ U1); exact Htmo | exact S1 |].
  change (len [xfe]) with 1 in E2. rewrite (bind_ok _ _ _ _ _ E2).
  rewrite bool_decide_eq_true_2 by reflexivity. cbv beta iota delta [negb].
  (* length and its checksum *)
  rewrite bind_step.
  destruct (tryRead_next (set_read_step (Some step_message_length) s2) [l_lo; l_hi; cl]
              ([t_lo; t_hi] ++ msg ++ [cp] ++ rest))
    as (s3 & E3 & S3 & U3);
    [ simpl; rewrite (untouched_timeout _ _ U2); simpl;
      rewrite (untouched_timeout _ _ U1); exact Htmo | exact S2 |].
  change (len [l_lo; l_hi; cl]) with 3 in E3. rewrite (bind_ok _ _ _ _ _ E3).
  cbv beta iota delta [struct.unpack_hB]. rewrite bind_lift_ok. cbv beta zeta.
  assert (Hlen : struct.signed16 (byte_val l_lo + 256 * byte_val l_hi) = len msg).
  { subst l_lo l_hi. rewrite (le16_value _ Hl0). apply signed16_small, Hl0. }
  assert (Hcl : sum_bytes [l_lo; l_hi; cl] mod 256 = 255).
  { simpl. subst cl. rewrite byte_val_of_Z.
    replace (byte_val l_lo + (byte_val l_hi + ((255 - (byte_val l_lo + byte_val l_hi) mod 256) mod 256 + 0)))
      with ((byte_val l_lo + byte_val l_hi) + (255 - (byte_val l_lo + byte_val l_hi) mod 256) mod 256) by lia.
    apply checksum_completes. }
  rewrite Hcl. change (255 =? 255) with true. cbv beta iota delta [negb].
  (* topic id *)
  rewrite bind_step.
  destruct (tryRead_next (set_read_step (Some step_topic_id) s3) [t_lo; t_hi]
              (msg ++ [cp] ++ rest))
    as (s4 & E4 & S4 & U4);
    [ simpl; rewrite (untouched_timeout _ _ U3); simpl;
      rewrite (untouched_timeout _ _ U2); simpl;
      rewrite (untouched_timeout _ _ U1); exact Htmo | exact S3 |].
  change (len [t_lo; t_hi]) with 2 in E4. rewrite (bind_ok _ _ _ _ _ E4).
  cbv beta iota delta [struct.unpack_H]. rewrite bind_lift_ok.
  assert (Htopic : byte_val t_lo + 256 * byte_val t_hi = topic).
  { subst t_lo t_hi. apply le16_value, Ht. }
  rewrite Htopic.
  (* the payload *)
  rewrite bind_step. simpl fst. rewrite Hlen.
  destruct (tryRead_next (set_read_step (Some step_data) s4) msg ([cp] ++ rest))
    as (s5 & E5 & S5 & U5);
    [ simpl; rewrite (untouched_timeout _ _ U4); simpl;
      rewrite (untouched_timeout _ _ U3); simpl;
      rewrite (untouched_timeout _ _ U2); simpl;
      rewrite (untouched_timeout _ _ U1); exact Htmo | exact S4 |].
  rewrite (bind_ok _ _ _ _ _ (try_except_ok _ _ _ _ _ E5)).
  (* its checksum *)
  rewrite bind_step.
  destruct (tryRead_next (set_read_step (Some step_data_checksum) s5) [cp] rest)
    as (s6 & E6 & S6 & U6);
    [ simpl; rewrite (untouched_timeout _ _ U5); simpl;
      rewrite (untouched_timeout _ _ U4); simpl;
      rewrite (untouched_timeout _ _ U3); simpl;
      rewrite (untouched_timeout _ _ U2); simpl;
      rewrite (untouched_timeout _ _ U1); exact Htmo | exact S5 |].
  change (len [cp]) with 1 in E6. rewrite (bind_ok _ _ _ _ _ E6).
  cbv zeta.
  assert (Hcp : sum_bytes ([t_lo; t_hi] ++ msg ++ [cp]) mod 256 = 255).
  { rewrite !sum_bytes_app. simpl. subst cp. rewrite byte_val_of_Z.
    replace (byte_val t_lo + (byte_val t_hi + 0)
             + (sum_bytes msg
                + ((255 - (byte_val t_lo + byte_val t_hi + sum_bytes msg) mod 256) mod 256 + 0)))
      with ((byte_val t_lo + byte_val t_hi + sum_bytes msg)
            + (255 - (byte_val t_lo + byte_val t_hi + sum_bytes msg) mod 256) mod 256) by lia.
    apply checksum_completes. }
  rewrite Hcp. change (255 =? 255) with true. cbv beta iota.
  exists s6. split; [reflexivity|]. split; [exact S6|].
  assert (Hstep : forall r x, untouched x (set_read_step r x))
    by (intros; unfold untouched; simpl; repeat split).
  repeat (etransitivity; [apply Hstep|]; etransitivity; [eassumption|]).
  reflexivity.
Qed.

End Reader.

(** ** Round trips *)

(** C1 as the spec words it does not hold: the encoder's frame for
    (42, [1, 2, 3]) has eleven bytes, the payload among them, and ends in
    CF; and the eight bytes of the spec stop inside the payload, so the
    reader raises and yields nothing. *)
Lemma C1_spec_bytes_refuted :
  written (port (_send 42 [x01; x02; x03] (session_on [])).2)
    <> [[xff; xfe; x03; x00; xfc; x2a; x00; x30]]
  /\ (read_frame (session_on [xff; xfe; x03; x00; xfc; x2a; x00; x30])).1
     <> Ok (Some (42, [x01; x02; x03])).
Proof.
  split; vm_compute; intros H; discriminate H.
Qed.

(** C1, amended: encoding (42, [1, 2, 3]) writes exactly
    FF FE 03 00 FC 2A 00 01 02 03 CF, and the reader decodes these bytes
    to (42, [1, 2, 3]). *)
Theorem C1_round_trip_frame (sw sr : SerialClient) (rest : list byte) :
  fits_buffer sw [x01; x02; x03] = true ->
  next_write_ok (port sw) = true ->
  0 < timeout sr ->
  stream sr = [xff; xfe; x03; x00; xfc; x2a; x00; x01; x02; x03; xcf] ++ rest ->
  (_send 42 [x01; x02; x03] sw).1 = Ok 3
  /\ written (port (_send 42 [x01; x02; x03] sw).2)
     = written (port sw) ++ [[xff; xfe; x03; x00; xfc; x2a; x00; x01; x02; x03; xcf]]
  /\ (read_frame sr).1 = Ok (Some (42, [x01; x02; x03]))
  /\ stream (read_frame sr).2 = rest.
Proof.
  intros Hfit Hw Htmo Hs.
  destruct (_send_ok sw 42 [x01; x02; x03]) as (sw' & Esend & Hwr);
    [lia | vm_compute; discriminate | exact Hfit | exact Hw |].
  destruct (read_frame_ok sr 42 [x01; x02; x03] rest) as (sr' & Eread & Hrest & _);
    [lia | vm_compute; discriminate | exact Htmo | exact Hs |].
  rewrite Esend, Eread. simpl. auto.
Qed.

Lemma C1_round_trip_frame_witness :
  (_send 42 [x01; x02; x03] (session_on [])).1 = Ok 3
  /\ written (port (_send 42 [x01; x02; x03] (session_on [])).2)
     = [] ++ [[xff; xfe; x03; x00; xfc; x2a; x00; x01; x02; x03; xcf]]
  /\ (read_frame
        (session_on [xff; xfe; x03; x00; xfc; x2a; x00; x01; x02; x03; xcf])).1
     = Ok (Some (42, [x01; x02; x03]))
  /\ stream (read_frame
        (session_on [xff; xfe; x03; x00; xfc; x2a; x00; x01; x02; x03; xcf])).2 = [].
Proof.
  apply (C1_round_trip_frame (session_on [])
           (session_on [xff; xfe; x03; x00; xfc; x2a; x00; x01; x02; x03; xcf]) []).
  - reflexivity.
  - reflexivity.
  - reflexivity.
  - reflexivity.
Defined.

(** C2 as the spec words it does not hold: a frame whose length needs
    the sixteenth bit (32768 bytes here) fits the 2-byte length field and,
    no buffer size being set, passes the buffer test; [struct.pack('<h')]
    raises on it and nothing is written. *)
Lemma C2_long_payload_not_encoded :
  valid_frame 1 (repeat x00 (Z.to_nat 32768))
  /\ fits_buffer (session_on []) (repeat x00 (Z.to_nat 32768)) = true
  /\ (_send 1 (repeat x00 (Z.to_nat 32768)) (session_on [])).1 = Raise StructError
  /\ written (port (_send 1 (repeat x00 (Z.to_nat 32768)) (session_on [])).2) = [].
Proof.
  split; [|split; [|split]].
  - split; [lia | vm_compute; reflexivity].
  - vm_compute. reflexivity.
  - vm_compute. reflexivity.
  - vm_compute. reflexivity.
Qed.

(** C2, amended: for every topic id in 0..32767 and every payload of at
    most 32767 bytes that passes the subscribe-buffer test, the bytes the
    encoder writes are decoded by the reader to the same topic id and
    payload. *)
Theorem C2_decode_encode (sw sr : SerialClient)
    (topic : Z) (payload rest : list byte) :
  0 <= topic <= 32767 -> len payload <= 32767 ->
  fits_buffer sw payload = true ->
  next_write_ok (port sw) = true ->
  0 < timeout sr ->
  exists frame,
    (_send topic payload sw).1 = Ok (len payload)
    /\ written (port (_send topic payload sw).2) = written (port sw) ++ [frame]
    /\ (stream sr = frame ++ rest ->
        (read_frame sr).1 = Ok (Some (topic, payload))
        /\ stream (read_frame sr).2 = rest).
Proof.
  intros Ht Hl Hfit Hw Htmo.
  destruct (_send_ok sw topic payload Ht Hl Hfit Hw) as (sw' & Esend & Hwr).
  exists (spec_frame topic payload). rewrite Esend. simpl.
  split; [reflexivity|]. split; [exact Hwr|].
  intros Hs.
  destruct (read_frame_ok sr topic payload rest Ht Hl Htmo Hs) as (sr' & Eread & Hrest & _).
  rewrite Eread. simpl. auto.
Qed.

Lemma C2_decode_encode_witness :
  exists frame,
    (_send 300 [x0a; xff] (session_on [])).1 = Ok (len [x0a; xff])
    /\ written (port (_send 300 [x0a; xff] (session_on [])).2)
       = written (port (session_on [])) ++ [frame]
    /\ (stream (session_on [xff; xfe; x02; x00; xfd; x2c; x01; x0a; xff; xc9; x07])
        = frame ++ [x07] ->
        (read_frame
           (session_on [xff; xfe; x02; x00; xfd; x2c; x01; x0a; xff; xc9; x07])).1
        = Ok (Some (300, [x0a; xff]))
        /\ stream (read_frame
             (session_on [xff; xfe; x02; x00; xfd; x2c; x01; x0a; xff; xc9; x07])).2
           = [x07]).
Proof.
  apply (C2_decode_encode (session_on [])
           (session_on [xff; xfe; x02; x00; xfd; x2c; x01; x0a; xff; xc9; x07])
           300 [x0a; xff] [x07]).
  - lia.
  - vm_compute. discriminate.
  - reflexivity.
  - reflexivity.
  - reflexivity.
Defined.

(** ** What the reader dispatches *)

#[global] Instance reads_on_preorder (P : Z -> list byte -> Prop) :
  PreOrder (reads_on P).
Proof.
  split; unfold reads_on.
  - intros s. split; [exists []; reflexivity|].
    exists []. rewrite app_nil_r. split; [reflexivity | intros ? ? []].
  - intros a b c [[pre1 Hs1] (evs1 & Ht1 & Hd1)] [[pre2 Hs2] (evs2 & Ht2 & Hd2)].
    split.
    + exists (pre1 ++ pre2). rewrite Hs1, Hs2, app_assoc. reflexivity.
    + exists (evs1 ++ evs2). rewrite Ht2, Ht1, app_assoc.
      split; [reflexivity|].
      intros id msg Hin. apply in_app_or in Hin as [Hin|Hin]; eauto.
Qed.

Lemma reads_on_weaken (P Q : Z -> list byte -> Prop) s s' :
  (forall id msg, P id msg -> Q id msg) -> reads_on P s s' -> reads_on Q s s'.
Proof.
  intros HPQ [Hs (evs & Ht & Hd)]. split; [exact Hs|].
  exists evs. split; [exact Ht | eauto].
Qed.

(** A state update that leaves input and log alone, or logs something
    other than a handler call. *)
Ltac reads_on_leaf :=
  unfold reads_on, stream; simpl;
  split;
  [ first [ exists []; reflexivity ]
  | first [ exists []; rewrite app_nil_r; split; [reflexivity | intros ? ? []]
          | eexists [_]; split;
            [ reflexivity
            | let H := fresh "H" in
              intros ? ? [H|[]];
              first [ discriminate H | injection H as <- <-; assumption ] ] ] ].

Section Dispatch.

Context {ext : External} (P : Z -> list byte -> Prop).

Lemma port_flushInput_reads : stable (reads_on P) port_flushInput.
Proof.
  intros s. unfold port_flushInput, bind, gets, modify_port, modify, raise.
  destruct (flushInput (port s)); simpl; [reflexivity | reflexivity |].
  unfold reads_on, stream. simpl. split.
  - exists (buffered (port s)). reflexivity.
  - exists []. rewrite app_nil_r. split; [reflexivity | intros ? ? []].
Qed.

Lemma port_read_reads (n : nat) : stable (reads_on P) (port_read n).
Proof.
  intros s. unfold reads_on, stream. simpl. split.
  - exists (take n (buffered (port s) ++ inflight (port s))).
    symmetry. apply take_drop_stream.
  - exists []. rewrite app_nil_r. split; [reflexivity | intros ? ? []].
Qed.

Lemma port_arrive_reads (k : nat) : stable (reads_on P) (port_arrive k).
Proof.
  intros s. unfold reads_on, stream. simpl. split.
  - exists []. simpl. rewrite <- app_assoc, take_drop. reflexivity.
  - exists []. rewrite app_nil_r. split; [reflexivity | intros ? ? []].
Qed.

Lemma port_write_reads (data : list byte) : stable (reads_on P) (port_write data).
Proof.
  intros s. unfold port_write, bind, gets, modify_port, modify, raise.
  destruct (write_faults (port s)) as [|[e|] fs]; simpl; reads_on_leaf.
Qed.

Lemma port_inWaiting_reads : stable (reads_on P) port_inWaiting.
Proof.
  intros s. unfold port_inWaiting, bind, gets, modify_port, modify, ret, raise.
  destruct (inWaiting_faults (port s)) as [|[e|] fs]; simpl;
    first [reflexivity | reads_on_leaf].
Qed.

Lemma requestTopics_reads : stable (reads_on P) requestTopics.
Proof.
  pose proof port_flushInput_reads.
  stable_go reads_on_leaf.
Qed.

Lemma tryRead_reads (n : Z) : stable (reads_on P) (tryRead n).
Proof.
  pose proof port_read_reads.
  stable_go reads_on_leaf.
Qed.

Lemma call_handler_reads h msg : stable (reads_on P) (call_handler h msg).
Proof. stable_go reads_on_leaf. Qed.

Lemma read_frame_reads : stable (reads_on P) read_frame.
Proof.
  pose proof tryRead_reads.
  stable_go reads_on_leaf.
Qed.

Lemma dispatch_reads id msg : P id msg -> stable (reads_on P) (dispatch id msg).
Proof.
  intros HP.
  pose proof call_handler_reads. pose proof requestTopics_reads.
  stable_go reads_on_leaf.
Qed.

Lemma check_sync_reads : stable (reads_on P) check_sync.
Proof.
  pose proof requestTopics_reads.
  stable_go reads_on_leaf.
Qed.

End Dispatch.

Lemma bind_inv {A B : Type} (m : M A) (k : A -> M B) s b s' :
  bind m k s = (Ok b, s') ->
  exists a s1, m s = (Ok a, s1) /\ k a s1 = (Ok b, s').
Proof.
  unfold bind. destruct (m s) as [[a|e] s1]; [eauto | discriminate].
Qed.

Lemma len_1_inv (bs : list byte) : len bs = 1 -> exists a, bs = [a].
Proof.
  destruct bs as [|a [|b bs]]; unfold len; simpl; intros H; try lia. eauto.
Qed.

Lemma len_2_inv (bs : list byte) : len bs = 2 -> exists a b, bs = [a; b].
Proof.
  destruct bs as [|a [|b [|c bs]]]; unfold len; simpl; intros H; try lia. eauto.
Qed.

Lemma len_3_inv (bs : list byte) : len bs = 3 -> exists a b c, bs = [a; b; c].
Proof.
  destruct bs as [|a [|b [|c [|d bs]]]]; unfold len; simpl; intros H; try lia. eauto.
Qed.

Section Framed.

Context {ext : External}.

(** A frame the reader yields was on the input, with both checksums
    right. *)
Lemma read_frame_framed (s s' : SerialClient) (id : Z) (msg : list byte) :
  read_frame s = (Ok (Some (id, msg)), s') ->
  exists l_lo l_hi cl t_lo t_hi cp,
    stream s = [xff; xfe; l_lo; l_hi; cl; t_lo; t_hi] ++ msg ++ [cp] ++ stream s'
    /\ length_checksum_ok l_lo l_hi cl
    /\ payload_checksum_ok t_lo t_hi msg cp
    /\ id = byte_val t_lo + 256 * byte_val t_hi
    /\ len msg = struct.signed16 (byte_val l_lo + 256 * byte_val l_hi).
Proof.
  unfold read_frame. intros H.
  rewrite bind_step in H.
  apply bind_inv in H as (flag0 & s1 & E1 & H).
  destruct (bool_decide (flag0 = header)) eqn:D0; simpl in H; [|discriminate].
  apply bool_decide_eq_true in D0. subst flag0.
  rewrite bind_step in H.
  apply bind_inv in H as (flag1 & s2 & E2 & H).
  destruct (bool_decide (flag1 = protocol_ver)) eqn:D1; simpl in H.
  2:{ apply bind_inv in H as (? & ? & _ & H). discriminate H. }
  apply bool_decide_eq_true in D1. subst flag1.
  rewrite bind_step in H.
  apply bind_inv in H as (lenb & s3 & E3 & H).
  apply tryRead_value in E1 as [_ S1], E2 as [_ S2], E3 as [L3 S3].
  apply len_3_inv in L3 as (l_lo & l_hi & cl & ->).
  cbv beta iota delta [struct.unpack_hB] in H. rewrite bind_lift_ok in H.
  cbv beta zeta in H. simpl fst in H.
  destruct (sum_bytes [l_lo; l_hi; cl] mod 256 =? 255) eqn:C1; simpl in H.
  2:{ apply bind_inv in H as (? & ? & _ & H). discriminate H. }
  rewrite bind_step in H.
  apply bind_inv in H as (tidb & s4 & E4 & H).
  apply tryRead_value in E4 as [L4 S4].
  apply len_2_inv in L4 as (t_lo & t_hi & ->).
  cbv beta iota delta [struct.unpack_H] in H. rewrite bind_lift_ok in H.
  rewrite bind_step in H.
  apply bind_inv in H as (payload & s5 & E5 & H).
  rewrite bind_step in H.
  apply bind_inv in H as (chk & s6 & E6 & H).
  apply tryRead_value in E6 as [L6 S6].
  apply len_1_inv in L6 as (cp & ->).
  cbv zeta in H.
  destruct (sum_bytes ([t_lo; t_hi] ++ payload ++ [cp]) mod 256 =? 255) eqn:C2.
  2:{ apply bind_inv in H as (? & ? & _ & H). discriminate H. }
  injection H as <- <- <-.
  assert (E5' : tryRead (struct.signed16 (byte_val l_lo + 256 * byte_val l_hi))
                  (set_read_step (Some step_data) s4) = (Ok payload, s5)).
  { unfold try_except in E5.
    destruct (tryRead _ (set_read_step (Some step_data) s4)) as [[got|e] sx] eqn:E;
      [exact E5|].
    destruct e; first [discriminate E5 | simpl in E5; discriminate E5]. }
  apply tryRead_value in E5' as [L5 S5].
  exists l_lo, l_hi, cl, t_lo, t_hi, cp.
  unfold stream in *. simpl in *.
  split.
  { rewrite S1, S2, S3, S4, S5, S6. reflexivity. }
  apply Z.eqb_eq in C1, C2.
  rewrite !sum_bytes_app in C2. simpl in C1, C2.
  unfold length_checksum_ok, payload_checksum_ok.
  split; [rewrite <- C1; f_equal; lia|].
  split; [rewrite <- C2; f_equal; lia|].
  split; [reflexivity | exact L5].
Qed.

Lemma framed_later (id : Z) (msg pre input : list byte) :
  framed id msg input -> framed id msg (pre ++ input).
Proof.
  intros (pre' & l_lo & l_hi & cl & t_lo & t_hi & cp & post & -> & H).
  exists (pre ++ pre'), l_lo, l_hi, cl, t_lo, t_hi, cp, post.
  rewrite <- app_assoc. split; [reflexivity | exact H].
Qed.

(** What one frame's worth of reading dispatches was framed on the
    input it started with. *)
Lemma read_message_reads (s : SerialClient) :
  reads_on (fun id msg => framed id msg (stream s)) s (read_message s).2.
Proof.
  set (P := fun id msg => framed id msg (stream s)).
  pose proof (read_frame_reads P s) as Hrf.
  unfold read_message, bind.
  destruct (read_frame s) as [[[[id msg]|]|e] s1] eqn:E; simpl in *;
    [| exact Hrf | exact Hrf].
  etransitivity; [exact Hrf|].
  assert (HP : P id msg).
  { apply read_frame_framed in E
      as (l_lo & l_hi & cl & t_lo & t_hi & cp & Hs & Hrest).
    exists [], l_lo, l_hi, cl, t_lo, t_hi, cp, (stream s1).
    split; [exact Hs | exact Hrest]. }
  pose proof (dispatch_reads P id msg HP) as Hd.
  assert (Hrest : stable (reads_on P)
            (modify (set_synced true) ;;;
             let* t := Time_now in
             modify (set_lastsync_success t) ;;;
             dispatch id msg ;;; ret Continue)).
  { stable_go reads_on_leaf. }
  apply Hrest.
Qed.

Lemma run_body_reads (o : Obs) (s : SerialClient) :
  reads_on (fun id msg => framed id msg (stream s)) s (run_body o s).2.
Proof.
  set (P := fun id msg => framed id msg (stream s)).
  unfold run_body.
  pose proof (port_arrive_reads P (arrived o) s) as H1.
  rewrite (bind_ok _ _ _ tt (port_arrive (arrived o) s).2) by reflexivity.
  set (s1 := (port_arrive (arrived o) s).2) in *.
  etransitivity; [exact H1|].
  pose proof (check_sync_reads P s1) as H2.
  unfold bind. destruct (check_sync s1) as [[c|e] s2] eqn:E2; simpl in *;
    [|exact H2].
  etransitivity; [exact H2|].
  destruct c; [|reflexivity].
  assert (Hsub : forall id msg, framed id msg (stream s2) -> P id msg).
  { intros id msg Hf. unfold P.
    destruct H1 as [[pre1 Hs1] _], H2 as [[pre2 Hs2] _].
    rewrite Hs1, Hs2, app_assoc. apply framed_later, Hf. }
  assert (Hk : forall e k, on_IOError e = Some k -> stable (reads_on P) k).
  { intros e k Ek. destruct e; try discriminate Ek. injection Ek as <-.
    stable_go reads_on_leaf. }
  unfold try_except, run_try.
  destruct (lock_acquired o); [|reflexivity].
  pose proof (port_inWaiting_reads P s2) as Hi.
  unfold bind.
  destruct (port_inWaiting s2) as [[n|e] s2'] eqn:Ei; simpl in Hi.
  2:{ destruct (on_IOError e) as [k|] eqn:Ek; [|exact Hi].
      etransitivity; [exact Hi | apply (Hk e k Ek)]. }
  etransitivity; [exact Hi|].
  assert (Hsub' : forall id msg, framed id msg (stream s2') -> P id msg).
  { intros id msg Hf. apply Hsub. destruct Hi as [[pre Hs] _].
    rewrite Hs. apply framed_later, Hf. }
  destruct (n <? 1); [reflexivity|].
  pose proof (read_message_reads s2') as H3.
  apply (reads_on_weaken _ P) in H3; [|exact Hsub'].
  destruct (read_message s2') as [[c|e] s3]; simpl in H3; [exact H3|].
  destruct (on_IOError e) as [k|] eqn:Ek; [|exact H3].
  etransitivity; [exact H3 | apply (Hk e k Ek)].
Qed.

Lemma run_reads (obs : list Obs) (s : SerialClient) :
  reads_on (fun id msg => framed id msg (stream s)) s (run obs s).2.
Proof.
  revert s. induction obs as [|o rest IH]; intros s; simpl.
  - reflexivity.
  - destruct (writer_alive o && negb (is_shutdown o)); [|reflexivity].
    pose proof (run_body_reads o s) as H1.
    unfold bind. destruct (run_body o s) as [[c|e] s1]; simpl in *;
      [|exact H1].
    destruct c; [|exact H1].
    etransitivity; [exact H1|].
    eapply reads_on_weaken; [|apply IH].
    intros id msg Hf. destruct H1 as [[pre Hs] _].
    rewrite Hs. apply framed_later, Hf.
Qed.

End Framed.

(** C3: whatever bytes arrive, every (topic_id, payload) pair the reader
    hands to a handler was carried by a frame on the input, between the
    sync bytes FF FE and the rest, whose length checksum and payload
    checksum both satisfy the section 3 formulas; a frame failing either
    is not dispatched. *)
Theorem C3_dispatch_only_valid_frames {ext : External}
    (obs : list Obs) (s : SerialClient) (id : Z) (msg : list byte) :
  In (Dispatched id msg) (new_events s (run obs s).2) ->
  framed id msg (stream s).
Proof.
  destruct (run_reads obs s) as [_ (evs & Ht & Hd)].
  unfold new_events. rewrite Ht, drop_app_length. apply Hd.
Qed.

Lemma C3_dispatch_only_valid_frames_witness :
  framed 10 [] (stream (session_on [xff; xfe; x00; x00; xff; x0a; x00; xf5])).
Proof.
  apply (@C3_dispatch_only_valid_frames no_ros [a_turn]
           (session_on [xff; xfe; x00; x00; xff; x0a; x00; xf5]) 10 []).
  vm_compute. left. reflexivity.
Defined.

(** ** The writer *)

Lemma processWriteQueue_turn (rest : list bool) :
  processWriteQueue (false :: rest)
  = (let* ok := processWriteQueue_body in
     if ok : bool then processWriteQueue rest else ret StillRunning).
Proof. reflexivity. Qed.

Lemma processWriteQueue_body_idle (s : SerialClient) :
  write_queue s = [] -> processWriteQueue_body s = (Ok true, s).
Proof.
  intros Hq. unfold processWriteQueue_body, bind, gets. rewrite Hq. reflexivity.
Qed.

(** With nothing queued the writer only waits. *)
Lemma processWriteQueue_idle (shutdowns : list bool) (s : SerialClient) :
  write_queue s = [] -> (processWriteQueue shutdowns s).2 = s.
Proof.
  intros Hq. induction shutdowns as [|[|] rest IH]; try reflexivity.
  rewrite processWriteQueue_turn.
  rewrite (bind_ok _ _ _ _ _ (processWriteQueue_body_idle s Hq)). exact IH.
Qed.

Lemma processWriteQueue_body_item (s : SerialClient) (data : QueueItem)
    (rest : list QueueItem) :
  write_queue s = data :: rest ->
  processWriteQueue_body s
  = write_retry (List.length (write_faults (port s))) data (set_write_queue rest s).
Proof.
  intros Hq. unfold processWriteQueue_body, bind, gets, modify. rewrite Hq.
  reflexivity.
Qed.

(** C4: evaluated on an oversize item.  With a positive subscribe-buffer
    size and a longer payload at the head of the queue, one turn of the
    writer takes the item off the queue, writes nothing and logs nothing,
    and leaves the loop by the exception NameError: the thread ends, where
    the spec has the message dropped with an error log and the loop going
    on to the next item. *)
Theorem C4_oversize_ends_writer (s : SerialClient) (topic : Z)
    (msg : list byte) (rest : list QueueItem) (shutdowns : list bool) :
  write_queue s = QTuple topic msg :: rest ->
  0 < buffer_in s -> buffer_in s < len msg ->
  processWriteQueue (false :: shutdowns) s
  = (Raise (NameError "msg"), set_write_queue rest s).
Proof.
  intros Hq Hpos Hbig.
  assert (Hsend : _send topic msg (set_write_queue rest s)
                  = (Raise (NameError "msg"), set_write_queue rest s)).
  { unfold _send, bind, gets. simpl.
    replace (0 <? buffer_in s) with true by (symmetry; apply Z.ltb_lt; lia).
    replace (buffer_in s <? len msg) with true by (symmetry; apply Z.ltb_lt; lia).
    reflexivity. }
  assert (Hretry : forall fuel,
             write_retry fuel (QTuple topic msg) (set_write_queue rest s)
             = (Raise (NameError "msg"), set_write_queue rest s)).
  { intros fuel. destruct fuel; simpl;
      unfold try_except, write_item;
      rewrite (bind_raise _ _ _ _ _ (bind_raise _ _ _ _ _ Hsend)); reflexivity. }
  rewrite processWriteQueue_turn.
  apply bind_raise. rewrite (processWriteQueue_body_item s _ _ Hq). apply Hretry.
Qed.

Lemma C4_oversize_ends_writer_witness :
  processWriteQueue [false; false]
    (set_write_queue [QTuple 100 [x01; x02; x03; x04; x05]; QBytes request_topics_frame]
       (set_buffer_in 4 (session_on [])))
  = (Raise (NameError "msg"),
     set_write_queue [QBytes request_topics_frame]
       (set_write_queue [QTuple 100 [x01; x02; x03; x04; x05]; QBytes request_topics_frame]
          (set_buffer_in 4 (session_on [])))).
Proof.
  apply (C4_oversize_ends_writer
           (set_write_queue [QTuple 100 [x01; x02; x03; x04; x05]; QBytes request_topics_frame]
              (set_buffer_in 4 (session_on [])))
           100 [x01; x02; x03; x04; x05] [QBytes request_topics_frame] [false]).
  - reflexivity.
  - reflexivity.
  - reflexivity.
Defined.

Section FirstFrame.

Context {ext : External}.

(** C6: a session constructed without shutdown has queued exactly the
    request-topics frame FF FE 00 00 FF 00 00 FF, which is the frame of
    topic id 0 with an empty payload, and has written nothing; the
    writer's first turn puts these eight bytes on the wire, and they
    stay the only bytes written. *)
Theorem C6_first_frame_requests_topics (p : Port) (tmo : Z) (fix_test : bool)
    (clk : nat -> Z) (shutdowns : list bool) :
  next_write_ok p = true ->
  exists s,
    SerialClient_init p tmo fix_test clk false = Some s
    /\ write_queue s = [QBytes [xff; xfe; x00; x00; xff; x00; x00; xff]]
    /\ written (port s) = written p
    /\ written (port (processWriteQueue (false :: shutdowns) s).2)
       = written p ++ [[xff; xfe; x00; x00; xff; x00; x00; xff]]
    /\ spec_frame 0 [] = [xff; xfe; x00; x00; xff; x00; x00; xff].
Proof.
  intros Hw. unfold SerialClient_init. eexists. split; [reflexivity|].
  set (s := ((requestTopics ;;; let* t := Time_now in modify (set_lastsync t))
               (fresh p tmo fix_test clk)).2).
  assert (Hq : write_queue s = [QBytes [xff; xfe; x00; x00; xff; x00; x00; xff]]).
  { subst s. unfold requestTopics, flush_unless_test, port_flushInput, try_except,
      bind, gets, modify_port, modify, loginfo, emit, queue_put, ret, raise, Time_now.
    simpl. destruct fix_test; simpl; [reflexivity|].
    destruct (flushInput p); reflexivity. }
  assert (Hp : written (port s) = written p /\ write_faults (port s) = write_faults p).
  { subst s. unfold requestTopics, flush_unless_test, port_flushInput, try_except,
      bind, gets, modify_port, modify, loginfo, emit, queue_put, ret, raise, Time_now.
    simpl. destruct fix_test; simpl; [split; reflexivity|].
    destruct (flushInput p); split; reflexivity. }
  destruct Hp as [Hwr Hwf].
  split; [exact Hq|]. split; [exact Hwr|]. split; [|vm_compute; reflexivity].
  rewrite processWriteQueue_turn.
  unfold next_write_ok in Hw.
  assert (Hstep : exists s1,
            processWriteQueue_body s = (Ok true, s1)
            /\ write_queue s1 = []
            /\ written (port s1) = written p ++ [[xff; xfe; x00; x00; xff; x00; x00; xff]]).
  { rewrite (processWriteQueue_body_item s _ _ Hq). rewrite Hwf.
    destruct (write_faults p) as [|[e|] fs] eqn:Ef; [| discriminate |];
      simpl; unfold try_except, bind, write_item, _write, port_write, bind, gets,
        modify_port, modify, Time_now, ret; simpl; rewrite Hwf; simpl;
      eexists; (split; [reflexivity|]); simpl; rewrite Hwr; split; reflexivity. }
  destruct Hstep as (s1 & E1 & Hq1 & Hw1).
  rewrite (bind_ok _ _ _ _ _ E1).
  rewrite (processWriteQueue_idle shutdowns s1 Hq1). exact Hw1.
Qed.

End FirstFrame.

Lemma C6_first_frame_requests_topics_witness :
  exists s,
    @SerialClient_init no_ros (port_with [x00; x01]) 5 false Z.of_nat false = Some s
    /\ write_queue s = [QBytes [xff; xfe; x00; x00; xff; x00; x00; xff]]
    /\ written (port s) = written (port_with [x00; x01])
    /\ written (port (processWriteQueue (false :: [false; true]) s).2)
       = written (port_with [x00; x01]) ++ [[xff; xfe; x00; x00; xff; x00; x00; xff]]
    /\ spec_frame 0 [] = [xff; xfe; x00; x00; xff; x00; x00; xff].
Proof.
  apply (@C6_first_frame_requests_topics no_ros (port_with [x00; x01]) 5 false
           Z.of_nat [false; true]).
  reflexivity.
Defined.

(** ** The report of a wrong protocol version *)

Lemma expected_version_text :
  protocol_ver_msgs !! protocol_ver = Some "Rev 1 (rosserial 0.5+)".
Proof. vm_compute. reflexivity. Qed.

Lemma found_ver_msg_text (v : byte) : v <> xfe -> found_ver_msg [v] = version_text v.
Proof.
  intros Hv. destruct v; try (vm_compute; reflexivity). congruence.
Qed.

(** C5 as the spec words it does not hold: the table has a third entry,
    and the version byte FD is reported as "Some future rosserial
    version", not as unrecognized. *)
Lemma C5_version_FD_has_its_own_text :
  new_events (session_on [xff; xfd]) (@read_message no_ros (session_on [xff; xfd])).2
  = [Diagnostics ERROR ERROR_MISMATCHED_PROTOCOL None 0;
     Log ERROR "Mismatched protocol version in packet (%s): lost sync or rosserial_python is from different ros release than the rosserial client"
       [ARepr [xfd]];
     Log INFO "%s, expected %s"
       [AStr "Protocol version of client is Some future rosserial version";
        AStr "Rev 1 (rosserial 0.5+)"]]
  /\ found_ver_msg [xfd] <> "Protocol version of client is unrecognized".
Proof.
  split; [vm_compute; reflexivity | vm_compute; discriminate].
Qed.

Section Mismatch.

Context {ext : External}.

(** C5, amended: for every version byte other than FE read after the
    sync marker FF, the reader publishes the mismatch diagnostic, logs
    the error with the byte, and logs what it found and expected, where
    FF is worded as Rev 0, FD as "Some future rosserial version", any
    other byte as unrecognized, and the expected FE as Rev 1; it then
    goes on to the next turn with the input right after the version
    byte, nothing dispatched, nothing queued and [synced] as it was. *)
Theorem C5_protocol_mismatch_report (s : SerialClient) (v : byte) (rest : list byte) :
  0 < timeout s ->
  stream s = xff :: v :: rest ->
  v <> xfe ->
  exists s',
    read_message s = (Ok Continue, s')
    /\ new_events s s'
       = [Diagnostics ERROR ERROR_MISMATCHED_PROTOCOL
            (if 0 <? lastsync (times s) then Some (lastsync (times s)) else None)
            (lastsync_lost (times s));
          Log ERROR "Mismatched protocol version in packet (%s): lost sync or rosserial_python is from different ros release than the rosserial client"
            [ARepr [v]];
          Log INFO "%s, expected %s"
            [AStr (version_text v); AStr "Rev 1 (rosserial 0.5+)"]]
    /\ stream s' = rest
    /\ write_queue s' = write_queue s
    /\ synced s' = synced s.
Proof.
  intros Htmo Hs Hv.
  destruct (tryRead_next (set_read_step (Some step_syncflag) s) [xff] (v :: rest))
    as (s1 & E1 & S1 & U1); [exact Htmo | exact Hs |].
  destruct (tryRead_next (set_read_step (Some step_protocol) s1) [v] rest)
    as (s2 & E2 & S2 & U2);
    [simpl; rewrite (untouched_timeout _ _ U1); exact Htmo | exact S1 |].
  change (len [xff]) with 1 in E1. change (len [v]) with 1 in E2.
  assert (U : untouched s s2).
  { assert (Hstep : forall r x, untouched x (set_read_step r x))
      by (intros; unfold untouched; simpl; repeat split).
    etransitivity; [apply Hstep|]. etransitivity; [exact U1|].
    etransitivity; [apply Hstep|]. exact U2. }
  destruct U as (_ & Utr & Usy & Uq & Uls & Ull & _).
  assert (Hne : bool_decide ([v] = protocol_ver) = false).
  { apply bool_decide_eq_false. intros [= ->]. congruence. }
  assert (Hframe : exists s',
             read_frame s = (Ok None, s')
             /\ trace s' = trace s ++
                  [Diagnostics ERROR ERROR_MISMATCHED_PROTOCOL
                     (if 0 <? lastsync (times s) then Some (lastsync (times s)) else None)
                     (lastsync_lost (times s));
                   Log ERROR "Mismatched protocol version in packet (%s): lost sync or rosserial_python is from different ros release than the rosserial client"
                     [ARepr [v]];
                   Log INFO "%s, expected %s"
                     [AStr (version_text v); AStr "Rev 1 (rosserial 0.5+)"]]
             /\ stream s' = rest /\ write_queue s' = write_queue s
             /\ synced s' = synced s).
  { unfold read_frame. rewrite bind_step, (bind_ok _ _ _ _ _ E1).
    rewrite bool_decide_eq_true_2 by reflexivity. cbv beta iota delta [negb].
    rewrite bind_step, (bind_ok _ _ _ _ _ E2).
    rewrite Hne. cbv beta iota delta [negb].
    unfold report_mismatch, getitem. rewrite expected_version_text.
    rewrite (found_ver_msg_text v Hv).
    unfold sendDiagnostics, Time_now, logerr, loginfo, emit, bind, gets, modify, ret.
    simpl. eexists. split; [reflexivity|]. simpl.
    rewrite Utr, Uls, Ull, Uq, Usy, <- !app_assoc. simpl.
    unfold stream in *. simpl in *. auto. }
  destruct Hframe as (s' & Ef & Htr & Hst & Hq & Hsy).
  exists s'. unfold read_message. rewrite (bind_ok _ _ _ _ _ Ef).
  split; [reflexivity|]. split; [|auto].
  unfold new_events. rewrite Htr. apply drop_app_length.
Qed.

End Mismatch.

Lemma C5_protocol_mismatch_report_witness :
  exists s',
    @read_message no_ros (session_on [xff; xff; x00]) = (Ok Continue, s')
    /\ new_events (session_on [xff; xff; x00]) s'
       = [Diagnostics ERROR ERROR_MISMATCHED_PROTOCOL
            (if 0 <? lastsync (times (session_on [xff; xff; x00]))
             then Some (lastsync (times (session_on [xff; xff; x00]))) else None)
            (lastsync_lost (times (session_on [xff; xff; x00])));
          Log ERROR "Mismatched protocol version in packet (%s): lost sync or rosserial_python is from different ros release than the rosserial client"
            [ARepr [xff]];
          Log INFO "%s, expected %s"
            [AStr (version_text xff); AStr "Rev 1 (rosserial 0.5+)"]]
    /\ stream s' = [x00]
    /\ write_queue s' = write_queue (session_on [xff; xff; x00])
    /\ synced s' = synced (session_on [xff; xff; x00]).
Proof.
  apply (@C5_protocol_mismatch_report no_ros (session_on [xff; xff; x00]) xff [x00]).
  - reflexivity.
  - reflexivity.
  - discriminate.
Defined.

(** ** How the reader's loop ends *)

Section ReaderExits.

Context {ext : External}.

Lemma budget_test (s : SerialClient) :
  (clock s (ticks s) - lastsync (times s) >? timeout s * 3) = true
  <-> budget_exhausted s.
Proof. unfold budget_exhausted. rewrite Z.gtb_lt. lia. Qed.

Lemma check_sync_in_budget (s : SerialClient) :
  ~ budget_exhausted s -> check_sync s = (Ok Continue, set_ticks (S (ticks s)) s).
Proof.
  intros Hb. unfold check_sync, Time_now, bind, gets, modify, ret. simpl.
  destruct (clock s (ticks s) - lastsync (times s) >? timeout s * 3) eqn:E;
    [|reflexivity].
  apply budget_test in E. contradiction.
Qed.

Lemma check_sync_lost (s : SerialClient) :
  budget_exhausted s -> synced s = true ->
  exists s', check_sync s = (Ok Return, s')
             /\ new_events s s' = [Log ERROR "Lost sync with device, restarting NOW..." []]
             /\ lastsync (times s') = lastsync (times s).
Proof.
  intros Hb Hsy. apply budget_test in Hb.
  unfold check_sync, Time_now, logerr, emit, bind, gets, modify, ret. simpl.
  rewrite Hb. simpl. rewrite Hsy. eexists. split; [reflexivity|]. simpl.
  split; [apply drop_app_length | reflexivity].
Qed.

Lemma check_sync_no_sync (s : SerialClient) :
  budget_exhausted s -> synced s = false ->
  exists s', check_sync s = (Ok Continue, s')
             /\ new_events s s'
                = [Log ERROR "Unable to sync with device; possible link problem or link software version mismatch such as hydro rosserial_python with groovy Arduino" [];
                   Diagnostics ERROR ERROR_NO_SYNC
                     (if 0 <? lastsync (times s) then Some (lastsync (times s)) else None)
                     (clock s (S (ticks s)));
                   Log INFO "Requesting topics..." []]
             /\ write_queue s' = write_queue s ++ [QBytes request_topics_frame]
             /\ lastsync (times s') = clock s (3 + ticks s)%nat
             /\ synced s' = false.
Proof.
  intros Hb Hsy. apply budget_test in Hb.
  unfold check_sync, sendDiagnostics, requestTopics, flush_unless_test,
    port_flushInput, queue_put, Time_now, logerr, loginfo, emit, try_except,
    modify_port, bind, gets, modify, ret, raise.
  simpl. rewrite Hb. simpl. rewrite Hsy. simpl.
  destruct (fix_pyserial_for_test s); simpl;
    [| destruct (flushInput (port s)); simpl ];
    (eexists; split; [reflexivity|]); simpl;
    (split; [rewrite <- !app_assoc; apply drop_app_length |]);
    auto.
Qed.

Lemma classic_budget (s : SerialClient) :
  budget_exhausted s \/ ~ budget_exhausted s.
Proof. unfold budget_exhausted. lia. Qed.



Lemma check_sync_never_raises (s s' : SerialClient) (e : exn) :
  check_sync s <> (Raise e, s').
Proof.
  destruct (classic_budget s) as [Hb|Hb].
  - destruct (synced s) eqn:Hsy.
    + destruct (check_sync_lost s Hb Hsy) as (s1 & E & _). rewrite E. discriminate.
    + destruct (check_sync_no_sync s Hb Hsy) as (s1 & E & _). rewrite E. discriminate.
  - rewrite (check_sync_in_budget s Hb). discriminate.
Qed.


End ReaderExits.

Section ReaderLoop.

Context {ext : External}.




End ReaderLoop.


(** Nor is a read error the only exception that ends it: on a broken
    connection [inWaiting] raises [RuntimeError], which the loop has no
    handler for, with the sync budget not exhausted and nothing read. *)
Lemma broken_connection_leaves_run :
  (@run no_ros [a_turn] broken_session).1 = Raise RuntimeError
  /\ ~ budget_exhausted broken_session
  /\ trace (@run no_ros [a_turn] broken_session).2 = trace broken_session.
Proof.
  split; [reflexivity|]. split; [|reflexivity].
  unfold budget_exhausted. vm_compute. discriminate.
Qed.


(** ** Installing a subscriber *)

Section InstallSubscriber.

Context {ext : External}.

Lemma Subscriber_init_some (msg : TopicInfo) (sub : Subscriber) (s : SerialClient) :
  subscriber_for msg = Some sub ->
  Subscriber_init msg s
  = (Ok sub, set_trace (trace s ++ [RosSubscriber (topic_name msg) (sub_message sub)]) s).
Proof.
  unfold subscriber_for, Subscriber_init, bind, lift, emit, modify, ret, raise.
  destruct (unpack2 (split_slash (message_type msg))) as [pm|e]; [|discriminate].
  destruct (load_message pm.1 pm.2) as [message|e]; [|discriminate].
  destruct (String.eqb (_md5sum message) (md5sum msg)); [|discriminate].
  intros [= <-]. reflexivity.
Qed.

Lemma Subscriber_init_none (msg : TopicInfo) (s : SerialClient) :
  subscriber_for msg = None ->
  exists e, Subscriber_init msg s = (Raise e, s).
Proof.
  unfold subscriber_for, Subscriber_init, bind, lift, emit, modify, ret, raise.
  destruct (unpack2 (split_slash (message_type msg))) as [pm|e]; [|eauto].
  destruct (load_message pm.1 pm.2) as [message|e]; [|eauto].
  destruct (String.eqb (_md5sum message) (md5sum msg)); [discriminate|eauto].
Qed.

Lemma setSubscribeSize_total (size : Z) (s : SerialClient) :
  exists evs,
    setSubscribeSize size s
    = (Ok tt, set_trace (trace s ++ evs)
                (set_buffer_in (if buffer_in s <? 0 then size else buffer_in s) s)).
Proof.
  unfold setSubscribeSize, loginfo, emit, bind, gets, modify, ret. simpl.
  destruct (buffer_in s <? 0); simpl.
  - eexists [_]. reflexivity.
  - exists []. rewrite app_nil_r. destruct s; reflexivity.
Qed.

(** C8, amended: for a TopicInfo the install operation has decoded,
    (1) with no entry under its topic name, and the message type
    resolving with the md5 sum of the TopicInfo, a new subscriber is
    created and stored under the name; (2) with an entry of the same
    message type the session is left as it is; (3) with an entry of
    another message type, and the new type resolving with the right md5
    sum, the old subscriber is unregistered first, then the new one is
    created and stored in its place; (4) where the type does not
    resolve or the md5 sums differ, the table is left as it is. *)
Theorem C8_install_subscriber (data : list byte) (msg : TopicInfo) (s : SerialClient) :
  TopicInfo_deserialize data = Ok msg ->
  (forall sub,
      subscribers s !! topic_name msg = None ->
      subscriber_for msg = Some sub ->
      subscribers (setupSubscriber data s).2 = <[topic_name msg := sub]> (subscribers s)
      /\ exists tail,
           new_events s (setupSubscriber data s).2
           = RosSubscriber (topic_name msg) (sub_message sub) :: tail)
  /\ (forall old,
         subscribers s !! topic_name msg = Some old ->
         message_type msg = _type (sub_message old) ->
         (setupSubscriber data s).2 = s)
  /\ (forall old sub,
         subscribers s !! topic_name msg = Some old ->
         message_type msg <> _type (sub_message old) ->
         subscriber_for msg = Some sub ->
         subscribers (setupSubscriber data s).2 = <[topic_name msg := sub]> (subscribers s)
         /\ exists tail,
              new_events s (setupSubscriber data s).2
              = Log INFO "Removing subscriber: %s" [AStr (sub_topic old)]
                :: RosUnregister (sub_topic old)
                :: RosSubscriber (topic_name msg) (sub_message sub) :: tail)
  /\ (subscriber_for msg = None ->
      subscribers (setupSubscriber data s).2 = subscribers s).
Proof.
  intros Hdes.
  assert (Hunfold : setupSubscriber data s
            = try_except
                ((match subscribers s !! topic_name msg with
                  | None =>
                      let* sub := Subscriber_init msg in
                      modify (fun s => set_subscribers (<[topic_name msg := sub]> (subscribers s)) s) ;;;
                      setSubscribeSize (Z.of_N (buffer_size msg)) ;;;
                      loginfo "Setup subscriber on %s [%s]"
                        [AStr (topic_name msg); AStr (message_type msg)]
                  | Some old =>
                      if negb (String.eqb (message_type msg) (_type (sub_message old)))
                      then
                        Subscriber_unregister old ;;;
                        let* sub := Subscriber_init msg in
                        modify (fun s => set_subscribers (<[topic_name msg := sub]> (subscribers s)) s) ;;;
                        setSubscribeSize (Z.of_N (buffer_size msg)) ;;;
                        loginfo "Change the message type of subscriber on %s from [%s] to [%s]"
                          [AStr (topic_name msg); AStr (_type (sub_message old));
                           AStr (message_type msg)]
                      else ret tt
                  end) ;;; ret tt)
                (fun e => Some (logerr "Creation of subscriber failed: %s" [AExn e])) s).
  { unfold setupSubscriber, except_log, try_except, bind, lift, gets.
    rewrite Hdes. reflexivity. }
  rewrite Hunfold. clear Hunfold.
  split; [|split; [|split]].
  - intros sub Hnone Hsub. rewrite Hnone.
    unfold try_except, bind. rewrite (Subscriber_init_some msg sub s Hsub).
    unfold loginfo, emit, modify.
    match goal with
    | |- context [setSubscribeSize ?n ?x] =>
        destruct (setSubscribeSize_total n x) as [evs ->]
    end.
    unfold ret. simpl.
    split; [reflexivity|].
    unfold new_events. simpl. rewrite <- ?app_assoc, drop_app_length. simpl. eauto.
  - intros old Hold Hty. rewrite Hold.
    replace (String.eqb (message_type msg) (_type (sub_message old))) with true
      by (symmetry; apply String.eqb_eq; exact Hty).
    reflexivity.
  - intros old sub Hold Hty Hsub. rewrite Hold.
    replace (String.eqb (message_type msg) (_type (sub_message old))) with false
      by (symmetry; apply String.eqb_neq; exact Hty).
    cbv beta iota delta [negb].
    unfold try_except, bind, Subscriber_unregister, bind, loginfo, emit, modify.
    rewrite (Subscriber_init_some msg sub _ Hsub).
    match goal with
    | |- context [setSubscribeSize ?n ?x] =>
        destruct (setSubscribeSize_total n x) as [evs ->]
    end.
    unfold modify, ret. simpl.
    split; [reflexivity|].
    unfold new_events. simpl. rewrite <- ?app_assoc, drop_app_length. simpl. eauto.
  - intros Hnone.
    destruct (subscribers s !! topic_name msg) as [old|] eqn:Hl.
    + destruct (negb (String.eqb (message_type msg) (_type (sub_message old))));
        [|reflexivity].
      unfold try_except, bind, Subscriber_unregister, bind, loginfo, emit, modify.
      match goal with
      | |- context [Subscriber_init msg ?x] =>
          destruct (Subscriber_init_none msg x Hnone) as [e ->]
      end.
      reflexivity.
    + unfold try_except, bind.
      destruct (Subscriber_init_none msg s Hnone) as [e ->].
      reflexivity.
Qed.

End InstallSubscriber.

(** C8 as the spec words it does not hold: a TopicInfo for a topic with
    no entry, whose md5 sum is not the one of the message type, installs
    nothing; the failure is logged and the table stays empty. *)
Lemma C8_md5_mismatch_installs_nothing :
  @TopicInfo_deserialize chatter_ros [] = Ok (chatter_info [])
  /\ subscribers chatter_session !! "chatter" = None
  /\ subscribers (@setupSubscriber chatter_ros [] chatter_session).2 !! "chatter" = None
  /\ new_events chatter_session (@setupSubscriber chatter_ros [] chatter_session).2
     = [Log ERROR "Creation of subscriber failed: %s"
          [AExn (Exception "Checksum does not match: 992ce8a1687cec8c8bd883ec73ca41d1,00000000000000000000000000000000")]].
Proof.
  split; [reflexivity|]. split; [reflexivity|]. split; vm_compute; reflexivity.
Qed.

Lemma C8_install_subscriber_witness :
  subscribers (@setupSubscriber chatter_ros [x01] chatter_session).2
  = <[topic_name (chatter_info [x01])
      := {| sub_topic := "chatter"; sub_id := 125;
            sub_message := {| _md5sum := "992ce8a1687cec8c8bd883ec73ca41d1";
                              _type := "std_msgs/String" |} |}]>
      (subscribers chatter_session)
  /\ exists tail,
       new_events chatter_session (@setupSubscriber chatter_ros [x01] chatter_session).2
       = RosSubscriber (topic_name (chatter_info [x01]))
           {| _md5sum := "992ce8a1687cec8c8bd883ec73ca41d1";
              _type := "std_msgs/String" |} :: tail.
Proof.
  apply (proj1 (@C8_install_subscriber chatter_ros [x01] (chatter_info [x01])
                  chatter_session eq_refl)
           {| sub_topic := "chatter"; sub_id := 125;
              sub_message := {| _md5sum := "992ce8a1687cec8c8bd883ec73ca41d1";
                                _type := "std_msgs/String" |} |}).
  - reflexivity.
  - reflexivity.
Defined.

(** ** The reader on the bytes of a frame *)

#[global] Instance session_kept_preorder : PreOrder session_kept.
Proof.
  split; unfold session_kept.
  - intros s. repeat split.
  - intros a b c Hab Hbc.
    destruct Hab as (?&?&?&?&?&?&?), Hbc as (?&?&?&?&?&?&?).
    repeat split; congruence.
Qed.

Ltac session_kept_leaf := unfold session_kept; simpl; repeat split.

Lemma tryRead_session_kept (n : Z) : stable session_kept (tryRead n).
Proof. stable_go session_kept_leaf. Qed.

Lemma read_frame_session_kept : stable session_kept read_frame.
Proof. pose proof tryRead_session_kept. stable_go session_kept_leaf. Qed.

(** Reading the bytes that are there, with what it keeps. *)
Lemma tryRead_here (s : SerialClient) (bs rest : list byte) :
  0 < timeout s -> stream s = bs ++ rest ->
  exists s', tryRead (len bs) s = (Ok bs, s')
             /\ stream s' = rest /\ untouched s s'.
Proof. apply tryRead_next. Qed.

Lemma step_untouched (r : ReadStep) (s : SerialClient) :
  untouched s (set_read_step (Some r) s).
Proof. unfold untouched. simpl. repeat split. Qed.

Lemma read_frame_on_frame (s : SerialClient)
    (l_lo l_hi cl t_lo t_hi cp : byte) (msg rest : list byte) :
  0 < timeout s ->
  stream s = [xff; xfe; l_lo; l_hi; cl; t_lo; t_hi] ++ msg ++ [cp] ++ rest ->
  length_checksum_ok l_lo l_hi cl ->
  len msg = struct.signed16 (byte_val l_lo + 256 * byte_val l_hi) ->
  exists s',
    read_frame s
    = (Ok (if payload_checksum_holds t_lo t_hi msg cp
           then Some (byte_val t_lo + 256 * byte_val t_hi, msg)
           else None), s')
    /\ stream s' = rest
    /\ new_events s s'
       = (if payload_checksum_holds t_lo t_hi msg cp
          then []
          else [Log INFO "wrong checksum for topic id and msg" []])
    /\ session_kept s s'.
Proof.
  intros Htmo Hs Hcl Hlen.
  unfold read_frame.
  rewrite bind_step.
  destruct (tryRead_here (set_read_step (Some step_syncflag) s) [xff]
              ([xfe; l_lo; l_hi; cl; t_lo; t_hi] ++ msg ++ [cp] ++ rest))
    as (s1 & E1 & S1 & U1); [exact Htmo | exact Hs |].
  change (len [xff]) with 1 in E1. rewrite (bind_ok _ _ _ _ _ E1).
  rewrite bool_decide_eq_true_2 by reflexivity. cbv beta iota delta [negb].
  rewrite bind_step.
  destruct (tryRead_here (set_read_step (Some step_protocol) s1) [xfe]
              ([l_lo; l_hi; cl; t_lo; t_hi] ++ msg ++ [cp] ++ rest))
    as (s2 & E2 & S2 & U2);
    [ simpl; rewrite (untouched_timeout _ _ U1); exact Htmo | exact S1 |].
  change (len [xfe]) with 1 in E2. rewrite (bind_ok _ _ _ _ _ E2).
  rewrite bool_decide_eq_true_2 by reflexivity. cbv beta iota delta [negb].
  rewrite bind_step.
  destruct (tryRead_here (set_read_step (Some step_message_length) s2) [l_lo; l_hi; cl]
              ([t_lo; t_hi] ++ msg ++ [cp] ++ rest))
    as (s3 & E3 & S3 & U3);
    [ simpl; rewrite (untouched_timeout _ _ U2); simpl;
      rewrite (untouched_timeout _ _ U1); exact Htmo | exact S2 |].
  change (len [l_lo; l_hi; cl]) with 3 in E3. rewrite (bind_ok _ _ _ _ _ E3).
  cbv beta iota delta [struct.unpack_hB]. rewrite bind_lift_ok. cbv beta zeta.
  assert (Hsum : sum_bytes [l_lo; l_hi; cl] mod 256 = 255).
  { unfold length_checksum_ok in Hcl. simpl. rewrite <- Hcl. f_equal. lia. }
  rewrite Hsum. change (255 =? 255) with true. cbv beta iota delta [negb].
  rewrite bind_step.
  destruct (tryRead_here (set_read_step (Some step_topic_id) s3) [t_lo; t_hi]
              (msg ++ [cp] ++ rest))
    as (s4 & E4 & S4 & U4);
    [ simpl; rewrite (untouched_timeout _ _ U3); simpl;
      rewrite (untouched_timeout _ _ U2); simpl;
      rewrite (untouched_timeout _ _ U1); exact Htmo | exact S3 |].
  change (len [t_lo; t_hi]) with 2 in E4. rewrite (bind_ok _ _ _ _ _ E4).
  cbv beta iota delta [struct.unpack_H]. rewrite bind_lift_ok.
  rewrite bind_step. simpl fst. rewrite <- Hlen.
  destruct (tryRead_here (set_read_step (Some step_data) s4) msg ([cp] ++ rest))
    as (s5 & E5 & S5 & U5);
    [ simpl; rewrite (untouched_timeout _ _ U4); simpl;
      rewrite (untouched_timeout _ _ U3); simpl;
      rewrite (untouched_timeout _ _ U2); simpl;
      rewrite (untouched_timeout _ _ U1); exact Htmo | exact S4 |].
  rewrite (bind_ok _ _ _ _ _ (try_except_ok _ _ _ _ _ E5)).
  rewrite bind_step.
  destruct (tryRead_here (set_read_step (Some step_data_checksum) s5) [cp] rest)
    as (s6 & E6 & S6 & U6);
    [ simpl; rewrite (untouched_timeout _ _ U5); simpl;
      rewrite (untouched_timeout _ _ U4); simpl;
      rewrite (untouched_timeout _ _ U3); simpl;
      rewrite (untouched_timeout _ _ U2); simpl;
      rewrite (untouched_timeout _ _ U1); exact Htmo | exact S5 |].
  change (len [cp]) with 1 in E6. rewrite (bind_ok _ _ _ _ _ E6).
  cbv zeta.
  assert (Hcp : sum_bytes ([t_lo; t_hi] ++ msg ++ [cp]) mod 256
                = (byte_val t_lo + byte_val t_hi + sum_bytes msg + byte_val cp) mod 256).
  { rewrite !sum_bytes_app. simpl. f_equal. lia. }
  rewrite Hcp. fold (payload_checksum_holds t_lo t_hi msg cp).
  assert (U : untouched s s6).
  { repeat (etransitivity; [apply step_untouched|]; etransitivity; [eassumption|]).
    reflexivity. }
  assert (K : session_kept s s6).
  { pose proof (tryRead_session_kept 1 (set_read_step (Some step_syncflag) s)) as K1.
    rewrite E1 in K1.
    pose proof (tryRead_session_kept 1 (set_read_step (Some step_protocol) s1)) as K2.
    rewrite E2 in K2.
    pose proof (tryRead_session_kept 3 (set_read_step (Some step_message_length) s2)) as K3.
    rewrite E3 in K3.
    pose proof (tryRead_session_kept 2 (set_read_step (Some step_topic_id) s3)) as K4.
    rewrite E4 in K4.
    pose proof (tryRead_session_kept (len msg) (set_read_step (Some step_data) s4)) as K5.
    rewrite E5 in K5.
    pose proof (tryRead_session_kept 1 (set_read_step (Some step_data_checksum) s5)) as K6.
    rewrite E6 in K6.
    simpl in K1, K2, K3, K4, K5, K6.
    assert (Hstep : forall r x, session_kept x (set_read_step r x))
      by (intros; unfold session_kept; simpl; repeat split).
    repeat (etransitivity; [apply Hstep|]; etransitivity; [eassumption|]).
    reflexivity. }
  destruct U as (_ & Utr & _).
  destruct (payload_checksum_holds t_lo t_hi msg cp).
  - exists s6. split; [reflexivity|]. split; [exact S6|].
    split; [|exact K].
    unfold new_events. rewrite Utr. apply drop_all.
  - unfold loginfo, emit, bind, modify, ret. eexists. split; [reflexivity|].
    simpl. split; [exact S6|]. split.
    + unfold new_events. simpl. rewrite Utr. apply drop_app_length.
    + destruct K as (?&?&?&?&?&?&?). unfold session_kept. simpl. auto 10.
Qed.

(** ** The synced flag *)

#[global] Instance keeps_synced_preorder : PreOrder keeps_synced.
Proof. split; unfold keeps_synced; [intros s; auto | intros a b c; auto]. Qed.

#[global] Instance synced_unchanged_preorder : PreOrder synced_unchanged.
Proof.
  split; unfold synced_unchanged; [intros s; reflexivity | intros a b c; congruence].
Qed.


Section SyncedFlag.

Context {ext : External}.











End SyncedFlag.


(** ** The negotiated buffer sizes *)

Section PublisherInit.

Context {ext : External}.

Lemma Publisher_init_some (msg : TopicInfo) (pub : Publisher) (s : SerialClient) :
  publisher_for msg = Some pub ->
  Publisher_init msg s
  = (Ok pub, set_trace (trace s ++ [RosPublisher (topic_name msg) (pub_message pub)]) s).
Proof.
  unfold publisher_for, Publisher_init, bind, lift, emit, modify, ret, raise.
  destruct (unpack2 (split_slash (message_type msg))) as [pm|e]; [|discriminate].
  destruct (load_message pm.1 pm.2) as [message|e]; [|discriminate].
  destruct (String.eqb (_md5sum message) (md5sum msg)); [|discriminate].
  intros [= <-]. reflexivity.
Qed.

Lemma Publisher_init_none (msg : TopicInfo) (s : SerialClient) :
  publisher_for msg = None ->
  exists e, Publisher_init msg s = (Raise e, s).
Proof.
  unfold publisher_for, Publisher_init, bind, lift, emit, modify, ret, raise.
  destruct (unpack2 (split_slash (message_type msg))) as [pm|e]; [|eauto].
  destruct (load_message pm.1 pm.2) as [message|e]; [|eauto].
  destruct (String.eqb (_md5sum message) (md5sum msg)); [discriminate|eauto].
Qed.

End PublisherInit.

Lemma write_once_refl (n : Z) : write_once n n.
Proof. left. reflexivity. Qed.

Lemma write_once_trans (a b c : Z) : write_once a b -> write_once b c -> write_once a c.
Proof. unfold write_once. lia. Qed.

#[global] Instance buffers_write_once_preorder : PreOrder buffers_write_once.
Proof.
  split; unfold buffers_write_once.
  - intros s. split; apply write_once_refl.
  - intros a b c [H1 H2] [H3 H4]. split; eapply write_once_trans; eassumption.
Qed.

Ltac buffers_leaf :=
  unfold buffers_write_once; simpl; split; apply write_once_refl.

Section BufferSizes.

Context {ext : External}.

Lemma setPublishSize_value (size : Z) (s : SerialClient) :
  buffer_out (setPublishSize size s).2 = (if buffer_out s <? 0 then size else buffer_out s)
  /\ buffer_in (setPublishSize size s).2 = buffer_in s.
Proof.
  unfold setPublishSize, loginfo, emit, bind, gets, modify, ret. simpl.
  destruct (buffer_out s <? 0); simpl; split; reflexivity.
Qed.

Lemma setSubscribeSize_value (size : Z) (s : SerialClient) :
  buffer_in (setSubscribeSize size s).2 = (if buffer_in s <? 0 then size else buffer_in s)
  /\ buffer_out (setSubscribeSize size s).2 = buffer_out s.
Proof.
  unfold setSubscribeSize, loginfo, emit, bind, gets, modify, ret. simpl.
  destruct (buffer_in s <? 0); simpl; split; reflexivity.
Qed.

Lemma setPublishSize_write_once (n : N) :
  stable buffers_write_once (setPublishSize (Z.of_N n)).
Proof.
  intros s. destruct (setPublishSize_value (Z.of_N n) s) as [Ho Hi].
  unfold buffers_write_once, write_once. rewrite Ho, Hi.
  destruct (buffer_out s <? 0) eqn:E; [apply Z.ltb_lt in E|]; lia.
Qed.

Lemma setSubscribeSize_write_once (n : N) :
  stable buffers_write_once (setSubscribeSize (Z.of_N n)).
Proof.
  intros s. destruct (setSubscribeSize_value (Z.of_N n) s) as [Hi Ho].
  unfold buffers_write_once, write_once. rewrite Ho, Hi.
  destruct (buffer_in s <? 0) eqn:E; [apply Z.ltb_lt in E|]; lia.
Qed.

Lemma write_retry_write_once fuel data :
  stable buffers_write_once (write_retry fuel data).
Proof.
  induction fuel as [|fuel IH]; simpl; stable_go buffers_leaf.
Qed.

Lemma processWriteQueue_write_once shutdowns :
  stable buffers_write_once (processWriteQueue shutdowns).
Proof.
  pose proof write_retry_write_once.
  induction shutdowns as [|b rest IH]; simpl; stable_go buffers_leaf.
Qed.

Lemma call_handler_write_once h msg :
  stable buffers_write_once (call_handler h msg).
Proof.
  pose proof setPublishSize_write_once. pose proof setSubscribeSize_write_once.
  stable_go buffers_leaf.
Qed.

Lemma run_body_write_once o : stable buffers_write_once (run_body o).
Proof.
  pose proof call_handler_write_once.
  stable_go buffers_leaf.
Qed.

Lemma run_write_once obs : stable buffers_write_once (run obs).
Proof.
  pose proof run_body_write_once.
  induction obs as [|o rest IH]; simpl; stable_go buffers_leaf.
Qed.

Lemma exec_write_once op : stable buffers_write_once (exec op).
Proof.
  pose proof run_write_once. pose proof processWriteQueue_write_once.
  pose proof call_handler_write_once.
  destruct op; simpl; stable_go buffers_leaf.
Qed.

Lemma exec_all_write_once ops : stable buffers_write_once (exec_all ops).
Proof.
  induction ops as [|op rest IH]; intros s; simpl.
  - reflexivity.
  - etransitivity; [apply (exec_write_once op s) | apply IH].
Qed.

Lemma setupPublisher_size (data : list byte) (msg : TopicInfo) (s : SerialClient) :
  TopicInfo_deserialize data = Ok msg ->
  match publisher_for msg with
  | Some _ => fixes_publish_size msg s (setupPublisher data s).2
  | None => buffer_out (setupPublisher data s).2 = buffer_out s
            /\ buffer_in (setupPublisher data s).2 = buffer_in s
  end.
Proof.
  intros Hd. remember (setupPublisher data s) as r eqn:E.
  unfold setupPublisher, except_log, try_except in E.
  unfold bind at 1 in E. unfold bind at 1 in E. unfold lift at 1 in E.
  rewrite Hd in E. unfold bind at 1 in E.
  destruct (publisher_for msg) as [pub|] eqn:Hpub.
  - rewrite (Publisher_init_some _ _ _ Hpub) in E.
    unfold setPublishSize, callback_put, loginfo, emit, bind, gets, modify, ret in E.
    simpl in E. unfold fixes_publish_size.
    destruct (publishers s !! Z.of_N (topic_id msg)); simpl in E;
      destruct (buffer_out s <? 0); simpl in E; subst r; split; reflexivity.
  - destruct (Publisher_init_none msg s Hpub) as [e He]. rewrite He in E.
    unfold logerr, emit, modify in E. simpl in E. subst r. split; reflexivity.
Qed.

Lemma setupSubscriber_size (data : list byte) (msg : TopicInfo) (sub : Subscriber)
    (s : SerialClient) :
  TopicInfo_deserialize data = Ok msg ->
  subscriber_for msg = Some sub ->
  match subscribers s !! topic_name msg with
  | None => True
  | Some old => message_type msg <> _type (sub_message old)
  end ->
  fixes_subscribe_size msg s (setupSubscriber data s).2.
Proof.
  intros Hd Hsub Hnew. remember (setupSubscriber data s) as r eqn:E.
  unfold setupSubscriber, except_log, try_except in E.
  unfold bind at 1 in E. unfold bind at 1 in E. unfold lift at 1 in E.
  rewrite Hd in E. unfold bind at 1 in E. unfold gets at 1 in E.
  unfold fixes_subscribe_size.
  destruct (subscribers s !! topic_name msg) as [old|].
  - apply String.eqb_neq in Hnew. rewrite Hnew in E. cbn [negb] in E.
    unfold Subscriber_unregister in E.
    unfold bind at 1 in E. unfold bind at 1 in E.
    unfold loginfo at 1, emit at 1, emit at 1, modify at 1, modify at 1 in E.
    cbv beta iota zeta in E.
    unfold bind at 1 in E. rewrite (Subscriber_init_some _ _ _ Hsub) in E.
    unfold setSubscribeSize, loginfo, emit, bind, gets, modify, ret in E.
    simpl in E. destruct (buffer_in s <? 0); simpl in E; subst r; split; reflexivity.
  - unfold bind at 1 in E. rewrite (Subscriber_init_some _ _ _ Hsub) in E.
    unfold setSubscribeSize, loginfo, emit, bind, gets, modify, ret in E.
    simpl in E. destruct (buffer_in s <? 0); simpl in E; subst r; split; reflexivity.
Qed.

Lemma setupSubscriber_same_type (data : list byte) (msg : TopicInfo) (old : Subscriber)
    (s : SerialClient) :
  TopicInfo_deserialize data = Ok msg ->
  subscribers s !! topic_name msg = Some old ->
  message_type msg = _type (sub_message old) ->
  setupSubscriber data s = (Ok tt, s).
Proof.
  intros Hd Hold Hty. unfold setupSubscriber, except_log, try_except.
  unfold bind at 1. unfold bind at 1. unfold lift at 1. rewrite Hd.
  unfold bind at 1. unfold gets at 1. rewrite Hold.
  apply String.eqb_eq in Hty. rewrite Hty. reflexivity.
Qed.

#[global] Instance buffer_sizes_kept_preorder : PreOrder buffer_sizes_kept.
Proof.
  split; unfold buffer_sizes_kept.
  - intros s. split; reflexivity.
  - intros a b c [H1 H2] [H3 H4]. split; congruence.
Qed.

Ltac sizes_kept_leaf := unfold buffer_sizes_kept; simpl; split; reflexivity.

Lemma setPublishSize_returns (size : Z) (s : SerialClient) :
  (setPublishSize size s).1 = Ok tt.
Proof.
  unfold setPublishSize, loginfo, emit, bind, gets, modify, ret. simpl.
  destruct (buffer_out s <? 0); reflexivity.
Qed.

Lemma setSubscribeSize_returns (size : Z) (s : SerialClient) :
  (setSubscribeSize size s).1 = Ok tt.
Proof.
  unfold setSubscribeSize, loginfo, emit, bind, gets, modify, ret. simpl.
  destruct (buffer_in s <? 0); reflexivity.
Qed.

(** An install that reports the size first, right after decoding the
    TopicInfo, goes on from the session the report leaves. *)
Lemma install_after_size {A : Type} (fmt : string) (data : list byte) (msg : TopicInfo)
    (size : Z -> M unit) (rest : TopicInfo -> M A) (s : SerialClient) :
  TopicInfo_deserialize data = Ok msg ->
  (size (Z.of_N (buffer_size msg)) s).1 = Ok tt ->
  except_log fmt
    (let* msg := lift (TopicInfo_deserialize data) in
     size (Z.of_N (buffer_size msg)) ;;; rest msg) s
  = except_log fmt (rest msg) (size (Z.of_N (buffer_size msg)) s).2.
Proof.
  intros Hd Hs. unfold except_log, try_except, bind, lift. rewrite Hd.
  destruct (size (Z.of_N (buffer_size msg)) s) as [r s1]. simpl in Hs. subst r.
  reflexivity.
Qed.

Lemma service_get_or_create_sizes_kept init what msg :
  stable buffer_sizes_kept (init msg) ->
  stable buffer_sizes_kept (service_get_or_create init what msg).
Proof. intros Hinit. stable_go sizes_kept_leaf. Qed.

Lemma ServiceServer_init_sizes_kept msg : stable buffer_sizes_kept (ServiceServer_init msg).
Proof. stable_go sizes_kept_leaf. Qed.

Lemma ServiceClient_init_sizes_kept msg : stable buffer_sizes_kept (ServiceClient_init msg).
Proof. stable_go sizes_kept_leaf. Qed.

Lemma setupServiceServerPublisher_size (data : list byte) (msg : TopicInfo)
    (s : SerialClient) :
  TopicInfo_deserialize data = Ok msg ->
  fixes_publish_size msg s (setupServiceServerPublisher data s).2.
Proof.
  intros Hd. unfold setupServiceServerPublisher.
  rewrite (install_after_size _ data msg setPublishSize _ s Hd (setPublishSize_returns _ _)).
  pose proof (service_get_or_create_sizes_kept ServiceServer_init
                "Setup service server on %s [%s]" msg (ServiceServer_init_sizes_kept msg)).
  match goal with
  | |- fixes_publish_size _ _ (?m ?s1).2 =>
      assert (Hk : stable buffer_sizes_kept m) by stable_go sizes_kept_leaf;
      destruct (Hk s1) as [Ho Hi]
  end.
  destruct (setPublishSize_value (Z.of_N (buffer_size msg)) s) as [Ho' Hi'].
  unfold fixes_publish_size. split; congruence.
Qed.

Lemma setupServiceClientPublisher_size (data : list byte) (msg : TopicInfo)
    (s : SerialClient) :
  TopicInfo_deserialize data = Ok msg ->
  fixes_publish_size msg s (setupServiceClientPublisher data s).2.
Proof.
  intros Hd. unfold setupServiceClientPublisher.
  rewrite (install_after_size _ data msg setPublishSize _ s Hd (setPublishSize_returns _ _)).
  pose proof (service_get_or_create_sizes_kept ServiceClient_init
                "Setup service client on %s [%s]" msg (ServiceClient_init_sizes_kept msg)).
  match goal with
  | |- fixes_publish_size _ _ (?m ?s1).2 =>
      assert (Hk : stable buffer_sizes_kept m) by stable_go sizes_kept_leaf;
      destruct (Hk s1) as [Ho Hi]
  end.
  destruct (setPublishSize_value (Z.of_N (buffer_size msg)) s) as [Ho' Hi'].
  unfold fixes_publish_size. split; congruence.
Qed.

Lemma setupServiceServerSubscriber_size (data : list byte) (msg : TopicInfo)
    (s : SerialClient) :
  TopicInfo_deserialize data = Ok msg ->
  fixes_subscribe_size msg s (setupServiceServerSubscriber data s).2.
Proof.
  intros Hd. unfold setupServiceServerSubscriber.
  rewrite (install_after_size _ data msg setSubscribeSize _ s Hd
             (setSubscribeSize_returns _ _)).
  pose proof (service_get_or_create_sizes_kept ServiceServer_init
                "Setup service server on %s [%s]" msg (ServiceServer_init_sizes_kept msg)).
  match goal with
  | |- fixes_subscribe_size _ _ (?m ?s1).2 =>
      assert (Hk : stable buffer_sizes_kept m) by stable_go sizes_kept_leaf;
      destruct (Hk s1) as [Ho Hi]
  end.
  destruct (setSubscribeSize_value (Z.of_N (buffer_size msg)) s) as [Hi' Ho'].
  unfold fixes_subscribe_size. split; congruence.
Qed.

Lemma setupServiceClientSubscriber_size (data : list byte) (msg : TopicInfo)
    (s : SerialClient) :
  TopicInfo_deserialize data = Ok msg ->
  fixes_subscribe_size msg s (setupServiceClientSubscriber data s).2.
Proof.
  intros Hd. unfold setupServiceClientSubscriber.
  rewrite (install_after_size _ data msg setSubscribeSize _ s Hd
             (setSubscribeSize_returns _ _)).
  pose proof (service_get_or_create_sizes_kept ServiceClient_init
                "Setup service client on %s [%s]" msg (ServiceClient_init_sizes_kept msg)).
  match goal with
  | |- fixes_subscribe_size _ _ (?m ?s1).2 =>
      assert (Hk : stable buffer_sizes_kept m) by stable_go sizes_kept_leaf;
      destruct (Hk s1) as [Ho Hi]
  end.
  destruct (setSubscribeSize_value (Z.of_N (buffer_size msg)) s) as [Hi' Ho'].
  unfold fixes_subscribe_size. split; congruence.
Qed.

(** C10: the publish-buffer and subscribe-buffer sizes of a session are
    write-once.  Both are -1 after construction.  An endpoint install
    fixes the size of its side where none was fixed, and leaves the
    other side's: the publish-buffer size is taken from the TopicInfo
    by [setupPublisher] when it creates its publisher and by the
    publisher half of a service server or client as soon as the
    TopicInfo decodes; the subscribe-buffer size by [setupSubscriber]
    when it creates its subscriber and by the subscriber half of a
    service server or client as soon as the TopicInfo decodes; a
    publisher that is not created fixes nothing, nor does the
    announcement of a subscriber that is present with the same message
    type, which leaves the session as it is.  [setPublishSize] and
    [setSubscribeSize] assign only while the stored value is negative;
    and over any operation of the session, and any sequence of them,
    each value either stays or goes once from a negative value to one
    that is not, so that a size once fixed is left unchanged by every
    later install, whatever buffer size its TopicInfo carries. *)
Theorem C10_buffer_sizes_are_write_once :
  (forall p tmo fix_test clk s,
      SerialClient_init p tmo fix_test clk false = Some s ->
      buffer_out s = -1 /\ buffer_in s = -1)
  /\ (forall data msg s,
         TopicInfo_deserialize data = Ok msg ->
         match publisher_for msg with
         | Some _ => fixes_publish_size msg s (setupPublisher data s).2
         | None => buffer_out (setupPublisher data s).2 = buffer_out s
                   /\ buffer_in (setupPublisher data s).2 = buffer_in s
         end)
  /\ (forall data msg sub s,
         TopicInfo_deserialize data = Ok msg ->
         subscriber_for msg = Some sub ->
         match subscribers s !! topic_name msg with
         | None => True
         | Some old => message_type msg <> _type (sub_message old)
         end ->
         fixes_subscribe_size msg s (setupSubscriber data s).2)
  /\ (forall data msg old s,
         TopicInfo_deserialize data = Ok msg ->
         subscribers s !! topic_name msg = Some old ->
         message_type msg = _type (sub_message old) ->
         setupSubscriber data s = (Ok tt, s))
  /\ (forall data msg s,
         TopicInfo_deserialize data = Ok msg ->
         fixes_publish_size msg s (setupServiceServerPublisher data s).2
         /\ fixes_publish_size msg s (setupServiceClientPublisher data s).2
         /\ fixes_subscribe_size msg s (setupServiceServerSubscriber data s).2
         /\ fixes_subscribe_size msg s (setupServiceClientSubscriber data s).2)
  /\ (forall size s,
         buffer_out (setPublishSize size s).2
         = (if buffer_out s <? 0 then size else buffer_out s))
  /\ (forall size s,
         buffer_in (setSubscribeSize size s).2
         = (if buffer_in s <? 0 then size else buffer_in s))
  /\ (forall ops s,
         write_once (buffer_out s) (buffer_out (exec_all ops s).2)
         /\ write_once (buffer_in s) (buffer_in (exec_all ops s).2))
  /\ (forall ops s,
         (0 <= buffer_out s -> buffer_out (exec_all ops s).2 = buffer_out s)
         /\ (0 <= buffer_in s -> buffer_in (exec_all ops s).2 = buffer_in s)).
Proof.
  split; [|split; [|split; [|split; [|split; [|split; [|split; [|split]]]]]]].
  - intros p tmo fix_test clk s [= <-].
    unfold requestTopics, flush_unless_test, port_flushInput, try_except,
      bind, gets, modify_port, modify, loginfo, emit, queue_put, ret, raise, Time_now.
    simpl. destruct fix_test; simpl; [split; reflexivity|].
    destruct (flushInput p); split; reflexivity.
  - intros data msg s. apply setupPublisher_size.
  - intros data msg sub s. apply setupSubscriber_size.
  - intros data msg old s. apply setupSubscriber_same_type.
  - intros data msg s Hd.
    split; [apply setupServiceServerPublisher_size, Hd|].
    split; [apply setupServiceClientPublisher_size, Hd|].
    split; [apply setupServiceServerSubscriber_size, Hd|].
    apply setupServiceClientSubscriber_size, Hd.
  - intros size s. apply setPublishSize_value.
  - intros size s. apply setSubscribeSize_value.
  - intros ops s. apply (exec_all_write_once ops s).
  - intros ops s. destruct (exec_all_write_once ops s) as [Ho Hi].
    unfold write_once in *. split; intros H; lia.
Qed.

End BufferSizes.

Lemma C10_buffer_sizes_are_write_once_witness :
  buffer_out chatter_session = -1
  /\ buffer_out (@setupPublisher chatter_ros [x01] chatter_session).2 = 512
  /\ buffer_in (@setupPublisher chatter_ros [x01] chatter_session).2 = -1.
Proof.
  split; [reflexivity|].
  apply (proj1 (proj2 (@C10_buffer_sizes_are_write_once chatter_ros))
           [x01] (chatter_info [x01]) chatter_session).
  reflexivity.
Defined.

(** * More of the session *)

(** ** The control requests *)

(** [requestTopics] and [txStopRequest] never raise.  Each appends its
    frame to the write queue, the frame of topic id 0, respectively 11,
    with an empty payload, and writes nothing itself.  The input buffer
    is emptied exactly when the session is not in its pyserial test mode
    and the port's [flushInput] empties it, as a serial port's and the
    datagram server's do; it is left as it is in the test mode, by a
    [flushInput] that does nothing, as the TCP server's, and where the
    port has none.  The bytes still in flight stay. *)
Theorem control_requests_queue_their_frame (s : SerialClient) :
  (exists s',
      requestTopics s = (Ok tt, s')
      /\ write_queue s' = write_queue s ++ [QBytes (spec_frame 0 [])]
      /\ buffered (port s') = after_flush s
      /\ inflight (port s') = inflight (port s)
      /\ written (port s') = written (port s))
  /\ (exists s',
         txStopRequest s = (Ok tt, s')
         /\ write_queue s' = write_queue s ++ [QBytes (spec_frame 11 [])]
         /\ buffered (port s') = after_flush s
         /\ inflight (port s') = inflight (port s)
         /\ written (port s') = written (port s))
  /\ after_flush s
     = (if fix_pyserial_for_test s then buffered (port s)
        else match flushInput (port s) with
             | flushInput_empties => []
             | flushInput_pass | flushInput_missing => buffered (port s)
             end).
Proof.
  unfold requestTopics, txStopRequest, flush_unless_test, port_flushInput,
    try_except, after_flush, bind, gets, modify_port, modify, loginfo, emit,
    queue_put, ret, raise.
  simpl.
  destruct (fix_pyserial_for_test s); simpl;
    [| unfold flush_empties; destruct (flushInput (port s)); simpl ];
    (split; [|split; [|reflexivity]]; eexists; (split; [reflexivity|]); simpl; auto).
Qed.

(** ** The writer's queue *)

Lemma _write_ok (data : list byte) (s : SerialClient) :
  next_write_ok (port s) = true ->
  exists s', _write data s = (Ok tt, s')
             /\ written (port s') = written (port s) ++ [data]
             /\ write_faults (port s') = tl (write_faults (port s))
             /\ write_queue s' = write_queue s
             /\ buffer_in s' = buffer_in s
             /\ trace s' = trace s.
Proof.
  unfold next_write_ok, _write, port_write, modify_port, Time_now, bind, gets, modify, ret.
  destruct (write_faults (port s)) as [|[e|] fs] eqn:Ef; [| discriminate |];
    intros _; simpl; eexists; (split; [reflexivity|]); simpl; rewrite ?Ef; auto 10.
Qed.

(** A write that raises has met the fault at the head of the script, and
    has written what the port had sent by then. *)
Lemma _write_raise (data : list byte) (s s1 : SerialClient) (e : exn) :
  _write data s = (Raise e, s1) ->
  exists fs, write_faults (port s) = Some e :: fs
             /\ write_faults (port s1) = fs
             /\ written (port s1)
                = written (port s) ++ sent_before e (sent_before_fault (port s)) data
             /\ write_queue s1 = write_queue s
             /\ trace s1 = trace s.
Proof.
  unfold _write, port_write, modify_port, Time_now, bind, gets, modify, ret, raise.
  destruct (write_faults (port s)) as [|[e'|] fs] eqn:Ef; simpl;
    intros [= ]; subst. exists fs. simpl. auto.
Qed.

Lemma pack_h_raise (n : Z) (e : exn) : struct.pack_h n = Raise e -> e = StructError.
Proof.
  unfold struct.pack_h. destruct ((-32768 <=? n) && (n <=? 32767)); congruence.
Qed.

Lemma pack_B_raise (n : Z) (e : exn) : struct.pack_B n = Raise e -> e = StructError.
Proof.
  unfold struct.pack_B. destruct ((0 <=? n) && (n <=? 255)); congruence.
Qed.

Lemma _send_timeout (topic : Z) (msg : list byte) (s s1 : SerialClient) :
  _send topic msg s = (Raise SerialTimeoutException, s1) ->
  exists fs, write_faults (port s) = Some SerialTimeoutException :: fs
             /\ write_faults (port s1) = fs.
Proof.
  unfold _send, unbound_name. cbv zeta.
  unfold bind at 1, gets at 1.
  destruct ((0 <? buffer_in s) && (buffer_in s <? len msg)); [discriminate|].
  destruct (struct.pack_h (len msg)) as [lb|e1] eqn:E1;
    [| apply pack_h_raise in E1; subst; discriminate].
  unfold bind at 1, lift at 1.
  destruct (struct.pack_B (255 - sum_bytes lb mod 256)) as [cb|e2] eqn:E2;
    [| apply pack_B_raise in E2; subst; discriminate].
  unfold bind at 1, lift at 1.
  destruct (struct.pack_h topic) as [tb|e3] eqn:E3;
    [| apply pack_h_raise in E3; subst; discriminate].
  unfold bind at 1, lift at 1.
  destruct (struct.pack_B (255 - sum_bytes (tb ++ msg) mod 256)) as [mb|e4] eqn:E4;
    [| apply pack_B_raise in E4; subst; discriminate].
  unfold bind at 1, lift at 1.
  unfold bind at 1.
  destruct (_write _ s) as [[[]|e] s2] eqn:E; [discriminate|].
  intros [= -> ->].
  apply _write_raise in E as (fs & H1 & H2 & _). eauto.
Qed.

Lemma write_item_timeout (data : QueueItem) (s s1 : SerialClient) :
  write_item data s = (Raise SerialTimeoutException, s1) ->
  exists fs, write_faults (port s) = Some SerialTimeoutException :: fs
             /\ write_faults (port s1) = fs.
Proof.
  destruct data as [topic msg|d|ty]; simpl.
  - unfold bind. destruct (_send topic msg s) as [[n|e] s2] eqn:E; [discriminate|].
    intros [= -> ->]. apply _send_timeout in E. exact E.
  - intros E. apply _write_raise in E as (fs & H1 & H2 & _). eauto.
  - discriminate.
Qed.

(** The retry loop ends: with as many retries as faults are scripted it
    is left by [break] or by an exception, never for want of fuel. *)
Lemma write_retry_ends (fuel : nat) (data : QueueItem) (s : SerialClient) :
  (List.length (write_faults (port s)) <= fuel)%nat ->
  (write_retry fuel data s).1 <> Ok false.
Proof.
  revert s. induction fuel as [|fuel IH]; intros s Hf.
  - simpl. unfold try_except, bind.
    destruct (write_item data s) as [[[]|e] s1] eqn:E; simpl; [discriminate|].
    destruct e; simpl; try discriminate.
    apply write_item_timeout in E as (fs & H1 & _).
    rewrite H1 in Hf. simpl in Hf. lia.
  - simpl. unfold try_except, bind.
    destruct (write_item data s) as [[[]|e] s1] eqn:E; simpl; [discriminate|].
    destruct e; simpl; try discriminate.
    apply write_item_timeout in E as (fs & H1 & H2).
    apply IH. simpl. rewrite H2. rewrite H1 in Hf. simpl in Hf. lia.
Qed.

(** Within its range [_send] is [_write] on the frame of the message. *)
Lemma _send_as_write (s : SerialClient) (topic : Z) (msg : list byte) :
  0 <= topic <= 32767 -> len msg <= 32767 -> fits_buffer s msg = true ->
  _send topic msg s = (_write (spec_frame topic msg) ;;; ret (len msg)) s.
Proof.
  intros Ht Hl Hfit.
  assert (Hl0 : 0 <= len msg <= 32767) by (unfold len in *; lia).
  unfold _send, fits_buffer in *. apply negb_true_iff in Hfit.
  unfold bind at 1, gets at 1. rewrite Hfit.
  rewrite (pack_h_ok _ Hl0), (pack_h_ok _ Ht).
  unfold bind at 1, lift at 1.
  rewrite pack_B_checksum.
  unfold bind at 1, lift at 1.
  unfold bind at 1, lift at 1.
  rewrite pack_B_checksum.
  unfold bind at 1, lift at 1.
  assert (Hsum : sum_bytes ([byte_of_Z topic; byte_of_Z (topic / 256)] ++ msg)
                 = byte_val (byte_of_Z topic) + byte_val (byte_of_Z (topic / 256)) + sum_bytes msg).
  { rewrite sum_bytes_app. simpl. lia. }
  rewrite Hsum.
  replace (sum_bytes [byte_of_Z (len msg); byte_of_Z (len msg / 256)])
    with (byte_val (byte_of_Z (len msg)) + byte_val (byte_of_Z (len msg / 256)))
    by (simpl; lia).
  reflexivity.
Qed.

Lemma _write_fault (data : list byte) (s : SerialClient) (e : exn) (fs : list (option exn)) :
  write_faults (port s) = Some e :: fs ->
  exists s1, _write data s = (Raise e, s1)
             /\ write_faults (port s1) = fs
             /\ sent_before_fault (port s1) = sent_before_fault (port s)
             /\ written (port s1)
                = written (port s) ++ sent_before e (sent_before_fault (port s)) data
             /\ write_queue s1 = write_queue s
             /\ buffer_in s1 = buffer_in s
             /\ trace s1 = trace s.
Proof.
  intros Hf.
  unfold _write, port_write, modify_port, Time_now, bind, gets, modify, ret, raise.
  rewrite Hf. simpl. eexists. split; [reflexivity|]. simpl. auto 10.
Qed.

(** One attempt at an item that goes on the wire: with the port taking
    the write, it is written whole. *)
Lemma write_item_ok (item : QueueItem) (s : SerialClient) :
  sendable s item -> next_write_ok (port s) = true ->
  exists s1, write_item item s = (Ok tt, s1)
             /\ written (port s1) = written (port s) ++ wire_of item
             /\ (wire_of item <> [] -> trace s1 = trace s
                 /\ write_faults (port s1) = tl (write_faults (port s)))
             /\ (wire_of item = [] -> write_faults (port s1) = write_faults (port s))
             /\ write_queue s1 = write_queue s
             /\ buffer_in s1 = buffer_in s.
Proof.
  intros Hs Hw. destruct item as [topic msg|d|ty]; simpl in *.
  - destruct Hs as (Ht & Hl & Hfit).
    unfold bind. rewrite (_send_as_write s topic msg Ht Hl Hfit).
    destruct (_write_ok (spec_frame topic msg) s Hw) as (s1 & E & H1 & H2 & H3 & H4 & H5).
    exists s1. unfold bind. rewrite E. simpl.
    split; [reflexivity|]. split; [exact H1|]. split; [auto|].
    split; [intros [=]|]. auto.
  - destruct (_write_ok d s Hw) as (s1 & E & H1 & H2 & H3 & H4 & H5).
    exists s1. split; [exact E|]. split; [exact H1|]. split; [auto|].
    split; [intros [=]|]. auto.
  - unfold logerr, emit, modify. eexists. split; [reflexivity|]. simpl.
    rewrite app_nil_r. split; [reflexivity|]. split; [intros H; congruence|]. auto.
Qed.

(** One attempt that meets a fault: the exception comes out, and what
    the port had sent of the item by then is on the wire. *)
Lemma write_item_fault (item : QueueItem) (s : SerialClient) (e : exn)
    (fs : list (option exn)) :
  sendable s item -> wire_of item <> [] ->
  write_faults (port s) = Some e :: fs ->
  exists s1, write_item item s = (Raise e, s1)
             /\ write_faults (port s1) = fs
             /\ sent_before_fault (port s1) = sent_before_fault (port s)
             /\ written (port s1)
                = written (port s)
                  ++ concat (map (sent_before e (sent_before_fault (port s))) (wire_of item))
             /\ write_queue s1 = write_queue s
             /\ buffer_in s1 = buffer_in s
             /\ trace s1 = trace s.
Proof.
  intros Hs Hne Hf. destruct item as [topic msg|d|ty]; simpl in *.
  - destruct Hs as (Ht & Hl & Hfit).
    unfold bind. rewrite (_send_as_write s topic msg Ht Hl Hfit).
    destruct (_write_fault (spec_frame topic msg) s e fs Hf) as (s1 & E & H).
    exists s1. unfold bind. rewrite E. rewrite app_nil_r.
    split; [reflexivity | exact H].
  - rewrite app_nil_r. apply _write_fault, Hf.
  - congruence.
Qed.

Lemma timeout_sends_nothing (k : nat) (wire : list (list byte)) :
  concat (map (sent_before SerialTimeoutException k) wire) = [].
Proof. induction wire as [|d wire IH]; simpl; [reflexivity | exact IH]. Qed.

Lemma sendable_buffer_in (s s' : SerialClient) (item : QueueItem) :
  buffer_in s' = buffer_in s -> sendable s item -> sendable s' item.
Proof.
  intros Hb. destruct item; simpl; [|auto|auto].
  unfold fits_buffer. rewrite Hb. auto.
Qed.

Lemma processWriteQueue_waits (n : nat) (s : SerialClient) :
  write_queue s = [] -> processWriteQueue (repeat false n) s = (Ok StillRunning, s).
Proof.
  intros Hq. induction n as [|n IH]; [reflexivity|].
  simpl repeat. rewrite processWriteQueue_turn.
  rewrite (bind_ok _ _ _ _ _ (processWriteQueue_body_idle s Hq)). exact IH.
Qed.

(** With a port that takes every write, the writer puts the queued items
    on the wire in queue order, each once: raw frames as they are, tuples
    as their frames, and an item of another type not at all; the queue is
    empty afterwards. *)
Theorem writer_keeps_queue_order (queue : list QueueItem) (s : SerialClient) (n : nat) :
  write_queue s = queue ->
  write_faults (port s) = [] ->
  Forall (sendable s) queue ->
  (List.length queue <= n)%nat ->
  exists s',
    processWriteQueue (repeat false n) s = (Ok StillRunning, s')
    /\ write_queue s' = []
    /\ written (port s') = written (port s) ++ concat (map wire_of queue).
Proof.
  revert s n. induction queue as [|item rest IH]; intros s n Hq Hf Hs Hn.
  - exists s. rewrite (processWriteQueue_waits n s Hq). simpl.
    rewrite app_nil_r. auto.
  - destruct n as [|n]; [simpl in Hn; lia|].
    inversion Hs as [|? ? Hitem Hrest]; subst.
    simpl repeat. rewrite processWriteQueue_turn.
    rewrite (bind_ok _ _ _ true
               (write_retry (List.length (write_faults (port s))) item
                  (set_write_queue rest s)).2).
    2:{ rewrite (processWriteQueue_body_item s item rest Hq).
        rewrite Hf. simpl. unfold try_except, bind.
        destruct (write_item_ok item (set_write_queue rest s)) as (s1 & E & _);
          [exact Hitem | unfold next_write_ok; simpl; rewrite Hf; reflexivity |].
        rewrite E. reflexivity. }
    destruct (write_item_ok item (set_write_queue rest s)) as (s1 & E & Hw & Hne & Hnil & Hq1 & Hb);
      [exact Hitem | unfold next_write_ok; simpl; rewrite Hf; reflexivity |].
    assert (Es1 : (write_retry (List.length (write_faults (port s))) item
                     (set_write_queue rest s)).2 = s1).
    { rewrite Hf. simpl. unfold try_except, bind. rewrite E. reflexivity. }
    rewrite Es1.
    assert (Hf1 : write_faults (port s1) = []).
    { destruct (wire_of item) eqn:Ew.
      - rewrite (Hnil eq_refl). simpl. exact Hf.
      - destruct Hne as [_ ->]; [congruence|]. simpl. rewrite Hf. reflexivity. }
    destruct (IH s1 n) as (s' & Erun & Hq' & Hw'); [exact Hq1 | exact Hf1 | | simpl in Hn; lia |].
    { eapply Forall_impl; [exact Hrest|]. intros x Hx.
      eapply sendable_buffer_in; [|exact Hx]. exact Hb. }
    exists s'. split; [exact Erun|]. split; [exact Hq'|].
    rewrite Hw', Hw. simpl. rewrite <- app_assoc. reflexivity.
Qed.

Lemma writer_keeps_queue_order_witness :
  exists s',
    processWriteQueue (repeat false 3)
      (set_write_queue [QBytes request_topics_frame; QTuple 42 [x01; x02; x03]; QOther "int"]
         (session_on []))
    = (Ok StillRunning, s')
    /\ write_queue s' = []
    /\ written (port s')
       = written (port (set_write_queue
                          [QBytes request_topics_frame; QTuple 42 [x01; x02; x03]; QOther "int"]
                          (session_on [])))
         ++ concat (map wire_of
                      [QBytes request_topics_frame; QTuple 42 [x01; x02; x03]; QOther "int"]).
Proof.
  apply (writer_keeps_queue_order
           [QBytes request_topics_frame; QTuple 42 [x01; x02; x03]; QOther "int"]
           (set_write_queue
              [QBytes request_topics_frame; QTuple 42 [x01; x02; x03]; QOther "int"]
              (session_on []))
           3).
  - reflexivity.
  - reflexivity.
  - constructor; [exact I|]. constructor; [simpl; repeat split; vm_compute; first [reflexivity | discriminate]|].
    constructor; [exact I|]. constructor.
  - simpl. lia.
Defined.

(** The retry loop on [k] write timeouts in a row. *)
Lemma write_retry_timeouts (k : nat) (item : QueueItem) :
  forall (fuel : nat) (s : SerialClient) (tail : list (option exn)),
    sendable s item -> wire_of item <> [] ->
    write_faults (port s) = repeat (Some SerialTimeoutException) k ++ tail ->
    next_write_ok (set_write_faults tail (port s)) = true ->
    (k <= fuel)%nat ->
    exists s',
      write_retry fuel item s = (Ok true, s')
      /\ written (port s') = written (port s) ++ wire_of item
      /\ trace s' = trace s ++ repeat (Log ERROR "Write timeout: %s" [AExn SerialTimeoutException]) k
      /\ write_faults (port s') = tl tail
      /\ write_queue s' = write_queue s.
Proof.
  induction k as [|k IH]; intros fuel s tail Hs Hne Hf Hok Hk.
  - simpl in Hf.
    destruct (write_item_ok item s Hs) as (s1 & E & Hw & Htr & _ & Hq & _).
    { unfold next_write_ok in *. simpl in Hok. rewrite Hf. exact Hok. }
    destruct (Htr Hne) as [Ht Hfs].
    exists s1. split.
    { destruct fuel; simpl; unfold try_except, bind; rewrite E; reflexivity. }
    simpl. rewrite app_nil_r, Hfs, Hf. auto.
  - simpl in Hf. destruct fuel as [|fuel]; [lia|].
    destruct (write_item_fault item s SerialTimeoutException
                (repeat (Some SerialTimeoutException) k ++ tail) Hs Hne Hf)
      as (s1 & E & Hf1 & _ & Hw1 & Hq1 & Hb1 & Ht1).
    rewrite timeout_sends_nothing, app_nil_r in Hw1.
    set (s2 := set_trace (trace s1 ++ [Log ERROR "Write timeout: %s" [AExn SerialTimeoutException]]) s1).
    destruct (IH fuel s2 tail) as (s' & E' & Hw' & Ht' & Hf' & Hq').
    { eapply sendable_buffer_in; [|exact Hs]. exact Hb1. }
    { exact Hne. }
    { exact Hf1. }
    { exact Hok. }
    { lia. }
    exists s'. split.
    { simpl. unfold try_except, bind. rewrite E. exact E'. }
    rewrite Hw', Ht', Hf', Hq'. subst s2. simpl.
    rewrite Hw1, Ht1, Hq1, <- app_assoc. auto.
Qed.

(** A write that times out is tried again: after [k] timeouts in a row
    the item at the head of the queue is on the wire once, whole, with
    one error logged for each timeout, and it is off the queue. *)
Theorem write_timeout_is_retried (s : SerialClient) (item : QueueItem)
    (rest : list QueueItem) (k : nat) (tail : list (option exn)) :
  write_queue s = item :: rest ->
  sendable s item -> wire_of item <> [] ->
  write_faults (port s) = repeat (Some SerialTimeoutException) k ++ tail ->
  next_write_ok (set_write_faults tail (port s)) = true ->
  exists s',
    processWriteQueue_body s = (Ok true, s')
    /\ written (port s') = written (port s) ++ wire_of item
    /\ new_events s s' = repeat (Log ERROR "Write timeout: %s" [AExn SerialTimeoutException]) k
    /\ write_faults (port s') = tl tail
    /\ write_queue s' = rest.
Proof.
  intros Hq Hs Hne Hf Hok.
  rewrite (processWriteQueue_body_item s item rest Hq).
  destruct (write_retry_timeouts k item (List.length (write_faults (port s)))
              (set_write_queue rest s) tail)
    as (s' & E & Hw & Ht & Hf' & Hq'); try assumption.
  { rewrite Hf, length_app, repeat_length. lia. }
  exists s'. split; [exact E|]. split; [exact Hw|].
  split; [unfold new_events; rewrite Ht; apply drop_app_length|].
  split; [exact Hf' | exact Hq'].
Qed.

Lemma write_timeout_is_retried_witness :
  exists s',
    processWriteQueue_body
      (set_port (set_write_faults [Some SerialTimeoutException; Some SerialTimeoutException; None; Some RuntimeError]
                   (port_with []))
         (set_write_queue [QTuple 7 [x09]; QBytes tx_stop_frame] (session_on [])))
    = (Ok true, s')
    /\ written (port s') = [] ++ wire_of (QTuple 7 [x09])
    /\ new_events
         (set_port (set_write_faults [Some SerialTimeoutException; Some SerialTimeoutException; None; Some RuntimeError]
                      (port_with []))
            (set_write_queue [QTuple 7 [x09]; QBytes tx_stop_frame] (session_on [])))
         s'
       = repeat (Log ERROR "Write timeout: %s" [AExn SerialTimeoutException]) 2
    /\ write_faults (port s') = tl [None; Some RuntimeError]
    /\ write_queue s' = [QBytes tx_stop_frame].
Proof.
  apply (write_timeout_is_retried
           (set_port (set_write_faults [Some SerialTimeoutException; Some SerialTimeoutException; None; Some RuntimeError]
                        (port_with []))
              (set_write_queue [QTuple 7 [x09]; QBytes tx_stop_frame] (session_on [])))
           (QTuple 7 [x09]) [QBytes tx_stop_frame] 2 [None; Some RuntimeError]).
  - reflexivity.
  - simpl. repeat split; vm_compute; first [reflexivity | discriminate].
  - discriminate.
  - reflexivity.
  - reflexivity.
Defined.

(** A [RuntimeError] from the port loses the rest of the item and not
    the writer: the item is taken off the queue and is not tried again,
    so that of its bytes only those the port had sent before it raised
    are on the wire, a beginning of the item and possibly none of it; the
    error is logged, and the turn ends as after a write that went
    well. *)
Theorem write_runtime_error_drops_item (s : SerialClient) (item : QueueItem)
    (data : list byte) (rest : list QueueItem) (tail : list (option exn)) :
  write_queue s = item :: rest ->
  sendable s item -> wire_of item = [data] ->
  write_faults (port s) = Some RuntimeError :: tail ->
  exists s',
    processWriteQueue_body s = (Ok true, s')
    /\ written (port s')
       = written (port s) ++ sent_before RuntimeError (sent_before_fault (port s)) data
    /\ concat (written (port s'))
       = concat (written (port s)) ++ take (sent_before_fault (port s)) data
    /\ new_events s s' = [Log ERROR "Write thread exception: %s" [AExn RuntimeError]]
    /\ write_faults (port s') = tail
    /\ write_queue s' = rest.
Proof.
  intros Hq Hs Hw Hf.
  rewrite (processWriteQueue_body_item s item rest Hq).
  destruct (write_item_fault item (set_write_queue rest s) RuntimeError tail Hs
              ltac:(rewrite Hw; discriminate) Hf)
    as (s1 & E & Hf1 & _ & Hw1 & Hq1 & _ & Ht1).
  rewrite Hw in Hw1. simpl in Hw1. rewrite app_nil_r in Hw1.
  eexists. split.
  { rewrite Hf. simpl. unfold try_except, bind. rewrite E. reflexivity. }
  simpl. rewrite Hw1, Hf1, Hq1. split; [reflexivity|].
  split.
  { rewrite concat_app. f_equal. unfold sent_before.
    destruct (take (sent_before_fault (port s)) data); simpl;
      rewrite ?app_nil_r; reflexivity. }
  split; [unfold new_events; simpl; rewrite Ht1; apply drop_app_length|]. auto.
Qed.

Lemma write_runtime_error_drops_item_witness :
  exists s',
    processWriteQueue_body
      (set_port {| buffered := []; inflight := []; written := [];
                   write_faults := [Some RuntimeError]; sent_before_fault := 3;
                   inWaiting_faults := []; flushInput := flushInput_pass |}
         (set_write_queue [QBytes tx_stop_frame] (session_on [])))
    = (Ok true, s')
    /\ written (port s')
       = [] ++ sent_before RuntimeError 3 tx_stop_frame
    /\ concat (written (port s')) = concat [] ++ take 3 tx_stop_frame
    /\ new_events
         (set_port {| buffered := []; inflight := []; written := [];
                      write_faults := [Some RuntimeError]; sent_before_fault := 3;
                      inWaiting_faults := []; flushInput := flushInput_pass |}
            (set_write_queue [QBytes tx_stop_frame] (session_on [])))
         s'
       = [Log ERROR "Write thread exception: %s" [AExn RuntimeError]]
    /\ write_faults (port s') = []
    /\ write_queue s' = [].
Proof.
  apply (write_runtime_error_drops_item
           (set_port {| buffered := []; inflight := []; written := [];
                        write_faults := [Some RuntimeError]; sent_before_fault := 3;
                        inWaiting_faults := []; flushInput := flushInput_pass |}
              (set_write_queue [QBytes tx_stop_frame] (session_on [])))
           (QBytes tx_stop_frame) tx_stop_frame [] []).
  - reflexivity.
  - exact I.
  - reflexivity.
  - reflexivity.
Defined.

(** ** Reads *)

Lemma tryRead_short (n : Z) (s : SerialClient) :
  0 < n -> 0 < timeout s -> len (stream s) < n ->
  exists s', tryRead n s = (Raise (IOError n (len (stream s))), s')
             /\ stream s' = [].
Proof.
  intros Hn Ht Hl.
  unfold tryRead, port_read, modify_port, Time_now, bind, gets, modify, ret, raise.
  simpl.
  replace (n =? 0) with false by (symmetry; apply Z.eqb_neq; lia).
  replace (0 <? timeout s) with true by (symmetry; apply Z.ltb_lt; lia).
  replace (n <? 0) with false by (symmetry; apply Z.ltb_ge; lia).
  simpl.
  assert (Htake : take (Z.to_nat n) (buffered (port s) ++ inflight (port s))
                  = buffered (port s) ++ inflight (port s)).
  { apply take_ge. unfold stream, len in Hl. lia. }
  rewrite Htake. fold (stream s).
  replace (len (stream s) <? n) with true by (symmetry; apply Z.ltb_lt; lia).
  assert (Hdrop : drop (Z.to_nat n) (buffered (port s))
                  ++ drop (Z.to_nat n - List.length (buffered (port s))) (inflight (port s)) = []).
  { rewrite <- skipn_app. apply drop_ge. unfold stream, len in Hl. lia. }
  destruct (negb (len (stream s) =? 0)); simpl;
    (eexists; split; [reflexivity|]); unfold stream; simpl; exact Hdrop.
Qed.

Lemma tryRead_refuses (n : Z) (s : SerialClient) :
  n < 0 \/ (n <> 0 /\ timeout s <= 0) -> tryRead n s = (Raise (IOError n 0), s).
Proof.
  intros H.
  unfold tryRead, bind, gets, raise.
  destruct H as [H|[H1 H2]].
  - replace (n =? 0) with false by (symmetry; apply Z.eqb_neq; lia).
    replace (n <? 0) with true by (symmetry; apply Z.ltb_lt; lia).
    rewrite orb_true_r. reflexivity.
  - replace (n =? 0) with false by (symmetry; apply Z.eqb_neq; lia).
    replace (0 <? timeout s) with false by (symmetry; apply Z.ltb_ge; lia).
    reflexivity.
Qed.

(** [tryRead] of a positive length, the timeout positive, on a port
    whose [read] hands over the bytes that come in time: it returns all
    the bytes asked for or raises.  When they come in time it returns
    the next [n] bytes of the input, which goes on after them, and
    leaves the log, the write queue, the flag [synced] and the bytes
    written as they are; when fewer come it raises [IOError] with the
    length asked for and the number received, the ones that came being
    taken off the input and lost.  What it returns is always of the
    length asked for and the head of the input it met; and two reads in
    a row return, piece by piece, what one read of both lengths returns,
    and leave the same input. *)
Theorem tryRead_all_or_IOError (n : Z) (s : SerialClient) :
  0 < n -> 0 < timeout s ->
  (n <= len (stream s) ->
   exists s', tryRead n s = (Ok (take (Z.to_nat n) (stream s)), s')
              /\ stream s' = drop (Z.to_nat n) (stream s)
              /\ untouched s s')
  /\ (len (stream s) < n ->
      exists s', tryRead n s = (Raise (IOError n (len (stream s))), s')
                 /\ stream s' = [])
  /\ (forall bs s', tryRead n s = (Ok bs, s') ->
        len bs = n /\ stream s = bs ++ stream s')
  /\ (forall m, 0 < m -> n + m <= len (stream s) ->
        exists bs1 s1 bs2 s2 s',
          tryRead n s = (Ok bs1, s1)
          /\ tryRead m s1 = (Ok bs2, s2)
          /\ tryRead (n + m) s = (Ok (bs1 ++ bs2), s')
          /\ stream s' = stream s2).
Proof.
  intros Hn Ht.
  assert (Hread : forall k s0, 0 < k -> 0 < timeout s0 -> k <= len (stream s0) ->
            exists s', tryRead k s0 = (Ok (take (Z.to_nat k) (stream s0)), s')
                       /\ stream s' = drop (Z.to_nat k) (stream s0)
                       /\ untouched s0 s').
  { intros k s0 Hk Ht0 Hl.
    assert (Hs : stream s0 = take (Z.to_nat k) (stream s0) ++ drop (Z.to_nat k) (stream s0))
      by (symmetry; apply take_drop).
    assert (Hlen : len (take (Z.to_nat k) (stream s0)) = k).
    { unfold len in *. rewrite length_take. lia. }
    destruct (tryRead_next s0 _ _ Ht0 Hs) as (s' & E & Hst & Hu).
    rewrite Hlen in E. eauto. }
  split; [|split; [|split]].
  - intros Hl. apply Hread; assumption.
  - apply tryRead_short; assumption.
  - intros bs s' E. apply tryRead_value in E. exact E.
  - intros m Hm Hl.
    destruct (Hread n s Hn Ht ltac:(lia)) as (s1 & E1 & Hs1 & Hu1).
    assert (Ht1 : 0 < timeout s1) by (destruct Hu1 as [-> _]; exact Ht).
    assert (Hl1 : m <= len (stream s1)).
    { rewrite Hs1. unfold len in *. rewrite length_drop. lia. }
    destruct (Hread m s1 Hm Ht1 Hl1) as (s2 & E2 & Hs2 & _).
    destruct (Hread (n + m) s ltac:(lia) Ht Hl) as (s' & E & Hs' & _).
    exists (take (Z.to_nat n) (stream s)), s1, (take (Z.to_nat m) (stream s1)), s2, s'.
    split; [exact E1|]. split; [exact E2|]. split.
    + rewrite E. f_equal. f_equal. rewrite Hs1.
      replace (Z.to_nat (n + m)) with (Z.to_nat n + Z.to_nat m)%nat by lia.
      symmetry. apply take_take_drop.
    + rewrite Hs', Hs2, Hs1, drop_drop. f_equal. lia.
Qed.

Lemma tryRead_all_or_IOError_witness :
  (exists s', tryRead 2 (session_on [x01; x02; x03])
              = (Ok (take (Z.to_nat 2) (stream (session_on [x01; x02; x03]))), s')
              /\ stream s' = drop (Z.to_nat 2) (stream (session_on [x01; x02; x03]))
              /\ untouched (session_on [x01; x02; x03]) s')
  /\ take (Z.to_nat 2) (stream (session_on [x01; x02; x03])) = [x01; x02]
  /\ drop (Z.to_nat 2) (stream (session_on [x01; x02; x03])) = [x03].
Proof.
  split; [|split; reflexivity].
  apply (proj1 (tryRead_all_or_IOError 2 (session_on [x01; x02; x03])
                  ltac:(lia) ltac:(reflexivity))).
  vm_compute. discriminate.
Defined.

(** ** The reader on the bytes it meets *)

(** A frame at the head of the input, its length checksum right and
    its length field the length of the payload: the reader yields its
    topic id and payload exactly when the payload checksum is right, and
    otherwise logs the wrong checksum and yields nothing.  Either way it
    has read the frame to its last byte and no further. *)
Theorem read_frame_decides_on_payload_checksum (s : SerialClient)
    (l_lo l_hi cl t_lo t_hi cp : byte) (msg rest : list byte) :
  0 < timeout s ->
  stream s = [xff; xfe; l_lo; l_hi; cl; t_lo; t_hi] ++ msg ++ [cp] ++ rest ->
  length_checksum_ok l_lo l_hi cl ->
  len msg = struct.signed16 (byte_val l_lo + 256 * byte_val l_hi) ->
  exists s',
    read_frame s
    = (Ok (if payload_checksum_holds t_lo t_hi msg cp
           then Some (byte_val t_lo + 256 * byte_val t_hi, msg)
           else None), s')
    /\ stream s' = rest
    /\ new_events s s'
       = (if payload_checksum_holds t_lo t_hi msg cp
          then []
          else [Log INFO "wrong checksum for topic id and msg" []])
    /\ session_kept s s'.
Proof. exact (read_frame_on_frame s l_lo l_hi cl t_lo t_hi cp msg rest). Qed.


Lemma read_frame_decides_on_payload_checksum_witness :
  exists s',
    read_frame (session_on [xff; xfe; x01; x00; xfe; x05; x00; x07; x00; x42])
    = (Ok (if payload_checksum_holds x05 x00 [x07] x00
           then Some (byte_val x05 + 256 * byte_val x00, [x07])
           else None), s')
    /\ stream s' = [x42]
    /\ new_events (session_on [xff; xfe; x01; x00; xfe; x05; x00; x07; x00; x42]) s'
       = (if payload_checksum_holds x05 x00 [x07] x00
          then []
          else [Log INFO "wrong checksum for topic id and msg" []])
    /\ session_kept (session_on [xff; xfe; x01; x00; xfe; x05; x00; x07; x00; x42]) s'.
Proof.
  apply (read_frame_decides_on_payload_checksum
           (session_on [xff; xfe; x01; x00; xfe; x05; x00; x07; x00; x42])
           x01 x00 xfe x05 x00 x00 [x07] [x42]).
  - reflexivity.
  - reflexivity.
  - reflexivity.
  - reflexivity.
Defined.

Section ReaderOnBytes.

Context {ext : External}.

(** A byte that is not the sync flag is passed over in silence: the turn
    takes this one byte off the input and goes on. *)
Theorem byte_before_sync_is_skipped (s : SerialClient) (b : byte) (rest : list byte) :
  0 < timeout s ->
  stream s = b :: rest ->
  b <> xff ->
  exists s',
    read_message s = (Ok Continue, s')
    /\ stream s' = rest
    /\ new_events s s' = []
    /\ session_kept s s'.
Proof.
  intros Htmo Hs Hb.
  destruct (tryRead_here (set_read_step (Some step_syncflag) s) [b] rest)
    as (s1 & E1 & S1 & U1); [exact Htmo | exact Hs |].
  change (len [b]) with 1 in E1.
  pose proof (tryRead_session_kept 1 (set_read_step (Some step_syncflag) s)) as K1.
  rewrite E1 in K1. simpl in K1.
  exists s1. unfold read_message.
  rewrite (bind_ok _ _ _ None s1).
  2:{ unfold read_frame. rewrite bind_step, (bind_ok _ _ _ _ _ E1).
      rewrite bool_decide_eq_false_2 by (intros [= ->]; congruence).
      reflexivity. }
  split; [reflexivity|]. split; [exact S1|]. split.
  - destruct U1 as (_ & Utr & _). unfold new_events. rewrite Utr. simpl.
    apply drop_all.
  - etransitivity; [|exact K1]. unfold session_kept. simpl. repeat split.
Qed.

(** After the sync bytes, a length whose checksum is wrong is dropped
    with a log of the length read: the turn has taken the five bytes of
    the header off the input and goes on with the byte after them. *)
Theorem bad_length_checksum_drops_header (s : SerialClient)
    (l_lo l_hi cl : byte) (rest : list byte) :
  0 < timeout s ->
  stream s = [xff; xfe; l_lo; l_hi; cl] ++ rest ->
  ~ length_checksum_ok l_lo l_hi cl ->
  exists s',
    read_message s = (Ok Continue, s')
    /\ stream s' = rest
    /\ new_events s s'
       = [Log INFO "Wrong checksum for msg length, length %d, dropping message."
            [AInt (struct.signed16 (byte_val l_lo + 256 * byte_val l_hi))]]
    /\ session_kept s s'.
Proof.
  intros Htmo Hs Hcl.
  destruct (tryRead_here (set_read_step (Some step_syncflag) s) [xff]
              ([xfe; l_lo; l_hi; cl] ++ rest))
    as (s1 & E1 & S1 & U1); [exact Htmo | exact Hs |].
  destruct (tryRead_here (set_read_step (Some step_protocol) s1) [xfe]
              ([l_lo; l_hi; cl] ++ rest))
    as (s2 & E2 & S2 & U2);
    [ simpl; rewrite (untouched_timeout _ _ U1); exact Htmo | exact S1 |].
  destruct (tryRead_here (set_read_step (Some step_message_length) s2) [l_lo; l_hi; cl] rest)
    as (s3 & E3 & S3 & U3);
    [ simpl; rewrite (untouched_timeout _ _ U2); simpl;
      rewrite (untouched_timeout _ _ U1); exact Htmo | exact S2 |].
  change (len [xff]) with 1 in E1. change (len [xfe]) with 1 in E2.
  change (len [l_lo; l_hi; cl]) with 3 in E3.
  assert (Hsum : (sum_bytes [l_lo; l_hi; cl] mod 256 =? 255) = false).
  { apply Z.eqb_neq. intros H. apply Hcl. unfold length_checksum_ok.
    rewrite <- H. simpl. f_equal. lia. }
  assert (U : untouched s s3).
  { repeat (etransitivity; [apply step_untouched|]; etransitivity; [eassumption|]).
    reflexivity. }
  assert (K : session_kept s s3).
  { pose proof (tryRead_session_kept 1 (set_read_step (Some step_syncflag) s)) as K1.
    rewrite E1 in K1.
    pose proof (tryRead_session_kept 1 (set_read_step (Some step_protocol) s1)) as K2.
    rewrite E2 in K2.
    pose proof (tryRead_session_kept 3 (set_read_step (Some step_message_length) s2)) as K3.
    rewrite E3 in K3. simpl in K1, K2, K3.
    assert (Hstep : forall r x, session_kept x (set_read_step r x))
      by (intros; unfold session_kept; simpl; repeat split).
    repeat (etransitivity; [apply Hstep|]; etransitivity; [eassumption|]).
    reflexivity. }
  unfold read_message.
  set (s4 := set_trace
               (trace s3 ++
                  [Log INFO "Wrong checksum for msg length, length %d, dropping message."
                     [AInt (struct.signed16 (byte_val l_lo + 256 * byte_val l_hi))]]) s3).
  exists s4. rewrite (bind_ok _ _ _ None s4).
  2:{ unfold read_frame. rewrite bind_step, (bind_ok _ _ _ _ _ E1).
      rewrite bool_decide_eq_true_2 by reflexivity. cbv beta iota delta [negb].
      rewrite bind_step, (bind_ok _ _ _ _ _ E2).
      rewrite bool_decide_eq_true_2 by reflexivity. cbv beta iota delta [negb].
      rewrite bind_step, (bind_ok _ _ _ _ _ E3).
      cbv beta iota delta [struct.unpack_hB]. rewrite bind_lift_ok. cbv beta zeta.
      rewrite Hsum. cbv beta iota delta [negb].
      unfold loginfo, emit, bind, modify, ret. reflexivity. }
  split; [reflexivity|]. subst s4. simpl. split; [exact S3|]. split.
  - destruct U as (_ & Utr & _). unfold new_events. simpl. rewrite Utr.
    apply drop_app_length.
  - destruct K as (?&?&?&?&?&?&?). unfold session_kept. simpl. auto 10.
Qed.

End ReaderOnBytes.

Lemma byte_before_sync_is_skipped_witness :
  exists s',
    @read_message no_ros (session_on [x00; xff; xfe]) = (Ok Continue, s')
    /\ stream s' = [xff; xfe]
    /\ new_events (session_on [x00; xff; xfe]) s' = []
    /\ session_kept (session_on [x00; xff; xfe]) s'.
Proof.
  apply (@byte_before_sync_is_skipped no_ros (session_on [x00; xff; xfe]) x00 [xff; xfe]).
  - reflexivity.
  - reflexivity.
  - discriminate.
Defined.

Lemma bad_length_checksum_drops_header_witness :
  exists s',
    @read_message no_ros (session_on [xff; xfe; x03; x00; xfb; xff]) = (Ok Continue, s')
    /\ stream s' = [xff]
    /\ new_events (session_on [xff; xfe; x03; x00; xfb; xff]) s'
       = [Log INFO "Wrong checksum for msg length, length %d, dropping message."
            [AInt (struct.signed16 (byte_val x03 + 256 * byte_val x00))]]
    /\ session_kept (session_on [xff; xfe; x03; x00; xfb; xff]) s'.
Proof.
  apply (@bad_length_checksum_drops_header no_ros
           (session_on [xff; xfe; x03; x00; xfb; xff]) x03 x00 xfb [xff]).
  - reflexivity.
  - reflexivity.
  - vm_compute. discriminate.
Defined.

Lemma trace_of_new_events (s s' : SerialClient) :
  (exists evs, trace s' = trace s ++ evs) ->
  trace s' = trace s ++ new_events s s'.
Proof.
  intros [evs H]. unfold new_events. rewrite H, drop_app_length. reflexivity.
Qed.

Lemma read_frame_trace (s : SerialClient) :
  trace (read_frame s).2 = trace s ++ new_events s (read_frame s).2.
Proof.
  apply trace_of_new_events.
  destruct (read_frame_reads (fun _ _ => True) s) as [_ (evs & H & _)]. eauto.
Qed.

Section UnknownTopic.

Context {ext : External}.

(** A frame with both checksums right whose topic id has no handler
    still counts as a sync: [synced] is set, the unknown id is logged,
    the topics are requested again (which empties the input buffer of a
    serial port), and the turn goes on; no handler is called. *)
Theorem unknown_topic_requests_topics (s : SerialClient)
    (l_lo l_hi cl t_lo t_hi cp : byte) (msg rest : list byte) :
  0 < timeout s ->
  stream s = [xff; xfe; l_lo; l_hi; cl; t_lo; t_hi] ++ msg ++ [cp] ++ rest ->
  length_checksum_ok l_lo l_hi cl ->
  len msg = struct.signed16 (byte_val l_lo + 256 * byte_val l_hi) ->
  payload_checksum_ok t_lo t_hi msg cp ->
  callbacks s !! (byte_val t_lo + 256 * byte_val t_hi) = None ->
  exists s',
    read_message s = (Ok Continue, s')
    /\ synced s' = true
    /\ write_queue s' = write_queue s ++ [QBytes request_topics_frame]
    /\ new_events s s'
       = [Log ERROR "Tried to publish before configured, topic id %d"
            [AInt (byte_val t_lo + 256 * byte_val t_hi)];
          Log INFO "Requesting topics..." []]
    /\ (negb (fix_pyserial_for_test s) && flush_empties (port s) = true ->
        buffered (port s') = []).
Proof.
  intros Htmo Hs Hcl Hlen Hcp Hcb.
  destruct (read_frame_on_frame s l_lo l_hi cl t_lo t_hi cp msg rest
              Htmo Hs Hcl Hlen) as (s6 & E & S6 & Hev & K).
  assert (Hpc : payload_checksum_holds t_lo t_hi msg cp = true)
    by (apply Z.eqb_eq; exact Hcp).
  rewrite Hpc in E, Hev.
  pose proof (read_frame_trace s) as Htr. rewrite E in Htr. simpl in Htr.
  rewrite Hev, app_nil_r in Htr.
  destruct K as (_ & _ & Kq & Kcb & Kfix & Kfl & _).
  unfold read_message. rewrite (bind_ok _ _ _ _ _ E).
  unfold dispatch, getitem, requestTopics, flush_unless_test,
    port_flushInput, queue_put, logerr, loginfo, emit, Time_now, modify_port,
    try_except, bind, gets, modify, ret, raise.
  simpl. rewrite Kcb, Hcb. simpl. rewrite Kfix. unfold flush_empties.
  destruct (fix_pyserial_for_test s); simpl;
    [| rewrite Kfl; destruct (flushInput (port s)); simpl ];
    (eexists; split; [reflexivity|]); simpl;
    rewrite Kq, Htr; unfold new_events; simpl;
    rewrite <- ?app_assoc, drop_app_length;
    repeat split; auto; discriminate.
Qed.

(** A frame that stops inside its payload ends the reader: with the
    length checksum right and fewer payload bytes coming than the length
    says (or a length that reads as negative), the read of the payload
    raises [IOError], the failure is published and logged with the length
    expected, and the turn returns from [run]. *)
Theorem truncated_frame_ends_the_reader (s : SerialClient)
    (l_lo l_hi cl t_lo t_hi : byte) (part : list byte) :
  0 < timeout s ->
  stream s = [xff; xfe; l_lo; l_hi; cl; t_lo; t_hi] ++ part ->
  length_checksum_ok l_lo l_hi cl ->
  struct.signed16 (byte_val l_lo + 256 * byte_val l_hi) < 0
  \/ len part < struct.signed16 (byte_val l_lo + 256 * byte_val l_hi) ->
  exists s' received,
    read_message s
    = (Raise (IOError (struct.signed16 (byte_val l_lo + 256 * byte_val l_hi)) received), s')
    /\ received = (if struct.signed16 (byte_val l_lo + 256 * byte_val l_hi) <? 0
                   then 0 else len part)
    /\ new_events s s'
       = [Diagnostics ERROR ERROR_PACKET_FAILED
            (if 0 <? lastsync (times s) then Some (lastsync (times s)) else None)
            (lastsync_lost (times s));
          Log INFO "Packet Failed :  Failed to read msg data" [];
          Log INFO "expected msg length is %d"
            [AInt (struct.signed16 (byte_val l_lo + 256 * byte_val l_hi))];
          Log INFO "%s"
            [AExn (IOError (struct.signed16 (byte_val l_lo + 256 * byte_val l_hi)) received)]]
    /\ read_step s' = Some step_data
    /\ synced s' = synced s
    /\ (try_except read_message on_IOError s).1 = Ok Return.
Proof.
  intros Htmo Hs Hcl Hshort.
  set (L := struct.signed16 (byte_val l_lo + 256 * byte_val l_hi)) in *.
  destruct (tryRead_here (set_read_step (Some step_syncflag) s) [xff]
              ([xfe; l_lo; l_hi; cl; t_lo; t_hi] ++ part))
    as (s1 & E1 & S1 & U1); [exact Htmo | exact Hs |].
  destruct (tryRead_here (set_read_step (Some step_protocol) s1) [xfe]
              ([l_lo; l_hi; cl; t_lo; t_hi] ++ part))
    as (s2 & E2 & S2 & U2);
    [ simpl; rewrite (untouched_timeout _ _ U1); exact Htmo | exact S1 |].
  destruct (tryRead_here (set_read_step (Some step_message_length) s2) [l_lo; l_hi; cl]
              ([t_lo; t_hi] ++ part))
    as (s3 & E3 & S3 & U3);
    [ simpl; rewrite (untouched_timeout _ _ U2); simpl;
      rewrite (untouched_timeout _ _ U1); exact Htmo | exact S2 |].
  destruct (tryRead_here (set_read_step (Some step_topic_id) s3) [t_lo; t_hi] part)
    as (s4 & E4 & S4 & U4);
    [ simpl; rewrite (untouched_timeout _ _ U3); simpl;
      rewrite (untouched_timeout _ _ U2); simpl;
      rewrite (untouched_timeout _ _ U1); exact Htmo | exact S3 |].
  change (len [xff]) with 1 in E1. change (len [xfe]) with 1 in E2.
  change (len [l_lo; l_hi; cl]) with 3 in E3. change (len [t_lo; t_hi]) with 2 in E4.
  assert (U : untouched s s4).
  { repeat (etransitivity; [apply step_untouched|]; etransitivity; [eassumption|]).
    reflexivity. }
  assert (Hsum : sum_bytes [l_lo; l_hi; cl] mod 256 = 255).
  { unfold length_checksum_ok in Hcl. simpl. rewrite <- Hcl. f_equal. lia. }
  set (s5 := set_read_step (Some step_data) s4).
  assert (Ut : 0 < timeout s5)
    by (subst s5; simpl; rewrite (untouched_timeout _ _ U); exact Htmo).
  assert (Hread : exists s6,
             tryRead L s5 = (Raise (IOError L (if L <? 0 then 0 else len part)), s6)
             /\ untouched s5 s6 /\ read_step s6 = Some step_data).
  { pose proof (tryRead_untouched L s5) as Hu.
    assert (Hrs : forall n x, read_step (tryRead n x).2 = read_step x).
    { intros n x. unfold tryRead, port_read, modify_port, Time_now, bind, gets,
        modify, ret, raise. simpl.
      destruct (n =? 0); [reflexivity|].
      destruct (negb (0 <? timeout x) || (n <? 0)); [reflexivity|]. simpl.
      destruct (negb (len (take (Z.to_nat n) (buffered (port x) ++ inflight (port x))) =? 0));
        simpl; destruct (len (take (Z.to_nat n) (buffered (port x) ++ inflight (port x))) <? n);
        reflexivity. }
    specialize (Hrs L s5).
    pose proof (tryRead_short L s5) as Hshort'.
    pose proof (tryRead_refuses L s5) as Hneg.
    destruct (L <? 0) eqn:EL.
    - apply Z.ltb_lt in EL. rewrite (Hneg (or_introl EL)) in Hu, Hrs |- *.
      exists s5. split; [reflexivity|]. split; [reflexivity|]. reflexivity.
    - apply Z.ltb_ge in EL. destruct Hshort as [Hlt|Hlt]; [lia|].
      assert (Hst : stream s5 = part) by (subst s5; exact S4).
      destruct Hshort' as (s6 & E6 & _); [unfold len in *; lia | exact Ut | rewrite Hst; exact Hlt |].
      rewrite Hst in E6. rewrite E6 in Hu, Hrs. simpl in Hu, Hrs.
      exists s6. split; [exact E6|]. split; [exact Hu|]. exact Hrs. }
  destruct Hread as (s6 & E6 & U6 & Hrs).
  set (received := if L <? 0 then 0 else len part) in *.
  assert (U' : untouched s s6).
  { etransitivity; [exact U|]. etransitivity; [apply step_untouched|]. exact U6. }
  destruct U' as (_ & Utr & Usy & _ & Uls & Ull & _).
  assert (Eframe : exists s',
             read_frame s = (Raise (IOError L received), s')
             /\ trace s' = trace s ++
                  [Diagnostics ERROR ERROR_PACKET_FAILED
                     (if 0 <? lastsync (times s) then Some (lastsync (times s)) else None)
                     (lastsync_lost (times s));
                   Log INFO "Packet Failed :  Failed to read msg data" [];
                   Log INFO "expected msg length is %d" [AInt L];
                   Log INFO "%s" [AExn (IOError L received)]]
             /\ read_step s' = Some step_data /\ synced s' = synced s).
  { unfold read_frame.
    rewrite bind_step, (bind_ok _ _ _ _ _ E1).
    rewrite bool_decide_eq_true_2 by reflexivity. cbv beta iota delta [negb].
    rewrite bind_step, (bind_ok _ _ _ _ _ E2).
    rewrite bool_decide_eq_true_2 by reflexivity. cbv beta iota delta [negb].
    rewrite bind_step, (bind_ok _ _ _ _ _ E3).
    cbv beta iota delta [struct.unpack_hB]. rewrite bind_lift_ok. cbv beta zeta.
    rewrite Hsum. change (255 =? 255) with true. cbv beta iota delta [negb].
    rewrite bind_step, (bind_ok _ _ _ _ _ E4).
    cbv beta iota delta [struct.unpack_H]. rewrite bind_lift_ok.
    rewrite bind_step. simpl fst. fold L. fold s5.
    unfold bind at 1, try_except at 1. rewrite E6.
    unfold sendDiagnostics, Time_now, loginfo, emit, bind, gets, modify, ret, raise.
    simpl. eexists. split; [reflexivity|]. simpl.
    rewrite Utr, Uls, Ull, Usy, Hrs, <- !app_assoc. auto. }
  destruct Eframe as (s' & Ef & Htr & Hrs' & Hsy').
  exists s', received. unfold read_message.
  rewrite (bind_raise _ _ _ _ _ Ef).
  split; [reflexivity|]. split; [reflexivity|].
  split; [unfold new_events; rewrite Htr; apply drop_app_length|].
  split; [exact Hrs'|]. split; [exact Hsy'|].
  unfold try_except, read_message. rewrite (bind_raise _ _ _ _ _ Ef). reflexivity.
Qed.

End UnknownTopic.

Lemma unknown_topic_requests_topics_witness :
  exists s',
    @read_message no_ros
      (session_on [xff; xfe; x03; x00; xfc; x2a; x00; x01; x02; x03; xcf; xff])
    = (Ok Continue, s')
    /\ synced s' = true
    /\ write_queue s'
       = write_queue (session_on [xff; xfe; x03; x00; xfc; x2a; x00; x01; x02; x03; xcf; xff])
         ++ [QBytes request_topics_frame]
    /\ new_events
         (session_on [xff; xfe; x03; x00; xfc; x2a; x00; x01; x02; x03; xcf; xff]) s'
       = [Log ERROR "Tried to publish before configured, topic id %d"
            [AInt (byte_val x2a + 256 * byte_val x00)];
          Log INFO "Requesting topics..." []]
    /\ (negb (fix_pyserial_for_test
                (session_on [xff; xfe; x03; x00; xfc; x2a; x00; x01; x02; x03; xcf; xff]))
        && flush_empties
             (port (session_on [xff; xfe; x03; x00; xfc; x2a; x00; x01; x02; x03; xcf; xff]))
        = true ->
        buffered (port s') = []).
Proof.
  apply (@unknown_topic_requests_topics no_ros
           (session_on [xff; xfe; x03; x00; xfc; x2a; x00; x01; x02; x03; xcf; xff])
           x03 x00 xfc x2a x00 xcf [x01; x02; x03] [xff]).
  - reflexivity.
  - reflexivity.
  - reflexivity.
  - reflexivity.
  - reflexivity.
  - reflexivity.
Defined.

Lemma truncated_frame_ends_the_reader_witness :
  exists s' received,
    @read_message no_ros (session_on [xff; xfe; x03; x00; xfc; x2a; x00; x30])
    = (Raise (IOError (struct.signed16 (byte_val x03 + 256 * byte_val x00)) received), s')
    /\ received = (if struct.signed16 (byte_val x03 + 256 * byte_val x00) <? 0
                   then 0 else len [x30])
    /\ new_events (session_on [xff; xfe; x03; x00; xfc; x2a; x00; x30]) s'
       = [Diagnostics ERROR ERROR_PACKET_FAILED
            (if 0 <? lastsync (times (session_on [xff; xfe; x03; x00; xfc; x2a; x00; x30]))
             then Some (lastsync (times (session_on [xff; xfe; x03; x00; xfc; x2a; x00; x30])))
             else None)
            (lastsync_lost (times (session_on [xff; xfe; x03; x00; xfc; x2a; x00; x30])));
          Log INFO "Packet Failed :  Failed to read msg data" [];
          Log INFO "expected msg length is %d"
            [AInt (struct.signed16 (byte_val x03 + 256 * byte_val x00))];
          Log INFO "%s"
            [AExn (IOError (struct.signed16 (byte_val x03 + 256 * byte_val x00)) received)]]
    /\ read_step s' = Some step_data
    /\ synced s' = synced (session_on [xff; xfe; x03; x00; xfc; x2a; x00; x30])
    /\ (try_except (@read_message no_ros) on_IOError
          (session_on [xff; xfe; x03; x00; xfc; x2a; x00; x30])).1 = Ok Return.
Proof.
  apply (@truncated_frame_ends_the_reader no_ros
           (session_on [xff; xfe; x03; x00; xfc; x2a; x00; x30])
           x03 x00 xfc x2a x00 [x30]).
  - reflexivity.
  - reflexivity.
  - reflexivity.
  - right. reflexivity.
Defined.

(** ** Publishers *)

Section InstallPublisher.

Context {ext : External}.

Lemma new_events_app (s s' : SerialClient) (evs : list Event) :
  trace s' = trace s ++ evs -> new_events s s' = evs.
Proof. intros E. unfold new_events. rewrite E. apply drop_app_length. Qed.

(** [setupPublisher] never raises.  For a TopicInfo it has decoded and
    whose message type resolves with the md5 sum announced, it creates a
    publisher, also where the topic id has one already, stores it under
    the topic id in [publishers] and binds the id in [callbacks] to its
    [handlePacket]; the publish buffer size is taken where none was set.
    Otherwise both tables and the buffer size stay and the error is
    logged. *)
Theorem setupPublisher_binds_topic_id (data : list byte) (msg : TopicInfo)
    (s : SerialClient) :
  TopicInfo_deserialize data = Ok msg ->
  exists s',
    setupPublisher data s = (Ok tt, s')
    /\ match publisher_for msg with
       | Some pub =>
           publishers s' = <[Z.of_N (topic_id msg) := pub]> (publishers s)
           /\ callbacks s'
              = <[Z.of_N (topic_id msg) := H_Publisher_handlePacket pub]> (callbacks s)
           /\ buffer_out s'
              = (if buffer_out s <? 0 then Z.of_N (buffer_size msg) else buffer_out s)
           /\ new_events s s'
              = RosPublisher (topic_name msg) (pub_message pub)
                  :: match publishers s !! Z.of_N (topic_id msg) with
                     | None => [Log INFO "Setup publisher on %s [%s]"
                                  [AStr (topic_name msg); AStr (message_type msg)]]
                     | Some _ => []
                     end
                  ++ publish_size_note s (Z.of_N (buffer_size msg))
       | None =>
           publishers s' = publishers s
           /\ callbacks s' = callbacks s
           /\ buffer_out s' = buffer_out s
           /\ exists e,
               new_events s s' = [Log ERROR "Creation of publisher failed: %s" [AExn e]]
       end
    /\ subscribers s' = subscribers s /\ services s' = services s
    /\ write_queue s' = write_queue s /\ synced s' = synced s.
Proof.
  intros Hdes.
  unfold setupPublisher, except_log, try_except.
  unfold bind at 1. unfold bind at 1. unfold lift at 1. rewrite Hdes.
  destruct (publisher_for msg) as [pub|] eqn:Hpub.
  - unfold bind at 1. rewrite (Publisher_init_some _ _ _ Hpub).
    unfold setPublishSize, callback_put, loginfo, emit, publish_size_note,
      bind, gets, modify, ret.
    simpl.
    destruct (publishers s !! Z.of_N (topic_id msg)); simpl;
      destruct (buffer_out s <? 0); simpl;
      (eexists; split; [reflexivity|]); simpl;
      (split; [|auto]);
      (split; [reflexivity|]); (split; [reflexivity|]); (split; [reflexivity|]);
      apply new_events_app; simpl; rewrite <- ?app_assoc; reflexivity.
  - unfold bind at 1.
    destruct (Publisher_init_none msg s Hpub) as [e He]. rewrite He.
    unfold logerr, emit, modify. simpl.
    eexists; split; [reflexivity|]. simpl.
    split; [|auto].
    split; [reflexivity|]. split; [reflexivity|]. split; [reflexivity|].
    exists e. apply new_events_app. reflexivity.
Qed.

Lemma setupPublisher_callbacks (data : list byte) (msg : TopicInfo) (pub : Publisher)
    (s : SerialClient) :
  TopicInfo_deserialize data = Ok msg ->
  publisher_for msg = Some pub ->
  exists s',
    setupPublisher data s = (Ok tt, s')
    /\ callbacks s'
       = <[Z.of_N (topic_id msg) := H_Publisher_handlePacket pub]> (callbacks s).
Proof.
  intros Hdes Hpub.
  unfold setupPublisher, except_log, try_except.
  unfold bind at 1. unfold bind at 1. unfold lift at 1. rewrite Hdes.
  unfold bind at 1. rewrite (Publisher_init_some _ _ _ Hpub).
  unfold setPublishSize, callback_put, loginfo, emit, bind, gets, modify, ret.
  simpl.
  destruct (publishers s !! Z.of_N (topic_id msg)); simpl;
    destruct (buffer_out s <? 0); simpl; eexists; split; reflexivity.
Qed.

(** A topic a publisher was set up for is forwarded: dispatching a frame
    on its id does not raise and leaves the session as it is but for the
    log, where the payload is published on the topic announced, or,
    where the message class does not decode it, the error is logged. *)
Theorem announced_topic_is_forwarded (data payload : list byte) (msg : TopicInfo)
    (pub : Publisher) (s : SerialClient) :
  TopicInfo_deserialize data = Ok msg ->
  publisher_for msg = Some pub ->
  dispatch (Z.of_N (topic_id msg)) payload (setupPublisher data s).2
  = (Ok tt,
     set_trace
       (trace (setupPublisher data s).2
        ++ [Dispatched (Z.of_N (topic_id msg)) payload;
            match deserialize (pub_message pub) payload with
            | None => RosPublish (topic_name msg) payload
            | Some e => Log ERROR "Publisher handling packet failed: %s" [AExn e]
            end])
       (setupPublisher data s).2).
Proof.
  intros Hdes Hpub.
  destruct (setupPublisher_callbacks data msg pub s Hdes Hpub) as (s' & E & Hcb).
  rewrite E. simpl.
  assert (Hname : pub_topic pub = topic_name msg).
  { unfold publisher_for in Hpub.
    destruct (unpack2 (split_slash (message_type msg))) as [pm|]; [|discriminate].
    destruct (load_message pm.1 pm.2) as [message|]; [|discriminate].
    destruct (String.eqb (_md5sum message) (md5sum msg)); [|discriminate].
    injection Hpub as <-. reflexivity. }
  unfold dispatch, try_except, getitem, bind, gets. simpl.
  rewrite Hcb, lookup_insert_eq. simpl.
  unfold Publisher_handlePacket, except_log, try_except, bind, emit, modify, ret, raise,
    logerr, emit, modify.
  simpl. rewrite Hname.
  destruct (deserialize (pub_message pub) payload); simpl;
    rewrite <- ?app_assoc; reflexivity.
Qed.

End InstallPublisher.

Lemma setupPublisher_binds_topic_id_witness :
  exists s',
    @setupPublisher chatter_ros [x01] chatter_session = (Ok tt, s')
    /\ match @publisher_for chatter_ros (chatter_info [x01]) with
       | Some pub =>
           publishers s'
           = <[Z.of_N (topic_id (chatter_info [x01])) := pub]> (publishers chatter_session)
           /\ callbacks s'
              = <[Z.of_N (topic_id (chatter_info [x01])) := H_Publisher_handlePacket pub]>
                  (callbacks chatter_session)
           /\ buffer_out s'
              = (if buffer_out chatter_session <? 0
                 then Z.of_N (buffer_size (chatter_info [x01]))
                 else buffer_out chatter_session)
           /\ new_events chatter_session s'
              = RosPublisher (topic_name (chatter_info [x01])) (pub_message pub)
                  :: match publishers chatter_session
                           !! Z.of_N (topic_id (chatter_info [x01])) with
                     | None => [Log INFO "Setup publisher on %s [%s]"
                                  [AStr (topic_name (chatter_info [x01]));
                                   AStr (message_type (chatter_info [x01]))]]
                     | Some _ => []
                     end
                  ++ publish_size_note chatter_session
                       (Z.of_N (buffer_size (chatter_info [x01])))
       | None =>
           publishers s' = publishers chatter_session
           /\ callbacks s' = callbacks chatter_session
           /\ buffer_out s' = buffer_out chatter_session
           /\ exists e,
               new_events chatter_session s'
               = [Log ERROR "Creation of publisher failed: %s" [AExn e]]
       end
    /\ subscribers s' = subscribers chatter_session
    /\ services s' = services chatter_session
    /\ write_queue s' = write_queue chatter_session
    /\ synced s' = synced chatter_session.
Proof.
  apply (@setupPublisher_binds_topic_id chatter_ros [x01] (chatter_info [x01])
           chatter_session).
  reflexivity.
Defined.

Lemma announced_topic_is_forwarded_witness :
  @dispatch chatter_ros 125 [x68; x69] (@setupPublisher chatter_ros [x01] chatter_session).2
  = (Ok tt,
     set_trace
       (trace (@setupPublisher chatter_ros [x01] chatter_session).2
        ++ [Dispatched 125 [x68; x69]; RosPublish "chatter" [x68; x69]])
       (@setupPublisher chatter_ros [x01] chatter_session).2).
Proof.
  apply (@announced_topic_is_forwarded chatter_ros [x01] [x68; x69] (chatter_info [x01])
           {| pub_topic := "chatter";
              pub_message := {| _md5sum := "992ce8a1687cec8c8bd883ec73ca41d1";
                                _type := "std_msgs/String" |} |}
           chatter_session).
  - reflexivity.
  - reflexivity.
Defined.

(** ** Services *)

Section InstallService.

Context {ext : External}.

(** The two halves of a service server make one service.  With no
    service under the name yet, the service type resolving, and each
    half announcing the md5 sum of its side (the publishing half the
    response's, the subscribing half the request's): the first half
    creates the service, once, and binds its topic id to the service's
    [handlePacket]; the second half finds the service, whatever message
    type it announces, and gives it its topic id.  Neither raises. *)
Theorem service_server_halves_make_one_service (dpub dsub : list byte)
    (mp ms : TopicInfo) (pm : string * string) (rr : MessageClass * MessageClass)
    (s : SerialClient) :
  TopicInfo_deserialize dpub = Ok mp ->
  TopicInfo_deserialize dsub = Ok ms ->
  topic_name ms = topic_name mp ->
  services s !! topic_name mp = None ->
  unpack2 (split_slash (message_type mp)) = Ok pm ->
  load_service pm.1 pm.2 = Ok rr ->
  _md5sum rr.2 = md5sum mp ->
  _md5sum rr.1 = md5sum ms ->
  exists s1 s2,
    setupServiceServerPublisher dpub s = (Ok tt, s1)
    /\ setupServiceServerSubscriber dsub s1 = (Ok tt, s2)
    /\ services s2
       = <[topic_name mp := service_server (topic_name mp) rr (Some (Z.of_N (topic_id ms)))]>
           (services s)
    /\ callbacks s2
       = <[Z.of_N (topic_id mp) := H_Service_handlePacket (topic_name mp)]> (callbacks s)
    /\ new_events s s2
       = publish_size_note s (Z.of_N (buffer_size mp))
         ++ [RosService (topic_name mp);
             Log INFO "Setup service server on %s [%s]"
               [AStr (topic_name mp); AStr (message_type mp)]]
         ++ subscribe_size_note s (Z.of_N (buffer_size ms)).
Proof.
  intros Hp Hs Hname Hnew Hpm Hrr Hmp Hms.
  unfold setupServiceServerPublisher, setupServiceServerSubscriber, except_log,
    service_get_or_create, ServiceServer_init, service_set_id, service_put,
    callback_put, setPublishSize, setSubscribeSize, publish_size_note,
    subscribe_size_note, checksum_mismatch, loginfo, logerr, emit,
    try_except, bind, lift, gets, modify, ret, raise.
  rewrite Hp, Hs. simpl.
  destruct (buffer_out s <? 0) eqn:Eo; destruct (buffer_in s <? 0) eqn:Ei; simpl;
    rewrite Hnew, Hpm, Hrr; simpl;
    rewrite Hmp, String.eqb_refl; simpl;
    (eexists; eexists; split; [reflexivity|]); simpl;
    rewrite ?Ei; simpl;
    rewrite ?Hname, lookup_insert_eq; simpl;
    rewrite Hms, String.eqb_refl; simpl;
    (split; [reflexivity|]); simpl;
    (split; [apply insert_insert_eq|]);
    (split; [reflexivity|]);
    apply new_events_app; simpl; rewrite <- ?app_assoc; reflexivity.
Qed.

(** A service server is created before the md5 sum of the announcement
    is compared.  With no service under the name yet and the service
    type resolving, an announcement of the publishing half with another
    md5 sum than the response's leaves the service created and stored,
    logs the mismatch, and binds no handler to the topic id. *)
Theorem service_md5_mismatch_keeps_the_service (data : list byte)
    (msg : TopicInfo) (pm : string * string) (rr : MessageClass * MessageClass)
    (s : SerialClient) :
  TopicInfo_deserialize data = Ok msg ->
  services s !! topic_name msg = None ->
  unpack2 (split_slash (message_type msg)) = Ok pm ->
  load_service pm.1 pm.2 = Ok rr ->
  _md5sum rr.2 <> md5sum msg ->
  exists s',
    setupServiceServerPublisher data s = (Ok tt, s')
    /\ services s'
       = <[topic_name msg := service_server (topic_name msg) rr None]> (services s)
    /\ callbacks s' = callbacks s
    /\ new_events s s'
       = publish_size_note s (Z.of_N (buffer_size msg))
         ++ [RosService (topic_name msg);
             Log INFO "Setup service server on %s [%s]"
               [AStr (topic_name msg); AStr (message_type msg)];
             Log ERROR "Creation of service server failed: %s"
               [AExn (checksum_mismatch (_md5sum rr.2) (md5sum msg))]].
Proof.
  intros Hd Hnew Hpm Hrr Hne.
  apply String.eqb_neq in Hne.
  unfold setupServiceServerPublisher, except_log,
    service_get_or_create, ServiceServer_init, service_put,
    callback_put, setPublishSize, publish_size_note,
    loginfo, logerr, emit, try_except, bind, lift, gets, modify, ret, raise.
  rewrite Hd. simpl.
  destruct (buffer_out s <? 0); simpl;
    rewrite Hnew, Hpm, Hrr; simpl;
    rewrite Hne; simpl;
    (eexists; split; [reflexivity|]); simpl;
    (split; [reflexivity|]);
    (split; [reflexivity|]);
    apply new_events_app; simpl; rewrite <- ?app_assoc; reflexivity.
Qed.

End InstallService.

Lemma service_server_halves_make_one_service_witness :
  exists s1 s2,
    @setupServiceServerPublisher add_two_ints_ros [x00] add_two_ints_session = (Ok tt, s1)
    /\ @setupServiceServerSubscriber add_two_ints_ros [x01] s1 = (Ok tt, s2)
    /\ services s2
       = <[topic_name (add_two_ints_info [x00]) :=
             service_server (topic_name (add_two_ints_info [x00]))
               ({| _md5sum := "36d09b846be0b371c5f190354dd3153e";
                   _type := "rospy_tutorials/AddTwoIntsRequest" |},
                {| _md5sum := "6a2e34150c00229791cc89ff309fff21";
                   _type := "rospy_tutorials/AddTwoIntsResponse" |})
               (Some (Z.of_N (topic_id (add_two_ints_info [x01]))))]>
           (services add_two_ints_session)
    /\ callbacks s2
       = <[Z.of_N (topic_id (add_two_ints_info [x00])) :=
             H_Service_handlePacket (topic_name (add_two_ints_info [x00]))]>
           (callbacks add_two_ints_session)
    /\ new_events add_two_ints_session s2
       = publish_size_note add_two_ints_session
           (Z.of_N (buffer_size (add_two_ints_info [x00])))
         ++ [RosService (topic_name (add_two_ints_info [x00]));
             Log INFO "Setup service server on %s [%s]"
               [AStr (topic_name (add_two_ints_info [x00]));
                AStr (message_type (add_two_ints_info [x00]))]]
         ++ subscribe_size_note add_two_ints_session
              (Z.of_N (buffer_size (add_two_ints_info [x01]))).
Proof.
  apply (@service_server_halves_make_one_service add_two_ints_ros [x00] [x01]
           (add_two_ints_info [x00]) (add_two_ints_info [x01])
           ("rospy_tutorials", "AddTwoInts")
           ({| _md5sum := "36d09b846be0b371c5f190354dd3153e";
               _type := "rospy_tutorials/AddTwoIntsRequest" |},
            {| _md5sum := "6a2e34150c00229791cc89ff309fff21";
               _type := "rospy_tutorials/AddTwoIntsResponse" |})
           add_two_ints_session).
  - reflexivity.
  - reflexivity.
  - reflexivity.
  - reflexivity.
  - reflexivity.
  - reflexivity.
  - reflexivity.
  - reflexivity.
Defined.

Lemma service_md5_mismatch_keeps_the_service_witness :
  exists s',
    @setupServiceServerPublisher add_two_ints_ros [x01] add_two_ints_session = (Ok tt, s')
    /\ services s'
       = <[topic_name (add_two_ints_info [x01]) :=
             service_server (topic_name (add_two_ints_info [x01]))
               ({| _md5sum := "36d09b846be0b371c5f190354dd3153e";
                   _type := "rospy_tutorials/AddTwoIntsRequest" |},
                {| _md5sum := "6a2e34150c00229791cc89ff309fff21";
                   _type := "rospy_tutorials/AddTwoIntsResponse" |})
               None]>
           (services add_two_ints_session)
    /\ callbacks s' = callbacks add_two_ints_session
    /\ new_events add_two_ints_session s'
       = publish_size_note add_two_ints_session
           (Z.of_N (buffer_size (add_two_ints_info [x01])))
         ++ [RosService (topic_name (add_two_ints_info [x01]));
             Log INFO "Setup service server on %s [%s]"
               [AStr (topic_name (add_two_ints_info [x01]));
                AStr (message_type (add_two_ints_info [x01]))];
             Log ERROR "Creation of service server failed: %s"
               [AExn (checksum_mismatch "6a2e34150c00229791cc89ff309fff21"
                        (md5sum (add_two_ints_info [x01])))]].
Proof.
  apply (@service_md5_mismatch_keeps_the_service add_two_ints_ros [x01]
           (add_two_ints_info [x01])
           ("rospy_tutorials", "AddTwoInts")
           ({| _md5sum := "36d09b846be0b371c5f190354dd3153e";
               _type := "rospy_tutorials/AddTwoIntsRequest" |},
            {| _md5sum := "6a2e34150c00229791cc89ff309fff21";
               _type := "rospy_tutorials/AddTwoIntsResponse" |})
           add_two_ints_session).
  - reflexivity.
  - reflexivity.
  - reflexivity.
  - reflexivity.
  - simpl. discriminate.
Defined.

(** ** The sync budget *)

#[global] Instance clock_runs_preorder : PreOrder clock_runs.
Proof.
  split; unfold clock_runs.
  - intros s. split; [reflexivity | lia].
  - intros a b c [? ?] [? ?]. split; [congruence | lia].
Qed.

#[global] Instance lastsync_kept_preorder : PreOrder lastsync_kept.
Proof.
  split; unfold lastsync_kept.
  - intros s. auto.
  - intros a b c (?&?&?) (?&?&?). repeat split; [congruence | congruence | auto].
Qed.

Ltac clock_runs_leaf := unfold clock_runs; simpl; split; [reflexivity | lia].
Ltac lastsync_kept_leaf := unfold lastsync_kept; simpl; auto.

Lemma read_frame_clock_runs : stable clock_runs read_frame.
Proof. stable_go clock_runs_leaf. Qed.

Section SyncBudget.

Context {ext : External}.

Lemma read_message_on_frame (s : SerialClient) (id : Z) (msg rest : list byte) :
  0 <= id <= 32767 -> len msg <= 32767 ->
  0 < timeout s ->
  stream s = spec_frame id msg ++ rest ->
  exists s1,
    read_message s = (dispatch id msg ;;; ret Continue) (after_sync s1)
    /\ stream s1 = rest /\ untouched s s1 /\ session_kept s s1 /\ clock_runs s s1.
Proof.
  intros Hid Hl Htmo Hs.
  destruct (read_frame_ok s id msg rest Hid Hl Htmo Hs) as (s1 & E & S1 & U1).
  pose proof (read_frame_session_kept s) as K. rewrite E in K. simpl in K.
  pose proof (read_frame_clock_runs s) as C. rewrite E in C. simpl in C.
  exists s1. split; [|auto].
  unfold read_message. rewrite (bind_ok _ _ _ _ _ E).
  reflexivity.
Qed.

Lemma call_handler_lastsync_kept (h : Handler) (msg : list byte) :
  h <> H_handleTimeRequest -> stable lastsync_kept (call_handler h msg).
Proof.
  intros Hh. destruct h; try congruence; simpl; stable_go lastsync_kept_leaf.
Qed.

Lemma bind_then_ret {A B : Type} (m : M A) (b : B) (s : SerialClient) :
  ((m ;;; ret b) s).2 = (m s).2.
Proof. unfold bind, ret. destruct (m s) as [[a|e] s1]; reflexivity. Qed.

Lemma dispatch_lastsync_kept (id : Z) (msg : list byte) (h : Handler) (s : SerialClient) :
  callbacks s !! id = Some h -> h <> H_handleTimeRequest ->
  lastsync_kept s (dispatch id msg s).2.
Proof.
  intros Hcb Hh.
  assert (St : stable lastsync_kept
                 (try_except (emit (Dispatched id msg) ;;; call_handler h msg)
                    (fun e =>
                       match e with
                       | KeyError =>
                           Some (logerr "Tried to publish before configured, topic id %d"
                                   [AInt id] ;;;
                                 requestTopics)
                       | _ => None
                       end))).
  { pose proof (call_handler_lastsync_kept h msg Hh). stable_go lastsync_kept_leaf. }
  specialize (St s).
  replace (dispatch id msg s) with
    (try_except (emit (Dispatched id msg) ;;; call_handler h msg)
       (fun e =>
          match e with
          | KeyError =>
              Some (logerr "Tried to publish before configured, topic id %d" [AInt id] ;;;
                    requestTopics)
          | _ => None
          end) s); [exact St|].
  unfold dispatch, try_except, getitem, bind, gets, ret. simpl. rewrite Hcb. reflexivity.
Qed.

(** A time request is answered and refreshes the sync budget.  On a
    frame, both checksums right, whose topic id is bound to
    [handleTimeRequest], the turn goes on; the session is synced; the
    reply queued for the writer carries, on the same topic id, a reading
    of the clock taken after the frame was read; [lastsync] is the next
    reading; and no byte after the frame has been read. *)
Theorem time_request_is_answered (s : SerialClient) (id : Z) (msg rest : list byte) :
  0 <= id <= 32767 -> len msg <= 32767 ->
  0 < timeout s ->
  stream s = spec_frame id msg ++ rest ->
  callbacks s !! id = Some H_handleTimeRequest ->
  exists s' n,
    read_message s = (Ok Continue, s')
    /\ (ticks s <= n)%nat /\ ticks s' = (n + 3)%nat
    /\ synced s' = true
    /\ lastsync_success (times s') = clock s n
    /\ write_queue s'
       = write_queue s ++ [QTuple ID_TIME (Time_serialize (clock s (n + 1)))]
    /\ lastsync (times s') = clock s (n + 2)
    /\ stream s' = rest
    /\ new_events s s' = [Dispatched id msg].
Proof.
  intros Hid Hl Htmo Hs Hcb.
  destruct (read_message_on_frame s id msg rest Hid Hl Htmo Hs)
    as (s1 & E & S1 & U1 & K1 & [Ck Tk]).
  destruct U1 as (_ & Utr & _ & Uq & _).
  destruct K1 as (_ & _ & _ & Kcb & _).
  rewrite E.
  unfold dispatch, handleTimeRequest, getitem, send, queue_put, Time_now, emit,
    try_except, bind, gets, modify, ret, raise, after_sync.
  simpl. rewrite Kcb, Hcb. simpl.
  eexists. exists (ticks s1).
  split; [reflexivity|]. simpl.
  rewrite Ck, Uq.
  replace (ticks s1 + 1)%nat with (S (ticks s1)) by lia.
  replace (ticks s1 + 2)%nat with (S (S (ticks s1))) by lia.
  repeat split; try reflexivity; try lia.
  - exact S1.
  - apply new_events_app. simpl. rewrite Utr. reflexivity.
Qed.

(** No other frame refreshes the sync budget.  On a frame, both
    checksums right, whose topic id is bound to another handler than
    [handleTimeRequest], the session is synced and [lastsync_success]
    is read off the clock, and [lastsync] stays as it was, whatever the
    handler does. *)
Theorem other_frames_leave_lastsync (s : SerialClient) (id : Z) (h : Handler)
    (msg rest : list byte) :
  0 <= id <= 32767 -> len msg <= 32767 ->
  0 < timeout s ->
  stream s = spec_frame id msg ++ rest ->
  callbacks s !! id = Some h ->
  h <> H_handleTimeRequest ->
  lastsync (times (read_message s).2) = lastsync (times s)
  /\ synced (read_message s).2 = true
  /\ exists n, (ticks s <= n)%nat
               /\ lastsync_success (times (read_message s).2) = clock s n.
Proof.
  intros Hid Hl Htmo Hs Hcb Hh.
  destruct (read_message_on_frame s id msg rest Hid Hl Htmo Hs)
    as (s1 & E & S1 & U1 & K1 & [Ck Tk]).
  destruct U1 as (_ & _ & _ & _ & Uls & _).
  destruct K1 as (_ & _ & _ & Kcb & _).
  rewrite E, bind_then_ret.
  assert (Hcb1 : callbacks (after_sync s1) !! id = Some h)
    by (simpl; rewrite Kcb; exact Hcb).
  destruct (dispatch_lastsync_kept id msg h (after_sync s1) Hcb1 Hh) as (L1 & L2 & L3).
  rewrite L1, L2. simpl.
  split; [exact Uls|]. split; [apply L3; reflexivity|].
  exists (ticks s1). split; [exact Tk | rewrite Ck; reflexivity].
Qed.

End SyncBudget.

Lemma time_request_is_answered_witness :
  exists s' n,
    @read_message no_ros (session_on (spec_frame 10 [])) = (Ok Continue, s')
    /\ (ticks (session_on (spec_frame 10 [])) <= n)%nat /\ ticks s' = (n + 3)%nat
    /\ synced s' = true
    /\ lastsync_success (times s') = clock (session_on (spec_frame 10 [])) n
    /\ write_queue s'
       = write_queue (session_on (spec_frame 10 []))
         ++ [QTuple (@ID_TIME no_ros)
               (@Time_serialize no_ros (clock (session_on (spec_frame 10 [])) (n + 1)))]
    /\ lastsync (times s') = clock (session_on (spec_frame 10 [])) (n + 2)
    /\ stream s' = []
    /\ new_events (session_on (spec_frame 10 [])) s' = [Dispatched 10 []].
Proof.
  apply (@time_request_is_answered no_ros (session_on (spec_frame 10 [])) 10 [] []).
  - lia.
  - vm_compute. discriminate.
  - reflexivity.
  - reflexivity.
  - reflexivity.
Defined.

Lemma other_frames_leave_lastsync_witness :
  lastsync (times (@read_message no_ros (session_on (spec_frame 7 [x01]))).2)
  = lastsync (times (session_on (spec_frame 7 [x01])))
  /\ synced (@read_message no_ros (session_on (spec_frame 7 [x01]))).2 = true
  /\ exists n, (ticks (session_on (spec_frame 7 [x01])) <= n)%nat
               /\ lastsync_success
                    (times (@read_message no_ros (session_on (spec_frame 7 [x01]))).2)
                  = clock (session_on (spec_frame 7 [x01])) n.
Proof.
  apply (@other_frames_leave_lastsync no_ros (session_on (spec_frame 7 [x01])) 7
           H_handleLoggingRequest [x01] []).
  - lia.
  - vm_compute. discriminate.
  - reflexivity.
  - reflexivity.
  - reflexivity.
  - discriminate.
Defined.

(** ** Parameter requests *)

Section Parameters.

Context {ext : External}.

(** A parameter that is an empty list ends the reader with an exception
    it has no handler for.  On a frame, both checksums right, whose
    topic id is bound to [handleParameterRequest] and whose payload
    decodes to the name of a parameter that is an empty list, the handler
    raises [IndexError] at the type of the first item; nothing is queued
    for the device, and neither the [except KeyError] around the call nor
    the [except IOError] of the loop takes the exception, which leaves
    [run]. *)
Theorem empty_list_parameter_ends_the_reader (s : SerialClient) (id : Z)
    (msg rest : list byte) (name : string) :
  0 <= id <= 32767 -> len msg <= 32767 ->
  0 < timeout s ->
  stream s = spec_frame id msg ++ rest ->
  callbacks s !! id = Some H_handleParameterRequest ->
  RequestParamRequest_deserialize msg = Ok name ->
  get_param name = Ok (Many []) ->
  exists s',
    read_message s = (Raise IndexError, s')
    /\ try_except read_message on_IOError s = (Raise IndexError, s')
    /\ write_queue s' = write_queue s
    /\ new_events s s' = [Dispatched id msg]
    /\ stream s' = rest.
Proof.
  intros Hid Hl Htmo Hs Hcb Hd Hg.
  destruct (read_message_on_frame s id msg rest Hid Hl Htmo Hs)
    as (s1 & E & S1 & U1 & K1 & _).
  destruct U1 as (_ & Utr & _ & Uq & _).
  destruct K1 as (_ & _ & _ & Kcb & _).
  assert (E' : read_message s
               = (Raise IndexError,
                  set_trace (trace (after_sync s1) ++ [Dispatched id msg]) (after_sync s1))).
  { rewrite E.
    unfold dispatch, getitem, emit, try_except, after_sync.
    unfold bind, gets, modify, ret, raise. simpl. rewrite Kcb, Hcb. simpl.
    unfold handleParameterRequest. rewrite Hd.
    unfold fetch_param, try_except, bind, lift, ret, raise. rewrite Hg. reflexivity. }
  eexists. split; [exact E'|].
  split; [unfold try_except; rewrite E'; reflexivity|].
  simpl. split; [exact Uq|]. split; [|exact S1].
  apply new_events_app. simpl. rewrite Utr. reflexivity.
Qed.

End Parameters.

Lemma empty_list_parameter_ends_the_reader_witness :
  exists s',
    @read_message param_ros (param_session (spec_frame 6 [x00])) = (Raise IndexError, s')
    /\ try_except (@read_message param_ros) on_IOError (param_session (spec_frame 6 [x00]))
       = (Raise IndexError, s')
    /\ write_queue s' = write_queue (param_session (spec_frame 6 [x00]))
    /\ new_events (param_session (spec_frame 6 [x00])) s' = [Dispatched 6 [x00]]
    /\ stream s' = [].
Proof.
  apply (@empty_list_parameter_ends_the_reader param_ros
           (param_session (spec_frame 6 [x00])) 6 [x00] [] "empty").
  - lia.
  - vm_compute. discriminate.
  - reflexivity.
  - reflexivity.
  - reflexivity.
  - reflexivity.
  - reflexivity.
Defined.

(** * The socket servers *)

Section UDPServer.

Import sockets RosSerialUDPServer.

Lemma udp_set_sent_nil (s : Server) : set_sent (sent s ++ []) s = s.
Proof. rewrite app_nil_r. destruct s; reflexivity. Qed.

Lemma udp_write_loop_sends (fuel : nat) (data : list byte) (a : Address) :
  forall (offset : nat) (s : Server),
    client_address s = Some a ->
    send_faults s = [] ->
    (List.length data - offset <= fuel)%nat ->
    exists cs,
      write_loop fuel data offset s
      = (Returns tt, set_sent (sent s ++ map (fun c => (c, a)) cs) s)
      /\ concat cs = drop offset data
      /\ Forall (fun c => (0 < List.length c <= MAX_UDP_PACKET_SIZE)%nat) cs
      /\ Forall (fun c => List.length c = MAX_UDP_PACKET_SIZE) (removelast cs).
Proof.
  induction fuel as [|fuel IH]; intros offset s Ha Hf Hfuel.
  - exists []. cbn [write_loop].
    replace (offset <? List.length data)%nat with false
      by (symmetry; apply Nat.ltb_ge; lia).
    unfold ret. rewrite udp_set_sent_nil.
    split; [reflexivity|]. split; [|split; constructor].
    symmetry. apply drop_ge. lia.
  - cbn [write_loop]. destruct (offset <? List.length data)%nat eqn:El.
    + apply Nat.ltb_lt in El.
      set (k := Nat.min MAX_UDP_PACKET_SIZE (List.length data - offset)).
      set (chunk := take k (drop offset data)).
      assert (Hk : (0 < k <= MAX_UDP_PACKET_SIZE)%nat)
        by (unfold k, MAX_UDP_PACKET_SIZE; lia).
      assert (Hlen : List.length chunk = k).
      { unfold chunk. rewrite length_take, length_drop. unfold k. lia. }
      set (s1 := set_sent (sent s ++ [(chunk, a)]) s).
      destruct (IH (offset + k)%nat s1) as (cs & E & Hc & Hall & Hfull);
        [exact Ha | exact Hf | lia |].
      exists (chunk :: cs).
      split; [|split; [|split]].
      * unfold bind at 1. unfold gets at 1. rewrite Ha.
        unfold bind at 1. unfold try_except, sendto. rewrite Hf.
        fold s1. rewrite E. unfold s1. simpl.
        rewrite <- app_assoc. reflexivity.
      * simpl. rewrite Hc. unfold chunk.
        rewrite <- drop_drop. apply take_drop.
      * constructor; [rewrite Hlen; exact Hk | exact Hall].
      * destruct cs as [|c cs']; [constructor|].
        change (removelast (chunk :: c :: cs')) with (chunk :: removelast (c :: cs')).
        constructor; [|exact Hfull].
        rewrite Hlen.
        assert (Hne : drop (offset + k) data <> []).
        { rewrite <- Hc. inversion Hall as [|? ? Hc0 _]; subst.
          destruct c; simpl in *; [lia | discriminate]. }
        assert ((offset + k < List.length data)%nat).
        { destruct (Nat.lt_ge_cases (offset + k) (List.length data)) as [|Hge]; [assumption|].
          exfalso. apply Hne. apply drop_ge. lia. }
        unfold k in *. lia.
    + apply Nat.ltb_ge in El. exists [].
      unfold ret. rewrite udp_set_sent_nil.
      split; [reflexivity|]. split; [|split; constructor].
      symmetry. apply drop_ge. lia.
Qed.

(** [RosSerialUDPServer.write] sends the data in datagrams of at most
    508 bytes.  With a client and no [sendto] failing it returns, having
    sent to the client's address datagrams that put together are the
    data, none empty, and all but the last of 508 bytes; nothing else of
    the server changes.  Without a client it sends nothing. *)
Theorem udp_write_sends_data_in_chunks (data : list byte) (s : Server) :
  (forall a,
      isConnected s = true -> client_address s = Some a -> send_faults s = [] ->
      exists cs,
        write data s = (Returns tt, set_sent (sent s ++ map (fun c => (c, a)) cs) s)
        /\ concat cs = data
        /\ Forall (fun c => (0 < List.length c <= 508)%nat) cs
        /\ Forall (fun c => List.length c = 508%nat) (removelast cs))
  /\ (isConnected s = false \/ client_address s = None ->
      write data s = (Returns tt, s)).
Proof.
  split.
  - intros a Hc Ha Hf.
    destruct (udp_write_loop_sends (List.length data) data a 0%nat s Ha Hf)
      as (cs & E & Hcs & Hall & Hfull); [lia|].
    exists cs. unfold write, bind, gets. rewrite Hc, Ha. simpl.
    rewrite E. auto.
  - intros H. unfold write, bind, gets, ret.
    destruct H as [H|H]; rewrite H; simpl; [reflexivity|].
    rewrite orb_true_r. reflexivity.
Qed.

Lemma udp_write_loop_ends (fuel : nat) (data : list byte) (a : Address) :
  forall (offset : nat) (s : Server),
    client_address s = Some a ->
    (List.length data - offset <= fuel)%nat ->
    match (write_loop fuel data offset s).1 with
    | Returns _ => True
    | Raises e =>
        (e = RuntimeError "RosSerialServerUDP.write() socket connection broken"
         /\ In (Some BrokenPipeError) (send_faults s))
        \/ (e <> BrokenPipeError /\ In (Some e) (send_faults s))
    | Running => False
    end.
Proof.
  induction fuel as [|fuel IH]; intros offset s Ha Hfuel; cbn [write_loop].
  - replace (offset <? List.length data)%nat with false
      by (symmetry; apply Nat.ltb_ge; lia).
    exact I.
  - destruct (offset <? List.length data)%nat eqn:El; [|exact I].
    apply Nat.ltb_lt in El.
    set (k := Nat.min MAX_UDP_PACKET_SIZE (List.length data - offset)).
    assert (Hk : (0 < k)%nat) by (unfold k, MAX_UDP_PACKET_SIZE; lia).
    unfold bind at 1. unfold gets at 1. rewrite Ha.
    unfold bind at 1. unfold try_except, sendto.
    destruct (send_faults s) as [|[e|] fs] eqn:Ef.
    + match goal with
      | |- context [write_loop fuel data ?o ?x] =>
          specialize (IH o x Ha ltac:(lia)); simpl in IH; rewrite Ef in IH;
          destruct (write_loop fuel data o x) as [[u|e'|] s2]
      end; simpl in *; auto.
    + destruct e; simpl; try (right; split; [discriminate | left; reflexivity]).
      left. split; [reflexivity | left; reflexivity].
    + match goal with
      | |- context [write_loop fuel data ?o ?x] =>
          specialize (IH o x Ha ltac:(lia)); simpl in IH;
          destruct (write_loop fuel data o x) as [[u|e'|] s2]
      end; simpl in *; auto.
      destruct IH as [[? ?]|[? ?]]; [left|right]; auto.
Qed.

(** [RosSerialUDPServer.write] ends, whatever the socket does: it returns,
    or it raises [RuntimeError] for a [BrokenPipeError] of [sendto], or it
    raises what [sendto] raised; [BrokenPipeError] itself never leaves
    it. *)
Theorem udp_write_ends (data : list byte) (s : Server) :
  match (write data s).1 with
  | Returns _ => True
  | Raises e =>
      (e = RuntimeError "RosSerialServerUDP.write() socket connection broken"
       /\ In (Some BrokenPipeError) (send_faults s))
      \/ (e <> BrokenPipeError /\ In (Some e) (send_faults s))
  | Running => False
  end.
Proof.
  unfold write, bind, gets, ret.
  destruct (isConnected s); simpl; [|exact I].
  destruct (client_address s) as [a|] eqn:Ha; simpl; [|exact I].
  apply (udp_write_loop_ends (List.length data) data a 0%nat s Ha). lia.
Qed.

End UDPServer.

Section SocketMonad.

Import sockets.

Context {S : Type}.

Lemma sock_bind_gets {A B : Type} (f : S -> A) (k : A -> M S B) (s : S) :
  bind (gets f) k s = k (f s) s.
Proof. reflexivity. Qed.

Lemma sock_bind_modify {B : Type} (f : S -> S) (k : unit -> M S B) (s : S) :
  bind (modify f) k s = k tt (f s).
Proof. reflexivity. Qed.

Lemma sock_bind_ret {A B : Type} (a : A) (k : A -> M S B) (s : S) :
  bind (ret a) k s = k a s.
Proof. reflexivity. Qed.

Lemma sock_bind_ok {A B : Type} (m : M S A) (k : A -> M S B) (s s' : S) (a : A) :
  m s = (Returns a, s') -> bind m k s = k a s'.
Proof. intros E. unfold bind. rewrite E. reflexivity. Qed.

Lemma sock_bind_raise {A B : Type} (m : M S A) (k : A -> M S B) (s s' : S) (e : sock_exn) :
  m s = (Raises e, s') -> bind m k s = (Raises e, s').
Proof. intros E. unfold bind. rewrite E. reflexivity. Qed.

Lemma sock_bind_assoc {A B C : Type} (m : M S A) (k : A -> M S B) (k' : B -> M S C)
    (s : S) :
  bind (bind m k) k' s = bind m (fun a => bind (k a) k') s.
Proof. unfold bind. destruct (m s) as [[a|e|] s1]; reflexivity. Qed.

End SocketMonad.

Lemma split_at_length {A : Type} (n : nat) (a b t : list A) :
  a ++ b = t -> List.length a = n -> a = take n t /\ b = drop n t.
Proof.
  intros <- <-. rewrite take_app_length, drop_app_length. auto.
Qed.

Section UDPRead.

Import sockets RosSerialUDPServer.

Lemma udp_check_address (a c : Address) (s : Server) :
  client_address s = Some c ->
  exists s',
    check_address a s = (Returns (bool_decide (a.1 = c.1)), s')
    /\ client_address s' = Some (if bool_decide (a.1 = c.1) then a else c)
    /\ msg s' = msg s /\ recv_buffer s' = recv_buffer s
    /\ incoming s' = incoming s /\ server_kept s s'.
Proof.
  intros Hc. unfold check_address, server_kept.
  rewrite sock_bind_gets, Hc.
  destruct (bool_decide (Some a = Some c)) eqn:E; simpl.
  - apply bool_decide_eq_true in E. injection E as ->.
    rewrite bool_decide_eq_true_2 by reflexivity.
    exists s. rewrite Hc. repeat split; reflexivity.
  - destruct (bool_decide (a.1 = c.1)) eqn:Eh.
    + apply bool_decide_eq_true in Eh.
      eexists. split; [reflexivity|]. simpl. rewrite ?Hc. simpl.
      repeat split; congruence.
    + eexists. split; [reflexivity|]. simpl. rewrite ?Hc.
      repeat split; reflexivity.
Qed.

Lemma udp_read_loop_stream (n : Z) (host : string) (fuel : nat) :
  forall (s : Server) (c : Address),
    client_address s = Some c -> c.1 = host ->
    Forall (fun d => d.1 <> []) (incoming s) ->
    (List.length (incoming s) < fuel)%nat ->
    len (msg s) <= n ->
    (len (msg s) < n -> recv_buffer s = []) ->
    n <= len (msg s ++ recv_buffer s ++ pending host (incoming s)) ->
    exists s',
      read_loop fuel n s = (Returns tt, s')
      /\ msg s' ++ recv_buffer s' ++ pending host (incoming s')
         = msg s ++ recv_buffer s ++ pending host (incoming s)
      /\ len (msg s') = n
      /\ server_kept s s'.
Proof.
  induction fuel as [|fuel IH]; intros s c Hc Hhost Hne Hfuel Hle Hbuf Hav; [lia|].
  cbn [read_loop]. rewrite sock_bind_gets.
  destruct (len (msg s) <? n) eqn:El.
  - apply Z.ltb_lt in El. specialize (Hbuf El).
    destruct (incoming s) as [|[chunk a] rest] eqn:Ein.
    { exfalso. rewrite Hbuf in Hav. simpl in Hav. rewrite app_nil_r in Hav. lia. }
    inversion Hne as [|? ? Hch Hrest]; subst. simpl in Hch.
    assert (Er : recvfrom 4096 false s = (Returns (take 4096 chunk, a), set_incoming rest s)).
    { unfold recvfrom. rewrite Ein. reflexivity. }
    rewrite (sock_bind_ok _ _ _ _ _ Er). cbv beta.
    assert (Hch' : is_empty (take 4096 chunk) = false)
      by (destruct chunk; [congruence | reflexivity]).
    change ((take 4096 chunk, a).1) with (take 4096 chunk).
    change ((take 4096 chunk, a).2) with a.
    rewrite Hch'.
    destruct (udp_check_address a c (set_incoming rest s) Hc)
      as (s2 & E2 & C2 & M2 & B2 & I2 & K2).
    rewrite (sock_bind_ok _ _ _ _ _ E2).
    simpl in M2, B2, I2.
    simpl in Hav. simpl.
    destruct (bool_decide (a.1 = c.1)) eqn:Eh.
    + rewrite sock_bind_gets, sock_bind_modify.
      set (ch := take 4096 chunk) in *.
      set (k := n - len (msg s2)).
      assert (Hk : 0 < k) by (unfold k; rewrite M2; lia).
      assert (Hst : slice_to k ch = take (Z.to_nat k) ch)
        by (unfold slice_to; replace (k <? 0) with false
              by (symmetry; apply Z.ltb_ge; lia); reflexivity).
      assert (Hsf : slice_from k ch = drop (Z.to_nat k) ch)
        by (unfold slice_from; replace (k <? 0) with false
              by (symmetry; apply Z.ltb_ge; lia); reflexivity).
      rewrite Hst.
      destruct (len ch >? k) eqn:Eg.
      * assert (Hg : k < len ch) by (apply Z.gtb_lt; exact Eg).
        rewrite sock_bind_modify, Hsf.
        match goal with
        | |- context [read_loop fuel n ?x] => set (s3 := x)
        end.
        assert (Hm3 : len (msg s3) = n).
        { unfold s3. simpl. unfold len in *. rewrite length_app, length_take. lia. }
        destruct (IH s3 a) as (s' & E & Hcat & Hlen & K);
          [ exact C2
          | apply bool_decide_eq_true in Eh; exact Eh
          | unfold s3; simpl; rewrite I2; exact Hrest
          | unfold s3; simpl; rewrite I2; simpl in Hfuel; lia
          | lia
          | lia
          | unfold len in *; rewrite length_app; lia
          |].
        exists s'. split; [exact E|]. split; [|split; [exact Hlen|]].
        -- rewrite Hcat. unfold s3. simpl. rewrite I2, B2, M2, Hbuf. simpl.
           rewrite <- (take_drop (Z.to_nat k) ch) at 3.
           rewrite <- !app_assoc. reflexivity.
        -- destruct K as (?&?&?&?), K2 as (?&?&?&?).
           unfold s3, server_kept in *. simpl in *.
           repeat split; congruence.
      * assert (Hg : len ch <= k) by (rewrite Z.gtb_ltb in Eg; apply Z.ltb_ge in Eg; exact Eg).
        rewrite sock_bind_ret.
        match goal with
        | |- context [read_loop fuel n ?x] => set (s3 := x)
        end.
        assert (Htk : take (Z.to_nat k) ch = ch)
          by (apply take_ge; unfold len in Hg; lia).
        destruct (IH s3 a) as (s' & E & Hcat & Hlen & K);
          [ exact C2
          | apply bool_decide_eq_true in Eh; exact Eh
          | unfold s3; simpl; rewrite I2; exact Hrest
          | unfold s3; simpl; rewrite I2; simpl in Hfuel; lia
          | unfold s3; simpl; rewrite Htk; unfold len in *; rewrite length_app; lia
          | intros _; unfold s3; simpl; rewrite B2; exact Hbuf
          | unfold s3; simpl; rewrite Htk, I2, B2, M2, Hbuf;
            rewrite Hbuf in Hav; simpl in *;
            rewrite <- app_assoc; exact Hav
          |].
        exists s'. split; [exact E|]. split; [|split; [exact Hlen|]].
        -- rewrite Hcat. unfold s3. simpl. rewrite Htk, I2, B2, M2, Hbuf. simpl.
           rewrite <- !app_assoc. reflexivity.
        -- destruct K as (?&?&?&?), K2 as (?&?&?&?).
           unfold s3, server_kept in *. simpl in *.
           repeat split; congruence.
    + destruct (IH s2 c) as (s' & E & Hcat & Hlen & K);
        [ exact C2
        | reflexivity
        | rewrite I2; exact Hrest
        | rewrite I2; simpl in Hfuel; lia
        | rewrite M2; exact Hle
        | intros _; rewrite B2; exact Hbuf
        | rewrite M2, B2, I2; exact Hav
        |].
      exists s'. split; [exact E|]. split; [|split; [exact Hlen|]].
      * rewrite Hcat, M2, B2, I2. reflexivity.
      * destruct K as (?&?&?&?), K2 as (?&?&?&?).
        unfold server_kept in *. simpl in *.
        repeat split; congruence.
  - apply Z.ltb_ge in El.
    exists s. split; [reflexivity|]. split; [reflexivity|].
    split; [lia|]. unfold server_kept. auto.
Qed.

End UDPRead.

Section UDPReadWhole.

Import sockets RosSerialUDPServer.

Lemma slice_to_nonneg {A : Type} (k : Z) (l : list A) :
  0 <= k -> slice_to k l = take (Z.to_nat k) l.
Proof.
  intros H. unfold slice_to.
  replace (k <? 0) with false by (symmetry; apply Z.ltb_ge; lia). reflexivity.
Qed.

Lemma slice_from_nonneg {A : Type} (k : Z) (l : list A) :
  0 <= k -> slice_from k l = drop (Z.to_nat k) l.
Proof.
  intros H. unfold slice_from.
  replace (k <? 0) with false by (symmetry; apply Z.ltb_ge; lia). reflexivity.
Qed.

(** The head of [read], to the loop: the bytes asked for are taken from
    the buffer as far as it has them. *)
Lemma udp_read_head (n : Z) (s : Server) :
  isConnected s = true -> client_address s <> None -> 0 <= n ->
  exists s1,
    read n s = (read_loop (S (List.length (incoming s))) n >>> gets msg)%sock s1
    /\ msg s1 ++ recv_buffer s1 = recv_buffer s
    /\ len (msg s1) <= n
    /\ (len (msg s1) < n -> recv_buffer s1 = [])
    /\ incoming s1 = incoming s /\ client_address s1 = client_address s
    /\ server_kept s s1.
Proof.
  intros Hc Ha Hn.
  unfold read. rewrite sock_bind_modify, sock_bind_gets, sock_bind_gets.
  simpl. rewrite Hc. destruct (client_address s) as [c|] eqn:Ec; [|congruence].
  simpl. rewrite sock_bind_gets. simpl.
  destruct (recv_buffer s) as [|b buf] eqn:Eb.
  - simpl. rewrite sock_bind_ret, sock_bind_gets. simpl.
    eexists. split; [reflexivity|]. simpl. rewrite ?Eb, ?Ec, ?Hc.
    unfold server_kept. simpl. rewrite ?Ec, ?Hc.
    repeat split; auto; unfold len; simpl; lia.
  - cbn [is_empty negb].
    set (k := Z.min (len (b :: buf)) n).
    assert (Hk : 0 <= k) by (unfold k, len; simpl; lia).
    rewrite sock_bind_assoc, !sock_bind_modify, sock_bind_gets. simpl.
    rewrite Eb, (slice_to_nonneg _ _ Hk), (slice_from_nonneg _ _ Hk).
    eexists. split; [reflexivity|]. simpl. rewrite ?Ec, ?Hc.
    unfold server_kept. simpl. rewrite ?Ec, ?Hc.
    split; [apply take_drop|].
    split; [unfold len in *; rewrite length_take; simpl in *; lia|].
    split; [|repeat split; reflexivity].
    intros Hlt. apply drop_ge.
    unfold len in *. rewrite length_take in Hlt. simpl in *. lia.
Qed.

(** [RosSerialUDPServer.read] gives the bytes of the client in the order
    they were sent.  With a client, no datagram waiting empty, and at
    least the bytes asked for to come (in the buffer or in datagrams from
    the client's host, each cut to 4096 bytes), it returns exactly the
    first bytes asked for of those to come and leaves the rest to come:
    no byte of the client is lost, doubled or moved.  Datagrams from
    other hosts met on the way are dropped, and a datagram from another
    port of the client's host is taken. *)
Theorem udp_read_returns_stream (n : Z) (s : Server) (c : Address) :
  isConnected s = true ->
  client_address s = Some c ->
  Forall (fun d => d.1 <> []) (incoming s) ->
  0 <= n <= len (recv_buffer s ++ pending c.1 (incoming s)) ->
  exists s',
    read n s
    = (Returns (take (Z.to_nat n) (recv_buffer s ++ pending c.1 (incoming s))), s')
    /\ recv_buffer s' ++ pending c.1 (incoming s')
       = drop (Z.to_nat n) (recv_buffer s ++ pending c.1 (incoming s))
    /\ server_kept s s'.
Proof.
  intros Hc Ha Hne [Hn Hav].
  destruct (udp_read_head n s Hc ltac:(congruence) Hn)
    as (s1 & E & Hcat & Hle & Hbuf & Hin & Hcl & K1).
  rewrite Ha in Hcl.
  destruct (udp_read_loop_stream n c.1 (S (List.length (incoming s))) s1 c)
    as (s' & El & Hcat' & Hlen & K);
    [ exact Hcl | reflexivity | rewrite Hin; exact Hne | rewrite Hin; lia
    | exact Hle | exact Hbuf
    | rewrite app_assoc, Hcat, Hin; exact Hav |].
  exists s'. rewrite E, (sock_bind_ok _ _ _ _ _ El).
  rewrite (app_assoc (msg s1)), Hcat, Hin in Hcat'.
  destruct (split_at_length (Z.to_nat n) _ _ _ Hcat') as [Hm Hr];
    [unfold len in Hlen; lia|].
  split; [unfold gets; rewrite <- Hm; reflexivity|].
  split; [exact Hr|].
  destruct K as (?&?&?&?), K1 as (?&?&?&?).
  unfold server_kept. repeat split; congruence.
Qed.

Lemma udp_read_loop_ends (n : Z) (fuel : nat) :
  forall (s : Server),
    client_address s <> None ->
    (List.length (incoming s) < fuel)%nat ->
    (len (msg s) < n -> recv_buffer s = []) ->
    match read_loop fuel n s with
    | (Returns _, s') => True
    | (Raises e, s') =>
        recv_buffer s' = []
        /\ (e = timeout
            \/ e = RuntimeError "RosSerialServer.read() socket connection broken")
    | (Running, _) => False
    end.
Proof.
  induction fuel as [|fuel IH]; intros s Hc Hfuel Hbuf; [lia|].
  cbn [read_loop]. rewrite sock_bind_gets.
  destruct (len (msg s) <? n) eqn:El; [|exact I].
  apply Z.ltb_lt in El. specialize (Hbuf El).
  destruct (client_address s) as [c|] eqn:Ec; [|congruence].
  destruct (incoming s) as [|[chunk a] rest] eqn:Ein.
  { unfold bind, recvfrom. rewrite Ein. simpl. auto. }
  assert (Er : recvfrom 4096 false s = (Returns (take 4096 chunk, a), set_incoming rest s)).
  { unfold recvfrom. rewrite Ein. reflexivity. }
  rewrite (sock_bind_ok _ _ _ _ _ Er). cbv beta.
  change ((take 4096 chunk, a).1) with (take 4096 chunk).
  change ((take 4096 chunk, a).2) with a.
  destruct (is_empty (take 4096 chunk)) eqn:Ech.
  { unfold raise. simpl. auto. }
  destruct (udp_check_address a c (set_incoming rest s) Ec)
    as (s2 & E2 & C2 & M2 & B2 & I2 & K2).
  rewrite (sock_bind_ok _ _ _ _ _ E2).
  simpl in M2, B2, I2. simpl in Hfuel.
  destruct (bool_decide (a.1 = c.1)).
  - rewrite sock_bind_gets, sock_bind_modify.
    set (ch := take 4096 chunk) in *.
    set (k := n - len (msg s2)).
    assert (Hk : 0 < k) by (unfold k; rewrite M2; lia).
    rewrite slice_to_nonneg by lia.
    destruct (len ch >? k) eqn:Eg.
    + assert (Hg : k < len ch) by (apply Z.gtb_lt; exact Eg).
      rewrite sock_bind_modify.
      match goal with
      | |- context [read_loop fuel n ?x] => set (s3 := x)
      end.
      apply (IH s3).
      * unfold s3. simpl. rewrite C2. discriminate.
      * unfold s3. simpl. rewrite I2. lia.
      * unfold s3. simpl. unfold len in *. rewrite length_app, length_take. lia.
    + rewrite sock_bind_ret.
      match goal with
      | |- context [read_loop fuel n ?x] => set (s3 := x)
      end.
      apply (IH s3).
      * unfold s3. simpl. rewrite C2. discriminate.
      * unfold s3. simpl. rewrite I2. lia.
      * intros _. unfold s3. simpl. rewrite B2. exact Hbuf.
  - apply (IH s2).
    + rewrite C2. discriminate.
    + rewrite I2. lia.
    + intros _. rewrite B2. exact Hbuf.
Qed.

(** [RosSerialUDPServer.read] ends, and a read that fails loses what was
    buffered.  For a length that is not negative it returns, or raises
    the timeout of the socket (no datagram waiting), or raises
    [RuntimeError] (an empty datagram, whoever sent it); and where it
    raises, the buffer of the server is empty: the bytes it held and
    those received on the way are in the message that the next [read]
    starts by dropping. *)
Theorem udp_read_ends (n : Z) (s : Server) :
  0 <= n ->
  match read n s with
  | (Returns _, s') => True
  | (Raises e, s') =>
      recv_buffer s' = []
      /\ (e = timeout
          \/ e = RuntimeError "RosSerialServer.read() socket connection broken")
  | (Running, _) => False
  end.
Proof.
  intros Hn.
  destruct (isConnected s) eqn:Hc;
    [destruct (client_address s) as [c|] eqn:Ha|].
  - destruct (udp_read_head n s Hc ltac:(congruence) Hn)
      as (s1 & E & _ & _ & Hbuf & Hin & Hcl & _).
    rewrite E.
    pose proof (udp_read_loop_ends n (S (List.length (incoming s))) s1) as L.
    unfold bind.
    destruct (read_loop (S (List.length (incoming s))) n s1) as [[u|e|] s2];
      [exact I | | ]; apply L; try (rewrite Hcl, Ha; discriminate);
      try (rewrite Hin; lia); exact Hbuf.
  - unfold read. rewrite sock_bind_modify, sock_bind_gets, sock_bind_gets.
    simpl. rewrite Hc, Ha. exact I.
  - unfold read. rewrite sock_bind_modify, sock_bind_gets, sock_bind_gets.
    simpl. rewrite Hc. exact I.
Qed.

End UDPReadWhole.

Section UDPInWaiting.

Import sockets RosSerialUDPServer.

(** [RosSerialUDPServer.inWaiting] takes the datagram that is waiting,
    whoever sent it.  With a client and a datagram waiting that is not
    empty, it returns the length of the buffer with the datagram (cut to
    4096 bytes) added at its end; for a datagram from another host it
    logs that the packet is ignored and adds it all the same, and the
    next [read] of that many bytes returns the buffer with the bytes of
    that datagram. *)
Theorem udp_inWaiting_takes_any_datagram (s : Server) (chunk : list byte)
    (a c : Address) (rest : list (list byte * Address)) :
  isConnected s = true ->
  client_address s = Some c ->
  incoming s = (chunk, a) :: rest ->
  chunk <> [] ->
  exists s',
    inWaiting s = (Returns (len (recv_buffer s ++ take 4096 chunk)), s')
    /\ recv_buffer s' = recv_buffer s ++ take 4096 chunk
    /\ incoming s' = rest
    /\ log s'
       = log s ++ (if bool_decide (a = c) then []
                   else if bool_decide (a.1 = c.1) then [Updating c a]
                        else [Ignoring a])
    /\ (read (len (recv_buffer s ++ take 4096 chunk)) s').1
       = Returns (recv_buffer s ++ take 4096 chunk).
Proof.
  intros Hc Ha Hin Hne.
  assert (Hch : is_empty (take 4096 chunk) = false)
    by (destruct chunk; [congruence | reflexivity]).
  assert (E : exists s',
             inWaiting s = (Returns (len (recv_buffer s ++ take 4096 chunk)), s')
             /\ recv_buffer s' = recv_buffer s ++ take 4096 chunk
             /\ incoming s' = rest
             /\ log s'
                = log s ++ (if bool_decide (a = c) then []
                            else if bool_decide (a.1 = c.1) then [Updating c a]
                                 else [Ignoring a])
             /\ isConnected s' = true /\ client_address s' <> None).
  { unfold inWaiting, try_except, check_address, emit, recvfrom, bind, gets, modify,
      ret, raise.
    rewrite Hin. simpl. rewrite Hch. simpl. rewrite Ha. simpl.
    destruct (bool_decide (Some a = Some c)) eqn:E1.
    - apply bool_decide_eq_true in E1. injection E1 as ->.
      rewrite (bool_decide_eq_true_2 (c = c)) by reflexivity. simpl.
      eexists. split; [reflexivity|]. simpl. rewrite app_nil_r, ?Ha, Hc.
      repeat split; auto; try discriminate.
    - apply bool_decide_eq_false in E1.
      rewrite (bool_decide_eq_false_2 (a = c)) by congruence. simpl.
      destruct (bool_decide (a.1 = c.1)); simpl;
        (eexists; split; [reflexivity|]); simpl; rewrite ?Ha, Hc;
        repeat split; auto; try discriminate. }
  destruct E as (s' & E & Hb & Hi & Hl & Hc' & Ha').
  exists s'. split; [exact E|]. split; [exact Hb|]. split; [exact Hi|].
  split; [exact Hl|].
  set (B := recv_buffer s ++ take 4096 chunk) in *.
  destruct (udp_read_head (len B) s' Hc' Ha' ltac:(unfold len; lia))
    as (s1 & E1 & Hcat & Hle & Hbuf & _).
  rewrite E1, Hb in *.
  assert (Hm : msg s1 = B).
  { destruct (Z.lt_ge_cases (len (msg s1)) (len B)) as [Hlt|Hge].
    - specialize (Hbuf Hlt). rewrite Hbuf, app_nil_r in Hcat. exact Hcat.
    - destruct (split_at_length (List.length B) _ _ _ Hcat) as [H1 _];
        [unfold len in *; lia|].
      rewrite H1. apply take_ge. lia. }
  cbn [read_loop]. rewrite sock_bind_assoc, sock_bind_gets, Hm.
  replace (len B <? len B) with false by (symmetry; apply Z.ltb_irrefl).
  rewrite sock_bind_ret. unfold gets. simpl. rewrite Hm. reflexivity.
Qed.

End UDPInWaiting.

Section TCPServer.

Import sockets RosSerialServer.

Lemma tcp_pending_next (piece rest : list byte) (more : list (list byte)) (k : nat) :
  piece <> [] ->
  pending (if is_empty (drop k piece) then more else drop k piece :: more)
  = drop k piece ++ pending more
  /\ closing (if is_empty (drop k piece) then more else drop k piece :: more)
     = closing (piece :: more).
Proof.
  intros Hp.
  destruct piece as [|b p]; [congruence|].
  destruct (drop k (b :: p)) as [|d ds]; simpl; auto.
Qed.

Lemma tcp_read_loop_stream (n : Z) (fuel : nat) :
  forall (s : Server),
    (Z.to_nat (n - len (msg s)) <= fuel)%nat ->
    len (msg s) <= n ->
    n <= len (msg s ++ pending (incoming s)) ->
    exists s',
      read_loop fuel n s = (Returns tt, s')
      /\ msg s' ++ pending (incoming s') = msg s ++ pending (incoming s)
      /\ len (msg s') = n
      /\ closing (incoming s') = closing (incoming s)
      /\ isConnected s' = isConnected s /\ sent s' = sent s
      /\ send_script s' = send_script s.
Proof.
  induction fuel as [|fuel IH]; intros s Hfuel Hle Hav; cbn [read_loop];
    rewrite sock_bind_gets.
  - replace (len (msg s) <? n) with false by (symmetry; apply Z.ltb_ge; lia).
    exists s. repeat split; auto. lia.
  - destruct (len (msg s) <? n) eqn:El.
    + apply Z.ltb_lt in El.
      set (k := Z.to_nat (n - len (msg s))).
      assert (Hk : (0 < k)%nat) by (unfold k; lia).
      destruct (incoming s) as [|[|b p] more] eqn:Ein;
        [ exfalso; simpl in Hav; rewrite app_nil_r in Hav; lia
        | exfalso; simpl in Hav; rewrite app_nil_r in Hav; lia
        | ].
      assert (Er : recv k false false s
                   = (Returns (take k (b :: p)),
                      set_incoming (if is_empty (drop k (b :: p)) then more
                                    else drop k (b :: p) :: more) s)).
      { unfold recv. rewrite Ein. reflexivity. }
      rewrite (sock_bind_ok _ _ _ _ _ Er).
      assert (Hch : is_empty (take k (b :: p)) = false)
        by (destruct k; [lia | reflexivity]).
      rewrite Hch, sock_bind_modify.
      destruct (tcp_pending_next (b :: p) [] more k ltac:(discriminate)) as [Hp Hcl].
      match goal with
      | |- context [read_loop fuel n ?x] => set (s1 := x)
      end.
      assert (Hl1 : len (msg s1) = len (msg s) + len (take k (b :: p))).
      { unfold s1, len. simpl msg. rewrite length_app. lia. }
      assert (Hl2 : 0 < len (take k (b :: p)) <= Z.of_nat k).
      { unfold len. rewrite length_take. simpl. lia. }
      destruct (IH s1) as (s' & E & Hcat & Hlen & Hc & K);
        [ unfold k in *; lia
        | unfold k in *; lia
        | unfold s1; simpl msg; simpl incoming; rewrite Hp;
          rewrite <- app_assoc, (app_assoc (take k (b :: p))), take_drop;
          exact Hav
        |].
      exists s'. split; [exact E|]. split; [|split; [exact Hlen|split]].
      * rewrite Hcat. unfold s1. simpl msg. simpl incoming. rewrite Hp.
        rewrite <- app_assoc, (app_assoc (take k (b :: p))), take_drop. reflexivity.
      * rewrite Hc. unfold s1. simpl incoming. exact Hcl.
      * exact K.
    + apply Z.ltb_ge in El. exists s. repeat split; auto. lia.
Qed.

(** [RosSerialServer.read] gives the bytes of the peer in the order they
    were sent, however the connection cuts them.  Connected, and with at
    least the bytes asked for to come before the peer closes, it returns
    exactly the first bytes asked for of those to come and leaves the
    rest to come. *)
Theorem tcp_read_returns_stream (n : Z) (s : Server) :
  isConnected s = true ->
  0 <= n <= len (pending (incoming s)) ->
  exists s',
    read n s = (Returns (take (Z.to_nat n) (pending (incoming s))), s')
    /\ pending (incoming s') = drop (Z.to_nat n) (pending (incoming s))
    /\ closing (incoming s') = closing (incoming s)
    /\ sent s' = sent s.
Proof.
  intros Hc [Hn Hav].
  unfold read. rewrite sock_bind_modify, sock_bind_gets. simpl. rewrite Hc. simpl.
  destruct (tcp_read_loop_stream n (Z.to_nat n) (set_msg [] s))
    as (s' & E & Hcat & Hlen & Hcl & _ & Hs & _);
    [ simpl; unfold len; simpl; lia | unfold len; simpl; lia | exact Hav |].
  rewrite (sock_bind_ok _ _ _ _ _ E). simpl in Hcat, Hcl, Hs.
  destruct (split_at_length (Z.to_nat n) _ _ _ Hcat) as [Hm Hr];
    [unfold len in Hlen; lia|].
  exists s'. unfold gets. rewrite <- Hm. auto.
Qed.

Lemma tcp_read_loop_ends (n : Z) (fuel : nat) :
  forall (s : Server),
    (Z.to_nat (n - len (msg s)) <= fuel)%nat ->
    len (msg s) <= n ->
    match read_loop fuel n s with
    | (Returns _, s') => len (msg s') = n
    | (Raises e, _) =>
        e = timeout
        \/ e = RuntimeError "RosSerialServer.read() socket connection broken"
    | (Running, _) => False
    end.
Proof.
  induction fuel as [|fuel IH]; intros s Hfuel Hle; cbn [read_loop];
    rewrite sock_bind_gets.
  - replace (len (msg s) <? n) with false by (symmetry; apply Z.ltb_ge; lia).
    simpl. lia.
  - destruct (len (msg s) <? n) eqn:El; [|apply Z.ltb_ge in El; simpl; lia].
    apply Z.ltb_lt in El.
    set (k := Z.to_nat (n - len (msg s))).
    assert (Hk : (0 < k)%nat) by (unfold k; lia).
    destruct (incoming s) as [|[|b p] more] eqn:Ein.
    + unfold bind, recv. rewrite Ein. simpl. auto.
    + unfold bind, recv. rewrite Ein. simpl. auto.
    + assert (Er : recv k false false s
                   = (Returns (take k (b :: p)),
                      set_incoming (if is_empty (drop k (b :: p)) then more
                                    else drop k (b :: p) :: more) s)).
      { unfold recv. rewrite Ein. reflexivity. }
      rewrite (sock_bind_ok _ _ _ _ _ Er).
      assert (Hch : is_empty (take k (b :: p)) = false)
        by (destruct k; [lia | reflexivity]).
      rewrite Hch, sock_bind_modify.
      match goal with
      | |- context [read_loop fuel n ?x] => set (s1 := x)
      end.
      assert (Hl1 : len (msg s1) = len (msg s) + len (take k (b :: p))).
      { unfold s1, len. simpl msg. rewrite length_app. lia. }
      assert (Hl2 : 0 < len (take k (b :: p)) <= Z.of_nat k).
      { unfold len. rewrite length_take. simpl. lia. }
      apply (IH s1); unfold k in *; lia.
Qed.

(** [RosSerialServer.read] returns all the bytes asked for or raises.
    Connected, and for a length that is not negative, it ends: with
    exactly as many bytes as were asked for, or with the timeout of the
    socket, or with [RuntimeError] where the peer has closed.  Not
    connected it returns no byte. *)
Theorem tcp_read_all_or_raises (n : Z) (s : Server) :
  (isConnected s = true -> 0 <= n ->
   match read n s with
   | (Returns bs, _) => len bs = n
   | (Raises e, _) =>
       e = timeout
       \/ e = RuntimeError "RosSerialServer.read() socket connection broken"
   | (Running, _) => False
   end)
  /\ (isConnected s = false -> (read n s).1 = Returns []).
Proof.
  split.
  - intros Hc Hn.
    unfold read. rewrite sock_bind_modify, sock_bind_gets. simpl. rewrite Hc. simpl.
    pose proof (tcp_read_loop_ends n (Z.to_nat n) (set_msg [] s)) as L.
    unfold bind.
    destruct (read_loop (Z.to_nat n) n (set_msg [] s)) as [[u|e|] s'];
      simpl; apply L; simpl; unfold len; simpl; lia.
  - intros Hc.
    unfold read. rewrite sock_bind_modify, sock_bind_gets. simpl. rewrite Hc.
    reflexivity.
Qed.

Lemma tcp_write_loop_appends (data : list byte) (fuel : nat) :
  forall (totalsent : nat) (s s' : Server),
    write_loop fuel data totalsent s = (Returns tt, s') ->
    exists pieces, sent s' = sent s ++ pieces.
Proof.
  induction fuel as [|fuel IH]; intros t s s'; cbn [write_loop].
  - destruct (t <? List.length data)%nat; unfold running, ret; intros [=]; subst.
    exists []. rewrite app_nil_r. reflexivity.
  - destruct (t <? List.length data)%nat;
      [|unfold ret; intros [=]; subst; exists []; rewrite app_nil_r; reflexivity].
    unfold bind at 1. unfold try_except, send.
    destruct (send_script s) as [|[k|e] sc]; simpl.
    + intros E. apply IH in E. destruct E as (tl & ->). simpl.
      eexists. rewrite <- app_assoc. reflexivity.
    + intros E. apply IH in E. destruct E as (tl & ->). simpl.
      eexists. rewrite <- app_assoc. reflexivity.
    + destruct e; simpl; unfold raise; intros [=].
Qed.

Lemma tcp_write_loop_sends (data : list byte) (fuel : nat) :
  forall (totalsent : nat) (s : Server),
    (List.length data - totalsent <= fuel)%nat ->
    Forall (fun st => exists k, st = Takes k) (send_script s) ->
    exists s',
      write_loop fuel data totalsent s = (Returns tt, s')
      /\ concat (sent s') = concat (sent s) ++ drop totalsent data
      /\ Forall (fun piece => piece <> []) (drop (List.length (sent s)) (sent s'))
      /\ incoming s' = incoming s /\ isConnected s' = isConnected s.
Proof.
  induction fuel as [|fuel IH]; intros totalsent s Hfuel Hsc; cbn [write_loop].
  - replace (totalsent <? List.length data)%nat with false
      by (symmetry; apply Nat.ltb_ge; lia).
    exists s. rewrite drop_ge, app_nil_r, drop_all by lia.
    repeat split; auto.
  - destruct (totalsent <? List.length data)%nat eqn:El.
    + apply Nat.ltb_lt in El.
      assert (Hd : exists b rest, drop totalsent data = b :: rest).
      { destruct (drop totalsent data) as [|b rest] eqn:Ed; [|eauto].
        apply (f_equal List.length) in Ed. rewrite length_drop in Ed. simpl in Ed. lia. }
      destruct Hd as (b & rest & Hd).
      assert (Hsend : exists piece s1,
                 send (drop totalsent data) s = (Returns (List.length piece), s1)
                 /\ sent s1 = sent s ++ [piece]
                 /\ piece <> []
                 /\ piece ++ drop (totalsent + List.length piece) data
                    = drop totalsent data
                 /\ Forall (fun st => exists k, st = Takes k) (send_script s1)
                 /\ incoming s1 = incoming s /\ isConnected s1 = isConnected s).
      { unfold send.
        destruct (send_script s) as [|st sc] eqn:Es.
        - exists (drop totalsent data). eexists. split; [reflexivity|]. simpl.
          rewrite Es. split; [reflexivity|]. split; [rewrite Hd; discriminate|].
          split; [|auto].
          assert (Hdl : List.length (drop totalsent data)
                        = (List.length data - totalsent)%nat) by apply length_drop.
          rewrite (drop_ge data (totalsent + List.length (drop totalsent data)));
            [apply app_nil_r | lia].
        - inversion Hsc as [|? ? [k ->] Hsc']; subst.
          exists (take (S k) (drop totalsent data)). eexists.
          split; [reflexivity|]. simpl.
          split; [reflexivity|]. split; [rewrite Hd; discriminate|].
          split; [|auto].
          rewrite <- drop_drop.
          assert (Hl : List.length (take (S k) (drop totalsent data))
                       = Nat.min (S k) (List.length (drop totalsent data)))
            by apply length_take.
          destruct (Nat.le_ge_cases (S k) (List.length (drop totalsent data))).
          + rewrite Hl, Nat.min_l by lia. apply take_drop.
          + rewrite Hl, Nat.min_r by lia.
            rewrite take_ge, drop_all by lia. apply app_nil_r. }
      destruct Hsend as (piece & s1 & Es & Hs1 & Hp & Hcat & Hsc1 & Hi1 & Hc1).
      unfold bind at 1. unfold try_except. rewrite Es.
      assert (Hpl : (0 < List.length piece)%nat)
        by (destruct piece; [congruence | simpl; lia]).
      destruct (IH (totalsent + List.length piece)%nat s1) as (s' & E & Hc & Hne & Hi & Hco);
        [lia | exact Hsc1 |].
      exists s'. split; [exact E|].
      split; [|split; [|split; congruence]].
      * rewrite Hc, Hs1, concat_app. simpl. rewrite app_nil_r, <- app_assoc, Hcat.
        reflexivity.
      * rewrite Hs1, length_app in Hne. simpl in Hne.
        assert (Hpre : take (List.length (sent s) + 1) (sent s') = sent s ++ [piece]).
        { destruct (tcp_write_loop_appends data fuel _ _ _ E) as (tl & ->). rewrite Hs1.
          rewrite take_app_length'; [reflexivity|]. rewrite length_app. simpl. lia. }
        rewrite <- (take_drop (List.length (sent s) + 1) (sent s')), Hpre.
        rewrite <- app_assoc, drop_app_length. simpl.
        constructor; [exact Hp | exact Hne].
    + apply Nat.ltb_ge in El.
      exists s. rewrite drop_ge, app_nil_r, drop_all by lia.
      repeat split; auto.
Qed.

Lemma tcp_write_loop_ends (data : list byte) (fuel : nat) :
  forall (totalsent : nat) (s : Server),
    (List.length data - totalsent <= fuel)%nat ->
    (write_loop fuel data totalsent s).1 <> Running.
Proof.
  induction fuel as [|fuel IH]; intros totalsent s Hfuel; cbn [write_loop].
  - replace (totalsent <? List.length data)%nat with false
      by (symmetry; apply Nat.ltb_ge; lia).
    discriminate.
  - destruct (totalsent <? List.length data)%nat eqn:El; [|discriminate].
    apply Nat.ltb_lt in El.
    assert (Hd : exists b rest, drop totalsent data = b :: rest).
    { destruct (drop totalsent data) as [|b rest] eqn:Ed; [|eauto].
      apply (f_equal List.length) in Ed. rewrite length_drop in Ed. simpl in Ed. lia. }
    destruct Hd as (b & rest & Hd).
    unfold bind at 1. unfold try_except, send. rewrite Hd.
    destruct (send_script s) as [|[k|e] sc]; simpl.
    + apply IH. apply (f_equal List.length) in Hd. rewrite length_drop in Hd.
      simpl in Hd. lia.
    + apply IH. rewrite length_take. apply (f_equal List.length) in Hd.
      rewrite length_drop in Hd. simpl in *. lia.
    + destruct e; simpl; discriminate.
Qed.

(** [RosSerialServer.write] sends all the data, however the socket takes
    it.  It ends whatever the socket does; connected and with no [send]
    raising it returns, and the pieces the socket took, none of them
    empty, put together after what was sent before are the data. *)
Theorem tcp_write_sends_all (data : list byte) (s : Server) :
  (write data s).1 <> Running
  /\ (isConnected s = true ->
      Forall (fun st => exists k, st = Takes k) (send_script s) ->
      exists s',
        write data s = (Returns tt, s')
        /\ concat (sent s') = concat (sent s) ++ data
        /\ Forall (fun piece => piece <> []) (drop (List.length (sent s)) (sent s'))
        /\ incoming s' = incoming s).
Proof.
  split.
  - unfold write. rewrite sock_bind_gets.
    destruct (isConnected s); simpl; [|discriminate].
    apply tcp_write_loop_ends. lia.
  - intros Hc Hsc. unfold write. rewrite sock_bind_gets, Hc. simpl.
    destruct (tcp_write_loop_sends data (List.length data) 0%nat s) as (s' & E & H1 & H2 & H3 & _);
      [lia | exact Hsc |].
    exists s'. auto.
Qed.

End TCPServer.

Lemma udp_write_sends_data_in_chunks_witness :
  exists cs,
    RosSerialUDPServer.write (repeat x2a 600) (udp_server [] [])
    = (sockets.Returns tt,
       RosSerialUDPServer.set_sent
         (RosSerialUDPServer.sent (udp_server [] [])
          ++ map (fun c => (c, ("10.0.0.7", 5000))) cs)
         (udp_server [] []))
    /\ concat cs = repeat x2a 600
    /\ Forall (fun c => (0 < List.length c <= 508)%nat) cs
    /\ Forall (fun c => List.length c = 508%nat) (removelast cs).
Proof.
  apply (proj1 (udp_write_sends_data_in_chunks (repeat x2a 600) (udp_server [] []))
           ("10.0.0.7", 5000)).
  - reflexivity.
  - reflexivity.
  - reflexivity.
Defined.

Lemma udp_read_returns_stream_witness :
  exists s',
    RosSerialUDPServer.read 4
      (udp_server [x01]
         [([x02; x03], ("10.0.0.7", 5000));
          ([x09], ("10.0.0.9", 5000));
          ([x04; x05], ("10.0.0.7", 6000))])
    = (sockets.Returns [x01; x02; x03; x04], s')
    /\ RosSerialUDPServer.recv_buffer s'
       ++ RosSerialUDPServer.pending "10.0.0.7" (RosSerialUDPServer.incoming s')
       = [x05]
    /\ RosSerialUDPServer.server_kept
         (udp_server [x01]
            [([x02; x03], ("10.0.0.7", 5000));
             ([x09], ("10.0.0.9", 5000));
             ([x04; x05], ("10.0.0.7", 6000))]) s'.
Proof.
  apply (udp_read_returns_stream 4
           (udp_server [x01]
              [([x02; x03], ("10.0.0.7", 5000));
               ([x09], ("10.0.0.9", 5000));
               ([x04; x05], ("10.0.0.7", 6000))])
           ("10.0.0.7", 5000)).
  - reflexivity.
  - reflexivity.
  - simpl. repeat constructor; discriminate.
  - vm_compute. split; discriminate.
Defined.

Lemma udp_read_ends_witness :
  match RosSerialUDPServer.read 3 (udp_server [x01] [([x02], ("10.0.0.7", 5000))]) with
  | (sockets.Returns _, s') => True
  | (sockets.Raises e, s') =>
      RosSerialUDPServer.recv_buffer s' = []
      /\ (e = sockets.timeout
          \/ e = sockets.RuntimeError "RosSerialServer.read() socket connection broken")
  | (sockets.Running, _) => False
  end.
Proof.
  apply (udp_read_ends 3 (udp_server [x01] [([x02], ("10.0.0.7", 5000))])).
  lia.
Defined.

Lemma udp_inWaiting_takes_any_datagram_witness :
  exists s',
    RosSerialUDPServer.inWaiting (udp_server [x01] [([x09; x0a], ("10.0.0.9", 4000))])
    = (sockets.Returns
         (len (RosSerialUDPServer.recv_buffer
                 (udp_server [x01] [([x09; x0a], ("10.0.0.9", 4000))])
               ++ take 4096 [x09; x0a])), s')
    /\ RosSerialUDPServer.recv_buffer s'
       = RosSerialUDPServer.recv_buffer
           (udp_server [x01] [([x09; x0a], ("10.0.0.9", 4000))])
         ++ take 4096 [x09; x0a]
    /\ RosSerialUDPServer.incoming s' = []
    /\ RosSerialUDPServer.log s'
       = RosSerialUDPServer.log (udp_server [x01] [([x09; x0a], ("10.0.0.9", 4000))])
         ++ (if bool_decide (("10.0.0.9", 4000) = (("10.0.0.7", 5000) : sockets.Address))
             then []
             else if bool_decide ((("10.0.0.9", 4000) : sockets.Address).1
                                  = (("10.0.0.7", 5000) : sockets.Address).1)
                  then [RosSerialUDPServer.Updating ("10.0.0.7", 5000) ("10.0.0.9", 4000)]
                  else [RosSerialUDPServer.Ignoring ("10.0.0.9", 4000)])
    /\ (RosSerialUDPServer.read
          (len (RosSerialUDPServer.recv_buffer
                  (udp_server [x01] [([x09; x0a], ("10.0.0.9", 4000))])
                ++ take 4096 [x09; x0a])) s').1
       = sockets.Returns
           (RosSerialUDPServer.recv_buffer
              (udp_server [x01] [([x09; x0a], ("10.0.0.9", 4000))])
            ++ take 4096 [x09; x0a]).
Proof.
  apply (udp_inWaiting_takes_any_datagram
           (udp_server [x01] [([x09; x0a], ("10.0.0.9", 4000))])
           [x09; x0a] ("10.0.0.9", 4000) ("10.0.0.7", 5000) []).
  - reflexivity.
  - reflexivity.
  - reflexivity.
  - discriminate.
Defined.

Lemma tcp_read_returns_stream_witness :
  exists s',
    RosSerialServer.read 3 (tcp_server [[x01; x02]; [x03; x04]; []] [])
    = (sockets.Returns [x01; x02; x03], s')
    /\ RosSerialServer.pending (RosSerialServer.incoming s') = [x04]
    /\ RosSerialServer.closing (RosSerialServer.incoming s') = true
    /\ RosSerialServer.sent s'
       = RosSerialServer.sent (tcp_server [[x01; x02]; [x03; x04]; []] []).
Proof.
  apply (tcp_read_returns_stream 3 (tcp_server [[x01; x02]; [x03; x04]; []] [])).
  - reflexivity.
  - vm_compute. split; discriminate.
Defined.

Lemma tcp_read_all_or_raises_witness :
  match RosSerialServer.read 3 (tcp_server [[x01; x02]; []] []) with
  | (sockets.Returns bs, _) => len bs = 3
  | (sockets.Raises e, _) =>
      e = sockets.timeout
      \/ e = sockets.RuntimeError "RosSerialServer.read() socket connection broken"
  | (sockets.Running, _) => False
  end.
Proof.
  apply (proj1 (tcp_read_all_or_raises 3 (tcp_server [[x01; x02]; []] []))).
  - reflexivity.
  - lia.
Defined.

Lemma tcp_write_sends_all_witness :
  exists s',
    RosSerialServer.write [x01; x02; x03]
      (tcp_server [] [RosSerialServer.Takes 0; RosSerialServer.Takes 5])
    = (sockets.Returns tt, s')
    /\ concat (RosSerialServer.sent s')
       = concat (RosSerialServer.sent
                   (tcp_server [] [RosSerialServer.Takes 0; RosSerialServer.Takes 5]))
         ++ [x01; x02; x03]
    /\ Forall (fun piece => piece <> [])
         (drop (List.length
                  (RosSerialServer.sent
                     (tcp_server [] [RosSerialServer.Takes 0; RosSerialServer.Takes 5])))
            (RosSerialServer.sent s'))
    /\ RosSerialServer.incoming s'
       = RosSerialServer.incoming
           (tcp_server [] [RosSerialServer.Takes 0; RosSerialServer.Takes 5]).
Proof.
  apply (proj2 (tcp_write_sends_all [x01; x02; x03]
                  (tcp_server [] [RosSerialServer.Takes 0; RosSerialServer.Takes 5]))).
  - reflexivity.
  - simpl. repeat constructor; eexists; reflexivity.
Defined.
